(** * openlma: raw LMA file decoding and the phasor coincidence scan

    A shallow embedding of [lmalocate/phasor.py] and [lmalocate/raw_io.py],
    with the properties of the design document stated against it.

    Conventions.
    - Python integers are [Z]; numpy [int32] cells are [Z] values with the
      wrap-around of their arithmetic written out ([wrap32]).
    - A raised exception is a value of [exn]; a function that can raise
      returns a [result].
    - A [while] loop is a [Fixpoint] over a fuel argument and returns
      [None] when the fuel runs out; every caller passes a bound that is
      shown to be enough. *)

From Stdlib Require Import ZArith Lia Bool List Zbitwise Sorted.
From Stdlib.Strings Require Import Byte.
From Stdlib.Floats Require Import SpecFloat.
From stdpp Require Import base decidable option list gmap.

Local Open Scope Z_scope.

(** ** Exceptions and results *)

(** The source raises plain [Exception]s told apart by their message, and
    relies on the exceptions of the interpreter and of numpy.  Each raise
    site gets one constructor. *)
Inductive exn : Type :=
  | IndexError          (* numpy / list index out of bounds *)
  | StructError         (* struct.unpack: wrong buffer length *)
  | MalformedRecord     (* "Malformed ... packet doesn't follow bit pattern" *)
  | UnsupportedVersion  (* "Unknown raw data version" *)
  | InconsistentStream  (* "statusPacket id not consistent in file" *)
  | EpochError          (* raised by the calendar conversion *)
  | ZeroDivisionError
  | OverflowError       (* int too large for a float, int() of an infinity *)
  | ValueError          (* int() of a NaN *)
  | TypeError           (* operation on None *)
  | AttributeError      (* attribute of None, or attribute never set *)
  | OutOfBounds.        (* "Can't read the i-th collection" / "reading is out of bounds" *)

Inductive result (A : Type) : Type :=
  | Ok (a : A)
  | Raise (e : exn).
Arguments Ok {A} a.
Arguments Raise {A} e.

Definition rbind {A B} (r : result A) (k : A -> result B) : result B :=
  match r with
  | Ok a => k a
  | Raise e => Raise e
  end.

(** A loop run with fuel: [None] is "fuel exhausted". *)
Definition fbind {A B} (r : result A) (k : A -> option (result B))
  : option (result B) :=
  match r with
  | Ok a => k a
  | Raise e => Some (Raise e)
  end.

Declare Scope result_scope.
Delimit Scope result_scope with result.
Notation "'do' x <- r ; k" := (rbind r (fun x => k))
  (at level 10, x name, r at level 100, k at level 200) : result_scope.
Notation "'run' x <- r ; k" := (fbind r (fun x => k))
  (at level 10, x name, r at level 100, k at level 200) : result_scope.
Local Open Scope result_scope.

(** ** numpy helpers *)

(** Wrap-around of a 32-bit signed cell. *)
Definition wrap32 (z : Z) : Z := (z + 2^31) mod 2^32 - 2^31.

(** [a[k]] for a Python int [k]: negative indices count from the end, and
    anything outside [-len, len) raises [IndexError]. *)
Definition np_index {A} (a : list A) (k : Z) : result A :=
  let N := Z.of_nat (length a) in
  if bool_decide (0 <= k < N) then
    match a !! Z.to_nat k with Some x => Ok x | None => Raise IndexError end
  else if bool_decide (- N <= k < 0) then
    match a !! Z.to_nat (N + k) with Some x => Ok x | None => Raise IndexError end
  else Raise IndexError.

(** ** phasor.py: the coincidence scan *)

Module Phasor.

(** One row of [sortedPeaks]: columns 0..3. *)
Record peak := Peak {
  source_time : Z;   (* [:,0] arrival time minus propagation delay *)
  sensor      : Z;   (* [:,1] index into sensorIds *)
  arrival     : Z;   (* [:,2] *)
  ipower      : Z    (* [:,3] *)
}.

(** The attributes of [Phasor] that [find_initial_guesses] reads. *)
Record phasor := {
  sortedPeaks  : list peak;
  windowLength : Z;
  minSensors   : Z
}.

(** The local variables of [find_initial_guesses]; a guess is the index
    array [np.arange(iGuess, iGuess+n)]. *)
Record scan_state := ScanState {
  guesses   : list (list Z);
  lastGuess : Z;
  iGuess    : Z
}.

(** [while sortedPeaks[iGuess+n,0]-sortedPeaks[iGuess,0] < windowLength: n += 1] *)
Fixpoint grow (fuel : nat) (ph : phasor) (i n : Z) : option (result Z) :=
  match fuel with
  | O => None
  | S fuel' =>
      run a <- np_index (sortedPeaks ph) (i + n);
      run b <- np_index (sortedPeaks ph) i;
      if wrap32 (source_time a - source_time b) <? windowLength ph
      then grow fuel' ph i (n + 1)
      else Some (Ok n)
  end.

(** [for i in guess: sensors.add( sortedPeaks[i,1] )] *)
Fixpoint count_sensors (ph : phasor) (guess : list Z) (sensors : gset Z)
  : result (gset Z) :=
  match guess with
  | [] => Ok sensors
  | i :: rest =>
      do p <- np_index (sortedPeaks ph) i;
      count_sensors ph rest ({[ sensor p ]} ∪ sensors)
  end.

(** The body of the outer [while], lines 131-147. *)
Definition scan_body (fuel : nat) (ph : phasor) (st : scan_state)
  : option (result scan_state) :=
  match grow fuel ph (iGuess st) 1 with
  | None => None
  | Some (Raise e) => Some (Raise e)
  | Some (Ok n) =>
      Some (
      if (n >? minSensors ph) && (iGuess st + n >? lastGuess st) then
        let guess := seqZ (iGuess st) n in
        do sensors <- count_sensors ph guess ∅;
        if Z.of_nat (size sensors) >? minSensors ph then
          Ok {| guesses := guesses st ++ [guess];
                lastGuess := iGuess st + n;
                iGuess := iGuess st + 1 |}
        else
          Ok {| guesses := guesses st; lastGuess := lastGuess st;
                iGuess := iGuess st + 1 |}
      else
        Ok {| guesses := guesses st; lastGuess := lastGuess st;
              iGuess := iGuess st + 1 |})
  end.

(** [while iGuess < len(self.sortedPeaks)-self.minSensors: ...] *)
Fixpoint scan_loop (fuel : nat) (ph : phasor) (st : scan_state)
  : option (result scan_state) :=
  match fuel with
  | O => None
  | S fuel' =>
      if iGuess st <? Z.of_nat (length (sortedPeaks ph)) - minSensors ph then
        match scan_body (S (length (sortedPeaks ph))) ph st with
        | None => None
        | Some (Raise e) => Some (Raise e)
        | Some (Ok st') => scan_loop fuel' ph st'
        end
      else Some (Ok st)
  end.

Definition init_state : scan_state :=
  {| guesses := []; lastGuess := 0; iGuess := 0 |}.

(** [find_initial_guesses]: the value left in [self.guesses]. *)
Definition find_initial_guesses (ph : phasor) : option (result (list (list Z))) :=
  match scan_loop (S (S (length (sortedPeaks ph)))) ph init_state with
  | None => None
  | Some (Raise e) => Some (Raise e)
  | Some (Ok st) => Some (Ok (guesses st))
  end.

(** Specification vocabulary. *)

(** The sensor indices carried by the entries of the window [[i, i+n)]. *)
Definition window_sensors (ph : phasor) (i n : Z) : list Z :=
  sensor <$> take (Z.to_nat n) (drop (Z.to_nat i) (sortedPeaks ph)).

(** How many different sensors the window has. *)
Definition distinct_sensors (ph : phasor) (i n : Z) : Z :=
  Z.of_nat (size (list_to_set (window_sensors ph i n) : gset Z)).

(** The acceptance predicate as the design document words it. *)
Definition accepts (ph : phasor) (st : scan_state) (n : Z) : Prop :=
  n > minSensors ph /\
  distinct_sensors ph (iGuess st) n > minSensors ph /\
  iGuess st + n > lastGuess st.

(** The first index of a recorded guess and its recorded end (the value
    [iGuess+n] written to [lastGuess] when it was accepted). *)
Definition guess_start (g : list Z) : Z := default 0 (head g).
Definition guess_stop (g : list Z) : Z := guess_start g + Z.of_nat (length g).

(** The invariant of the outer loop. *)
Definition scan_inv (st : scan_state) : Prop :=
  0 <= iGuess st /\
  (forall g, g ∈ guesses st ->
     guess_start g < iGuess st /\ guess_stop g <= lastGuess st) /\
  (forall j k g1 g2, (j < k)%nat ->
     guesses st !! j = Some g1 -> guesses st !! k = Some g2 ->
     guess_start g1 < guess_start g2 /\ guess_stop g1 < guess_stop g2).

(** The source time of entry [k], and whether entry [k] is within the
    window that starts at entry [i]. *)
Definition time_at (ph : phasor) (k : Z) : Z :=
  default 0 (source_time <$> sortedPeaks ph !! Z.to_nat k).

Definition close (ph : phasor) (i k : Z) : Prop :=
  wrap32 (time_at ph k - time_at ph i) < windowLength ph.

(** Every entry after [i] is within the window of entry [i]. *)
Definition all_close (ph : phasor) (i : Z) : Prop :=
  forall k, i < k < Z.of_nat (length (sortedPeaks ph)) -> close ph i k.

(** What the scan promises of a guess it reports. *)
Definition maximal_window (ph : phasor) (g : list Z) : Prop :=
  exists s n,
    g = seqZ s n /\ 0 <= s /\ s + n < Z.of_nat (length (sortedPeaks ph)) /\
    n > minSensors ph /\ distinct_sensors ph s n > minSensors ph /\
    (forall k, s < k < s + n -> close ph s k) /\ ~ close ph s (s + n).

(** Some start index the loop reaches has every later entry in its window. *)
Definition runs_off_end (ph : phasor) : Prop :=
  exists i, 0 <= i < Z.of_nat (length (sortedPeaks ph)) - minSensors ph /\
            all_close ph i.

(** Sample inputs.  [overlap_phasor]: four peaks of two sensors, 50 us
    apart and then 100 us apart.  [tail_phasor]: six sensors seeing one
    event within 50 ns, with the default [minSensors]. *)
Definition overlap_phasor : phasor :=
  {| sortedPeaks := [Peak 0 0 0 0; Peak 50000 1 50000 0;
                     Peak 100000 0 100000 0; Peak 200000 1 200000 0];
     windowLength := 80000; minSensors := 1 |}.

Definition tail_phasor : phasor :=
  {| sortedPeaks := [Peak 100 0 100 0; Peak 110 1 110 0; Peak 120 2 120 0;
                     Peak 130 3 130 0; Peak 140 4 140 0; Peak 150 5 150 0];
     windowLength := 80000; minSensors := 5 |}.

End Phasor.

(** ** raw_io.py: the packet codec *)

Module RawIO.

(** *** Bytes, words and floats *)

Definition byte_to_Z (b : byte) : Z := Z.of_N (Byte.to_N b).

(** One little-endian signed 16-bit word ([h] of [struct]). *)
Definition int16 (lo hi : byte) : Z :=
  let u := byte_to_Z lo + 256 * byte_to_Z hi in
  if u <? 32768 then u else u - 65536.

Fixpoint unpack_words (bs : list byte) : list Z :=
  match bs with
  | lo :: hi :: rest => int16 lo hi :: unpack_words rest
  | _ => []
  end.

(** [struct.unpack('<nh', bs)]: the buffer must hold exactly [2n] bytes. *)
Definition struct_unpack_h (n : nat) (bs : list byte) : result (list Z) :=
  if (length bs =? 2 * n)%nat then Ok (unpack_words bs) else Raise StructError.

(** [words[k]] of a tuple. *)
Definition word (ws : list Z) (k : nat) : Z := default 0 (ws !! k).

(** Python floats are IEEE binary64, rounding to nearest even. *)
Definition prec : Z := 53.
Definition emax : Z := 1024.

Definition fmul : spec_float -> spec_float -> spec_float := SFmul prec emax.
Definition fdiv : spec_float -> spec_float -> spec_float := SFdiv prec emax.
Definition fsub : spec_float -> spec_float -> spec_float := SFsub prec emax.

(** The nearest float to an integer; [float(z)] for a Python int raises
    when that is an infinity. *)
Definition f_of (z : Z) : spec_float := binary_normalize prec emax z 0 false.

Definition float_of_int (z : Z) : result spec_float :=
  match f_of z with
  | S754_infinity _ => Raise OverflowError
  | f => Ok f
  end.

(** [int(f)]: truncation towards zero. *)
Definition int_of_float (f : spec_float) : result Z :=
  match f with
  | S754_zero _ => Ok 0
  | S754_finite s m e => Ok (cond_Zopp s (Z.shiftl (Z.pos m) e))
  | S754_infinity _ => Raise OverflowError
  | S754_nan => Raise ValueError
  end.

(** [x / z] for a float [x] and a Python int [z]. *)
Definition float_div_int (x : spec_float) (z : Z) : result spec_float :=
  do d <- float_of_int z;
  if z =? 0 then Raise ZeroDivisionError else Ok (fdiv x d).

(** The literals [1e9], [0.488] and [111.0]. *)
Definition f_1e9 : spec_float :=
  Eval vm_compute in binary_normalize prec emax 1000000000 0 false.
Definition f_0_488 : spec_float := S754_finite false 0x1f3b645a1cac08 (-54).
Definition f_111 : spec_float :=
  Eval vm_compute in binary_normalize prec emax 111 0 false.

(** *** StatusPacket *)

(** A Python [str] as its list of code points: [chr(c)] is [[c]] and the
    empty string is [[]]. *)
Definition str : Type := list Z.
Definition chr (c : Z) : str := [c].

(** The attributes a decoded [StatusPacket] carries. *)
Record status := Status {
  sp_words        : list Z;
  sp_version      : Z;
  sp_year         : Z;
  sp_month        : Z;
  sp_day          : Z;
  sp_hour         : Z;
  sp_minute       : Z;
  sp_second       : Z;
  sp_epoch        : Z;
  sp_threshold    : Z;
  sp_fifoStatus   : Z;
  sp_phaseDiff    : Z;
  sp_triggerCount : Z;
  sp_id           : str;
  sp_netid        : str;
  sp_gpsInfo      : Z
}.

Definition set_epoch (sp : status) (e : Z) : status :=
  Status (sp_words sp) (sp_version sp) (sp_year sp) (sp_month sp) (sp_day sp)
         (sp_hour sp) (sp_minute sp) (sp_second sp) e (sp_threshold sp)
         (sp_fifoStatus sp) (sp_phaseDiff sp) (sp_triggerCount sp)
         (sp_id sp) (sp_netid sp) (sp_gpsInfo sp).

(** [decode_1011] and [decode_1213] differ in [netid] only. *)
Definition decode_1x (with_netid : bool) (version : Z) (w : list Z) : status :=
  let year         := Z.land (word w 0) 0x7F + 2000 in
  let threshold    := Z.land (word w 1) 0xFF in
  let fifoStatus   := Z.land (Z.shiftr (word w 2) 12) 0x07 in
  let second       := Z.land (Z.shiftr (word w 2) 6) 0x3F in
  let minute       := Z.land (word w 2) 0x3F in
  let hour         := Z.land (Z.shiftr (word w 3) 9) 0x1F in
  let day          := Z.land (Z.shiftr (word w 3) 4) 0x1F in
  let month        := Z.land (word w 3) 0x0F in
  let triggerCount := Z.land (word w 4) 0x3FFF in
  let id := Z.lor (Z.land (Z.shiftr (word w 1) 5) 0x80)
                  (Z.land (Z.shiftr (word w 5) 8) 0x7F) in
  let netid := Z.land (word w 5) 0x00FF in
  let phaseDiff := Z.land (word w 6) 0x7FFF in
  let phaseDiff :=
    if Z.land (Z.shiftr (word w 1) 14) 0x1 =? 1 then phaseDiff * -1
    else phaseDiff in
  let gpsInfo := Z.lor (Z.land (word w 7) 0x7FFF)
                       (Z.shiftl (Z.land (word w 1) 0x2000) 2) in
  {| sp_words := w; sp_version := version;
     sp_year := year; sp_month := month; sp_day := day;
     sp_hour := hour; sp_minute := minute; sp_second := second;
     sp_epoch := 0;
     sp_threshold := threshold; sp_fifoStatus := fifoStatus;
     sp_phaseDiff := phaseDiff; sp_triggerCount := triggerCount;
     sp_id := chr (id + 64);
     sp_netid := if with_netid then chr (netid + 64) else [];
     sp_gpsInfo := gpsInfo |}.

Definition decode_1011 := decode_1x false.
Definition decode_1213 := decode_1x true.

(** [decode_89] is defined by the source and called from nowhere.  It
    leaves [id] an integer (kept here as a one-element list), and sets
    neither [netid] nor [gpsInfo]. *)
Definition decode_89 (version : Z) (w : list Z) : status :=
  let phaseDiff := Z.land (Z.shiftr (word w 1) 8) 0x1F in
  let phaseDiff :=
    if Z.shiftr (word w 1) 14 mod 2 =? 1 then phaseDiff * -1 else phaseDiff in
  {| sp_words := w; sp_version := version;
     sp_year := Z.land (word w 0) 0x7F + 2000;
     sp_month := Z.land (word w 3) 0x0F;
     sp_day := Z.land (Z.shiftr (word w 3) 4) 0x1F;
     sp_hour := Z.land (Z.shiftr (word w 3) 9) 0x1F;
     sp_minute := Z.land (word w 2) 0x3F;
     sp_second := Z.land (Z.shiftr (word w 2) 6) 0x3F;
     sp_epoch := 0;
     sp_threshold := Z.land (word w 1) 0xFF;
     sp_fifoStatus := Z.land (Z.shiftr (word w 2) 12) 0x07;
     sp_phaseDiff := phaseDiff;
     sp_triggerCount :=
       Z.lor (Z.land (word w 5) 0x1FF) (Z.shiftl (Z.land (word w 4) 0x7F) 9);
     sp_id := [Z.land (Z.shiftr (word w 4) 8) 0x7F];
     sp_netid := [];
     sp_gpsInfo := 0 |}.

(** [StatusPacket.decode]: the dispatch on the version. *)
Definition decode (version : Z) (w : list Z) : result status :=
  if (version =? 10) || (version =? 11) then Ok (decode_1011 version w)
  else if (version =? 12) || (version =? 13) then Ok (decode_1213 version w)
  else Raise UnsupportedVersion.

(** The calendar conversion [timestamp2epoch] lives in [common], outside
    these sources.  It is a parameter of the decoder: it receives the six
    fields that [calc_epoch] prints into the timestamp string, and may
    raise. *)
Definition epoch_fn : Type := Z -> Z -> Z -> Z -> Z -> Z -> result Z.

Section Decoder.
Variable timestamp2epoch : epoch_fn.

Definition calc_epoch (sp : status) : result status :=
  do e <- timestamp2epoch (sp_year sp) (sp_month sp) (sp_day sp)
                          (sp_hour sp) (sp_minute sp) (sp_second sp);
  Ok (set_epoch sp e).

(** [StatusPacket.__init__]. *)
Definition StatusPacket (inputString : list byte) : result status :=
  do words <- struct_unpack_h 9 inputString;
  let version := Z.land (Z.shiftr (word words 0) 7) 0x3f in
  let words := if version <? 10 then take 6 words else words in
  if negb (forallb (fun v => v <? 0) words) then Raise MalformedRecord
  else
    do sp <- decode version words;
    calc_epoch sp.

End Decoder.

(** *** DataPacket *)

(** The attributes set by a [decode_*] method. *)
Record data_fields := DataFields {
  aboveThresh : Z;
  ticks       : Z;
  window      : Z;
  maxData     : Z;
  nano        : Z;
  power       : spec_float
}.

(** A [DataPacket] object; [dp_fields] is [None] when no decode method ran
    and the attributes were never set. *)
Record data_packet := {
  dp_words     : list Z;
  dp_version   : Z;
  dp_phaseDiff : Z;
  dp_fields    : option data_fields
}.

(** [nano] and [power], shared by the three decode methods. *)
Definition nano_of (window windowLength ticks : Z) (samplePeriod : spec_float)
  : result Z :=
  do t <- float_of_int ticks;
  do n <- int_of_float (fmul t samplePeriod);
  Ok (window * windowLength + n).

Definition power_of (maxData : Z) : result spec_float :=
  do m <- float_of_int maxData;
  Ok (fsub (fmul f_0_488 m) f_111).

Definition decode_12 (w : list Z) (phaseDiff : Z) : result data_fields :=
  do samplePeriod <- float_div_int f_1e9 (25000000 + phaseDiff);
  let windowLength := 80000 in
  let aboveThresh := Z.lor (Z.shiftr (word w 0) 11)
                           (Z.shiftr (Z.land (word w 2) 0xFF00) 4) in
  let ticks   := Z.land (word w 0) 0x07FF in
  let window  := Z.land (word w 1) 0x3FFF in
  let maxData := Z.land (word w 2) 0x00FF in
  do nano <- nano_of window windowLength ticks samplePeriod;
  do power <- power_of maxData;
  Ok (DataFields aboveThresh ticks window maxData nano power).

(** [decode_8] and [decode_9]: defined, never dispatched to. *)
Definition decode_8 (w : list Z) : result data_fields :=
  do samplePeriod <- float_div_int f_1e9 25000000;
  let windowLength := 80000 in
  let aboveThresh :=
    Z.lor (Z.lor (Z.shiftr (word w 0) 11)
                 (Z.shiftr (Z.land (word w 1) 0x4000) 10))
          (Z.shiftr (Z.land (word w 2) 0x7F00) 4) in
  let ticks   := Z.land (word w 0) 0x07FF in
  let window  := Z.land (word w 1) 0x3FFF in
  let maxData := Z.land (word w 2) 0x00FF in
  do nano <- nano_of window windowLength ticks samplePeriod;
  do power <- power_of maxData;
  Ok (DataFields aboveThresh ticks window maxData nano power).

Definition decode_9 (w : list Z) : result data_fields :=
  do samplePeriod <- float_div_int f_1e9 25000000;
  let windowLength := 10000 in
  let aboveThresh :=
    Z.lor (Z.lor (Z.shiftr (word w 0) 11)
                 (Z.shiftr (Z.land (word w 1) 0x4000) 10))
          (Z.shiftr (Z.land (word w 2) 0x7F00) 4) in
  let ticks   := Z.land (word w 0) 0x00FF in
  let window  := Z.lor (Z.land (word w 1) 0x3FFF)
                       (Z.shiftl (Z.land (word w 0) 0x0700) 6) in
  let maxData := Z.land (word w 2) 0x00FF in
  do nano <- nano_of window windowLength ticks samplePeriod;
  do power <- power_of maxData;
  Ok (DataFields aboveThresh ticks window maxData nano power).

(** [DataPacket.decode]: versions 12 and 10 go to [decode_12]; for any other
    version the method falls through and sets nothing. *)
Definition data_decode (version : Z) (w : list Z) (phaseDiff : Z)
  : result (option data_fields) :=
  if (version =? 12) || (version =? 10) then
    do f <- decode_12 w phaseDiff; Ok (Some f)
  else Ok None.

(** The sign pattern [[v<0 for v in words]] of a data packet. *)
Definition data_pattern_ok (w : list Z) : bool :=
  bool_decide ((fun v => v <? 0) <$> w = [false; true; false]).

(** [DataPacket.__init__]. *)
Definition DataPacket (inputString : list byte) (version phaseDiff : Z)
  : result data_packet :=
  do words <- struct_unpack_h 3 inputString;
  if negb (data_pattern_ok words) then Raise MalformedRecord
  else
    do f <- data_decode version words phaseDiff;
    Ok {| dp_words := words; dp_version := version;
          dp_phaseDiff := phaseDiff; dp_fields := f |}.

(** Reading an attribute that [decode] was to set. *)
Definition dp_attr {A} (get : data_fields -> A) (d : data_packet) : result A :=
  match dp_fields d with
  | Some f => Ok (get f)
  | None => Raise AttributeError
  end.

(** *** LMAFrame *)

(** One cell of the structured array [frameDtype]: an [int32], a [float32]
    and an [int32].  Values are taken after the cast to the cell type. *)
Record sample := Sample {
  s_nano        : Z;
  s_power       : spec_float;
  s_aboveThresh : Z
}.

(** numpy arrays are objects: a frame holds a reference, and two frames may
    hold the same one.  The heap maps a reference to the array's cells. *)
Abbreviation heap := (gmap nat (list sample)).

Definition alloc (h : heap) (cells : list sample) : nat * heap :=
  let l := fresh (dom h) in (l, <[l := cells]> h).

(** [_arr] is the reference in [self._arr] (or [None]); [_view] is the
    array that [self.nano], [self.power] and [self.aboveThresh] were sliced
    from by the last [update()]. *)
Record frame := Frame {
  statusPacket : status;
  _arr  : option nat;
  _view : option nat
}.

Definition update (f : frame) : frame :=
  match _arr f with
  | None => f
  | Some l => Frame (statusPacket f) (Some l) (Some l)
  end.

(** [LMAFrame.__init__]: the input array is kept, not copied. *)
Definition LMAFrame (sp : status) (inputArray : option nat) : frame :=
  update (Frame sp inputArray None).

(** [append]: the array object is resized in place, so every frame holding
    the same reference sees the new cell. *)
Definition append (f : frame) (x : sample) (upd : bool) (h : heap)
  : result (frame * heap) :=
  let '(l, h) :=
    match _arr f with
    | Some l => (l, h)
    | None => alloc h []
    end in
  match h !! l with
  | None => Raise TypeError
  | Some cells =>
      let f := Frame (statusPacket f) (Some l) (_view f) in
      Ok (if upd then update f else f, <[l := cells ++ [x]]> h)
  end.

(** [copy(inplace)]: the value returned to the caller, the frame itself
    afterwards, and the heap.  With [inplace=True], the default, the frame
    swaps its own array for a fresh copy and the method returns [None]. *)
Definition copy (f : frame) (inplace : bool) (h : heap)
  : result (option frame * frame * heap) :=
  match _arr f with
  | None => Raise AttributeError
  | Some l =>
      match h !! l with
      | None => Raise AttributeError
      | Some cells =>
          let '(l', h') := alloc h cells in
          if inplace then
            Ok (None, update (Frame (statusPacket f) (Some l') (_view f)), h')
          else
            Ok (Some (LMAFrame (statusPacket f) (Some l')), f, h')
      end
  end.

(** [a > b] on floats. *)
Definition fgt (a b : spec_float) : bool := SFltb b a.

(** The inner loop of [decimate], lines 378-385. *)
Fixpoint window_max (fuel : nat) (arr : list sample) (bound : Z)
    (i : Z) (maxPeak : sample) : option (result (Z * sample)) :=
  match fuel with
  | O => None
  | S fuel' =>
      run c <- np_index arr i;
      if s_nano c <? bound then
        let maxPeak := if fgt (s_power c) (s_power maxPeak) then c else maxPeak in
        let i := i + 1 in
        if i >=? Z.of_nat (length arr) then Some (Ok (i, maxPeak))
        else window_max fuel' arr bound i maxPeak
      else Some (Ok (i, maxPeak))
  end.

(** The outer loop of [decimate], lines 371-389; [out] is the new array. *)
Fixpoint decimate_loop (fuel : nat) (arr : list sample) (windowLength : Z)
    (nano i : Z) (out : list sample) : option (result (list sample)) :=
  match fuel with
  | O => None
  | S fuel' =>
      if (nano + windowLength <? 10^9) && (i <? Z.of_nat (length arr)) then
        run c <- np_index arr i;
        if s_nano c >=? nano + windowLength then
          decimate_loop fuel' arr windowLength (nano + windowLength) i out
        else
          run maxPeak <- np_index arr i;
          match window_max (S (length arr)) arr (nano + windowLength) i maxPeak with
          | None => None
          | Some (Raise e) => Some (Raise e)
          | Some (Ok (i, maxPeak)) =>
              decimate_loop fuel' arr windowLength nano i (out ++ [maxPeak])
          end
      else Some (Ok out)
  end.

(** [decimate(windowLength)].  The loop need not end (a window length of 0
    never advances), so the fuel is an argument. *)
Definition decimate (fuel : nat) (f : frame) (windowLength : Z) (h : heap)
  : option (result (frame * heap)) :=
  let finish out :=
    let '(l', h') := alloc h out in
    Some (Ok (update (Frame (statusPacket f) (Some l') (_view f)), h')) in
  if 0 + windowLength <? 10^9 then
    match _arr f with
    | None => Some (Raise TypeError)       (* len(None) *)
    | Some l =>
        match h !! l with
        | None => Some (Raise TypeError)
        | Some arr =>
            match decimate_loop fuel arr windowLength 0 0 [] with
            | None => None
            | Some (Raise e) => Some (Raise e)
            | Some (Ok out) => finish out
            end
        end
    end
  else finish [].

(** Fuel that is enough for a positive window length. *)
Definition decimate_fuel (n : nat) (windowLength : Z) : nat :=
  S (n + Z.to_nat (10^9 / windowLength)).

(** The window of [decimate] a cell falls in. *)
Definition window_index (windowLength : Z) (c : sample) : Z :=
  s_nano c / windowLength.

(** Cells in time order, none before the start of the second: what
    [read_frame] gives for a file written by a sensor. *)
Definition time_ordered (arr : list sample) : Prop :=
  (forall c, c ∈ arr -> 0 <= s_nano c) /\
  forall (j k : nat) a b, (j <= k)%nat ->
    arr !! j = Some a -> arr !! k = Some b -> s_nano a <= s_nano b.

(** The cells a frame holds. *)
Definition cells_of (f : frame) (h : heap) : option (list sample) :=
  l ← _arr f; h !! l.

(** The ways a caller can change a frame after it was built. *)
Inductive mutation : Type :=
  | MAppend (x : sample) (upd : bool)
  | MDecimate (fuel : nat) (windowLength : Z)
  | MCopyInplace.

Definition mutate (m : mutation) (f : frame) (h : heap)
  : option (result (frame * heap)) :=
  match m with
  | MAppend x upd => Some (append f x upd h)
  | MDecimate fuel w => decimate fuel f w h
  | MCopyInplace =>
      Some (do r <- copy f true h; let '(_, f', h') := r in Ok (f', h'))
  end.

Fixpoint mutate_all (ms : list mutation) (f : frame) (h : heap)
  : option (result (frame * heap)) :=
  match ms with
  | [] => Some (Ok (f, h))
  | m :: ms =>
      match mutate m f h with
      | Some (Ok (f', h')) => mutate_all ms f' h'
      | r => r
      end
  end.

(** *** RawLMAFile: locating the status packets *)

(** The almanac attributes folded from [gpsInfo] over a 12-second cycle.
    The floats [lat], [lon] and [alt] are functions of the integers kept
    here and are left out; the last four attributes do not exist before
    their slot is first seen. *)
Record almanac := Almanac {
  gpslat : Z; gpslon : Z; gpsalt : Z; vel : Z; brg : Z;
  satTracked : option Z; satVisible : option Z;
  satStat : option Z; temp : option Z
}.

Definition almanac0 : almanac := Almanac 0 0 0 0 0 None None None None.

Definition decode_gpsInfo (a : almanac) (sp : status) : almanac :=
  let g := sp_gpsInfo sp in
  let hi old := Z.lor (Z.shiftl g 16) (Z.land old 0xFFFF) in
  let lo old := Z.lor g (Z.land old 0xFFFF0000) in
  let 'Almanac la lo_ al ve br st sv ss te := a in
  match sp_second sp mod 12 with
  | 0 => Almanac (hi la) lo_ al ve br st sv ss te
  | 1 => Almanac (lo la) lo_ al ve br st sv ss te
  | 2 => Almanac la (hi lo_) al ve br st sv ss te
  | 3 => Almanac la (lo lo_) al ve br st sv ss te
  | 4 => Almanac la lo_ (hi al) ve br st sv ss te
  | 5 => Almanac la lo_ (lo al) ve br st sv ss te
  | 6 => Almanac la lo_ al (hi ve) br st sv ss te
  | 7 => Almanac la lo_ al (lo ve) br st sv ss te
  | 8 => Almanac la lo_ al ve g st sv ss te
  | 9 => Almanac la lo_ al ve br
           (Some (Z.land (Z.shiftr g 8) 0xFF)) (Some (Z.land g 0xFF)) ss te
  | 10 => Almanac la lo_ al ve br st sv (Some (Z.land g 0xFFF)) te
  | 11 => Almanac la lo_ al ve br st sv ss (Some (Z.shiftr g 8 - 40))
  | _ => a
  end.

(** [inputFile.read(n)] at position [pos]: short at the end of the file. *)
Definition read_at (file : list byte) (pos n : Z) : list byte :=
  take (Z.to_nat n) (drop (Z.to_nat pos) file).

(** What the two searches build. *)
Record scanner := Scanner {
  statusLocations : list Z;
  statusPackets   : list (option status);
  endEpoch        : Z;
  alm             : almanac
}.

Section Scanner.
Variable timestamp2epoch : epoch_fn.
Variable file : list byte.          (* the bytes of inputFile *)
Variables (id netid : str) (statusSize : Z).   (* set by find_status *)

Definition fileSize : Z := Z.of_nat (length file).

(** The statements of [_search_forwards] after a packet was accepted. *)
Definition record_status (st : scanner) (loc : Z) (sp : status) : scanner :=
  {| statusLocations := statusLocations st ++ [loc];
     statusPackets := statusPackets st ++ [Some sp];
     endEpoch := if sp_epoch sp >? endEpoch st then sp_epoch sp else endEpoch st;
     alm := decode_gpsInfo (alm st) sp |}.

(** The body of the [try:] of [_search_forwards], lines 138-156. *)
Definition forward_try (fileLocation : Z) (st : scanner) : result (Z * scanner) :=
  do sp <- StatusPacket timestamp2epoch (read_at file fileLocation statusSize);
  if negb (bool_decide (sp_id sp = id)) || negb (bool_decide (sp_netid sp = netid))
  then Raise InconsistentStream
  else Ok (fileLocation + statusSize, record_status st fileLocation sp).

(** The [while] of [_search_forwards]; the bare [except:] catches every
    exception raised in the [try:], the one about the id included. *)
Fixpoint forward_loop (fuel : nat) (fileLocation : Z) (st : scanner)
  : option (result scanner) :=
  match fuel with
  | O => None
  | S fuel' =>
      if fileLocation <? fileSize then
        match forward_try fileLocation st with
        | Ok (fileLocation', st') => forward_loop fuel' fileLocation' st'
        | Raise _ => forward_loop fuel' (fileLocation + 3) st
        end
      else Some (Ok st)
  end.

Definition _search_forwards (st : scanner) : option (result scanner) :=
  let st := {| statusLocations := statusLocations st ++ [0];
               statusPackets := statusPackets st ++ [None];
               endEpoch := endEpoch st; alm := alm st |} in
  forward_loop (S (length file)) statusSize st.

(** The [while] of [_search_backwards]; [pos] is [inputFile.tell()]. *)
Fixpoint backward_loop (fuel : nat) (pos : Z) (st : scanner)
  : option (result scanner) :=
  match fuel with
  | O => None
  | S fuel' =>
      if pos >? statusSize then
        let pos := pos - statusSize in
        let locs := statusLocations st ++ [pos] in
        let bytes := read_at file pos statusSize in
        let pos := pos + Z.of_nat (length bytes) in
        run sp <- StatusPacket timestamp2epoch bytes;
        let pkts := statusPackets st ++ [Some sp] in
        if negb (bool_decide (sp_id sp = id)) || negb (bool_decide (sp_netid sp = netid))
        then Some (Raise InconsistentStream)
        else
          let st :=
            {| statusLocations := locs; statusPackets := pkts;
               endEpoch := if sp_epoch sp >? endEpoch st then sp_epoch sp
                           else endEpoch st;
               alm := decode_gpsInfo (alm st) sp |} in
          if pos >? sp_triggerCount sp * 6 + statusSize then
            backward_loop fuel' (pos - sp_triggerCount sp * 6 - statusSize) st
          else Some (Ok st)                 (* warning, break *)
      else Some (Ok st)
  end.

Definition _search_backwards (st : scanner) : option (result scanner) :=
  match backward_loop (S (length file)) fileSize st with
  | None => None
  | Some (Raise e) => Some (Raise e)
  | Some (Ok st) =>
      Some (Ok {| statusLocations := reverse (statusLocations st ++ [0]);
                  statusPackets := reverse (statusPackets st ++ [None]);
                  endEpoch := endEpoch st; alm := alm st |})
  end.

End Scanner.

(** The attributes of [RawLMAFile] set by [find_status]. *)
Record raw_file := {
  rf_version    : Z;
  rf_id         : str;
  rf_netid      : str;
  rf_startEpoch : Z;
  rf_statusSize : Z;
  rf_scan       : scanner
}.

(** [find_status], for a file opened with the given [decimated] flag. *)
Definition find_status (timestamp2epoch : epoch_fn) (decimated : bool)
    (file : list byte) : option (result raw_file) :=
  run statusPacket <- StatusPacket timestamp2epoch (read_at file 0 18);
  let version := sp_version statusPacket in
  let id := sp_id statusPacket in
  let netid := sp_netid statusPacket in
  let statusSize := if version >=? 10 then 18 else 12 in
  let search := if decimated then _search_forwards else _search_backwards in
  match search timestamp2epoch file id netid statusSize
               (Scanner [] [] 0 almanac0) with
  | None => None
  | Some (Raise e) => Some (Raise e)
  | Some (Ok st) =>
      Some (Ok {| rf_version := version; rf_id := id; rf_netid := netid;
                  rf_startEpoch := sp_epoch statusPacket + 1;
                  rf_statusSize := statusSize; rf_scan := st |})
  end.

(** The boundary offsets a strategy reports. *)
Definition boundaries (timestamp2epoch : epoch_fn) (decimated : bool)
    (file : list byte) : option (result (list Z)) :=
  match find_status timestamp2epoch decimated file with
  | None => None
  | Some (Raise e) => Some (Raise e)
  | Some (Ok rf) => Some (Ok (statusLocations (rf_scan rf)))
  end.

(** *** RawLMAFile.read_frame *)

(** A Python int stored in an [int32] column of [frameDtype].  NumPy
    refuses a value outside the range of the cell; the values [read_frame]
    stores never are (see [ReadFrameFacts.decode_cell_Ok]). *)
Definition int32_cell (z : Z) : result Z :=
  if (- 2^31 <=? z) && (z <? 2^31) then Ok z else Raise OverflowError.

(** A Python float stored in the [float32] column: rounded to binary32,
    to an infinity when too large. *)
Definition float32_cell (f : spec_float) : spec_float :=
  match f with
  | S754_finite s m e => binary_normalize 24 128 (cond_Zopp s (Z.pos m)) e s
  | _ => f
  end.

(** The body of the loop of [read_frame], lines 299-303: one data packet
    becomes one cell. *)
Definition decode_cell (version phaseDiff : Z) (bytes : list byte)
  : result sample :=
  do d <- DataPacket bytes version phaseDiff;
  do nano <- dp_attr nano d;
  do nano <- int32_cell nano;
  do power <- dp_attr power d;
  do aboveThresh <- dp_attr aboveThresh d;
  do aboveThresh <- int32_cell aboveThresh;
  Ok (Sample nano (float32_cell power) aboveThresh).

(** The loop of [read_frame], lines 296-303; [pos] is [inputFile.tell()]
    and [cells] the cells of [dataArray] filled so far. *)
Fixpoint read_cells (n : nat) (file : list byte) (pos readEnd version phaseDiff : Z)
    (cells : list sample) : result (list sample) :=
  match n with
  | O => Ok cells
  | S n' =>
      if pos >=? readEnd then Raise OutOfBounds
      else
        let bytes := read_at file pos 6 in
        do c <- decode_cell version phaseDiff bytes;
        read_cells n' file (pos + Z.of_nat (length bytes)) readEnd
                   version phaseDiff (cells ++ [c])
  end.

(** [a / b] for Python ints, as it is for operands below 2^53. *)
Definition true_div (a b : Z) : result spec_float :=
  do x <- float_of_int a; float_div_int x b.

(** [read_frame(iStatus)] on a file that [find_status] went through.  The
    copies of [geodetic] and [cartesian] into the status packet are left
    out; the array of the new frame is allocated in the heap. *)
Definition read_frame (file : list byte) (decimated : bool) (rf : raw_file)
    (iStatus : Z) (h : heap) : result (frame * heap) :=
  let locs := statusLocations (rf_scan rf) in
  let pkts := statusPackets (rf_scan rf) in
  if (iStatus <=? 0) || (iStatus >=? Z.of_nat (length locs)) then Raise OutOfBounds
  else
    do before <- np_index locs (iStatus - 1);
    let readStart := before + rf_statusSize rf in
    do readEnd <- np_index locs iStatus;
    do pkt <- np_index pkts iStatus;
    match pkt with
    | None => Raise AttributeError
    | Some statusPacket =>
        let version := sp_version statusPacket in
        let phaseDiff := sp_phaseDiff statusPacket in
        do triggerCount <-
          (if negb decimated then Ok (sp_triggerCount statusPacket)
           else do q <- true_div (readEnd - readStart) 6; int_of_float q);
        if triggerCount <? 0 then Raise ValueError      (* np.zeros *)
        else
          do cells <- read_cells (Z.to_nat triggerCount) file readStart readEnd
                                 version phaseDiff [];
          let '(l, h') := alloc h cells in
          Ok (LMAFrame statusPacket (Some l), h')
    end.

(** *** The layout of a fixed-rate file *)

(** The layout of a fixed-rate file: after the bootstrap packet, each second
    is its data packets followed by the status packet that counts them. *)
Record second_block := SecondBlock {
  sb_data   : list (list byte);
  sb_status : list byte
}.

Definition block_bytes (b : second_block) : list byte :=
  concat (sb_data b) ++ sb_status b.

Definition layout (boot : list byte) (blocks : list second_block) : list byte :=
  boot ++ concat (block_bytes <$> blocks).

(** A data packet with the right length and sign pattern. *)
Definition data_ok (d : list byte) : bool :=
  match struct_unpack_h 3 d with
  | Ok ws => data_pattern_ok ws
  | Raise _ => false
  end.

(** Does a status packet of the file's sensor decode from the 18 bytes at
    [off]?  This is the test both searches apply. *)
Definition accepts_at (timestamp2epoch : epoch_fn) (file : list byte)
    (id netid : str) (off : Z) : bool :=
  match StatusPacket timestamp2epoch (read_at file off 18) with
  | Ok sp => bool_decide (sp_id sp = id) && bool_decide (sp_netid sp = netid)
  | Raise _ => false
  end.

Definition block_ok (timestamp2epoch : epoch_fn) (id netid : str)
    (b : second_block) : bool :=
  match StatusPacket timestamp2epoch (sb_status b) with
  | Ok sp =>
      bool_decide (sp_id sp = id) && bool_decide (sp_netid sp = netid)
      && (sp_triggerCount sp =? Z.of_nat (length (sb_data b)))
      && forallb data_ok (sb_data b)
  | Raise _ => false
  end.

(** The status packet that closes a block, decoded. *)
Definition block_status (timestamp2epoch : epoch_fn) (b : second_block)
  : option status :=
  match StatusPacket timestamp2epoch (sb_status b) with
  | Ok sp => Some sp
  | Raise _ => None
  end.

Definition well_formed (timestamp2epoch : epoch_fn) (boot : list byte)
    (blocks : list second_block) : bool :=
  match StatusPacket timestamp2epoch boot with
  | Ok sp0 => forallb (block_ok timestamp2epoch (sp_id sp0) (sp_netid sp0)) blocks
  | Raise _ => false
  end.

(** Where the status packets of the blocks sit, the first block starting
    at [start]. *)
Fixpoint status_offsets (start : Z) (blocks : list second_block) : list Z :=
  match blocks with
  | [] => []
  | b :: bs =>
      let off := start + 6 * Z.of_nat (length (sb_data b)) in
      off :: status_offsets (off + 18) bs
  end.

(** The offsets the forward search tries inside the data runs. *)
Fixpoint data_steps (start : Z) (blocks : list second_block) : list Z :=
  match blocks with
  | [] => []
  | b :: bs =>
      let n := Z.of_nat (length (sb_data b)) in
      ((fun j => start + 3 * j) <$> seqZ 0 (2 * n))
        ++ data_steps (start + 6 * n + 18) bs
  end.

(** No 18 bytes at a step inside a data run look like a status packet of
    this sensor. *)
Definition no_lookalike (timestamp2epoch : epoch_fn) (boot : list byte)
    (blocks : list second_block) : bool :=
  match StatusPacket timestamp2epoch boot with
  | Ok sp0 =>
      forallb (fun off => negb (accepts_at timestamp2epoch (layout boot blocks)
                                           (sp_id sp0) (sp_netid sp0) off))
              (data_steps 18 blocks)
  | Raise _ => false
  end.

(** The bytes a list of blocks takes when each is well formed. *)
Fixpoint span (blocks : list second_block) : Z :=
  match blocks with
  | [] => 0
  | b :: bs => 6 * Z.of_nat (length (sb_data b)) + 18 + span bs
  end.

(** The version tag and the words the bit-pattern test looks at. *)
Definition version_of (ws : list Z) : Z := Z.land (Z.shiftr (word ws 0) 7) 0x3f.
Definition checked_words (ws : list Z) : nat :=
  if version_of ws <? 10 then 6%nat else 9%nat.

(** The exceptions of the float arithmetic. *)
Definition arith_exn (e : exn) : Prop :=
  e = OverflowError \/ e = ZeroDivisionError \/ e = ValueError.

(** Zero, or finite with a mantissa below [2^D] and an exponent in
    [[L, U]]. *)
Definition fbound (D L U : Z) (f : spec_float) : Prop :=
  (exists s, f = S754_zero s) \/
  exists s m e, f = S754_finite s m e /\ Z.pos m < 2 ^ D /\ L <= e <= U.

(** Zero, or finite with sign [s] and magnitude at most [2^k]. *)
Definition fmag (s : bool) (k : Z) (f : spec_float) : Prop :=
  f = S754_zero s \/
  exists m e, f = S754_finite s m e /\ e <= k /\ Z.pos m <= 2 ^ (k - e).

Definition zero_or_finite (f : spec_float) : Prop :=
  (exists s, f = S754_zero s) \/ exists s m e, f = S754_finite s m e.

(** The ranges the bit fields of a status packet allow. *)
Definition status_in_range (sp : status) : Prop :=
  10 <= sp_version sp <= 13 /\
  2000 <= sp_year sp <= 2127 /\
  0 <= sp_month sp <= 15 /\ 0 <= sp_day sp <= 31 /\ 0 <= sp_hour sp <= 31 /\
  0 <= sp_minute sp <= 63 /\ 0 <= sp_second sp <= 63 /\
  0 <= sp_threshold sp <= 255 /\ 0 <= sp_fifoStatus sp <= 7 /\
  0 <= sp_triggerCount sp <= 16383 /\
  -32767 <= sp_phaseDiff sp <= 32767 /\
  0 <= sp_gpsInfo sp <= 65535 /\
  (exists c, sp_id sp = [c] /\ 64 <= c <= 319) /\
  (if sp_version sp <? 12 then sp_netid sp = []
   else exists c, sp_netid sp = [c] /\ 64 <= c <= 319).


(** *** Sample inputs *)

(** Modelled from the spec: [calendar_to_epoch(y,m,d,H,M,S) -> seconds], the
    collaborator that stands for [timestamp2epoch] of [common]; a pure,
    total function, here the proleptic Gregorian count from 1970. *)
Definition calendar_to_epoch : epoch_fn := fun y m d H M S =>
  let y' := if m <=? 2 then y - 1 else y in
  let era := y' / 400 in
  let yoe := y' - era * 400 in
  let doy := (153 * (m + (if m >? 2 then -3 else 9)) + 2) / 5 + d - 1 in
  let doe := yoe * 365 + yoe / 4 - yoe / 100 + doy in
  Ok ((era * 146097 + doe - 719468) * 86400 + H * 3600 + M * 60 + S).

Definition byte_of_Z (z : Z) : byte :=
  default x00 (Byte.of_N (Z.to_N (z mod 256))).

(** [struct.pack('<h', w)], also fed with the unsigned reading of a word. *)
Definition pack_h (w : Z) : list byte := [byte_of_Z w; byte_of_Z (w / 256)].
Definition pack_words (ws : list Z) : list byte := flat_map pack_h ws.

(** Version 12 status words of sensor 'A', network 'B', 2020-06-15 03:02,
    with the given second and trigger count. *)
Definition status_words (second triggerCount : Z) : list Z :=
  [0x8614; 0x8040; 0x8002 + second * 64; 0x86F6; 0x8000 + triggerCount;
   0x8102; 0x8005; 0x8000; 0x8000].

Definition status_bytes (second triggerCount : Z) : list byte :=
  pack_words (status_words second triggerCount).

(** The same packet from sensor 'C'. *)
Definition foreign_status_bytes : list byte :=
  pack_words [0x8614; 0x8040; 0x8042; 0x86F6; 0x8000; 0x8302; 0x8005;
              0x8000; 0x8000].

(** A version 8 status packet (six words), followed by one data packet to
    fill the 18 bytes that [find_status] reads. *)
Definition legacy_status_bytes : list byte :=
  pack_words [0x8414; 0x8040; 0x8042; 0x86F6; 0x8100; 0x8001;
              0x0123; 0x8001; 0x0040].

(** A data packet: tick 1000 of window 3, amplitude code 134, 5 samples
    above threshold. *)
Definition data_bytes : list byte := pack_words [0x2BE8; 0x8003; 0x0086].

(** A file whose second status packet comes from another sensor. *)
Definition mixed_file : list byte := status_bytes 1 0 ++ foreign_status_bytes.

(** A fixed-rate file: the bootstrap packet, four data packets, and the
    status packet that counts them.  Read three bytes into the first data
    packet, the 18 bytes look like a version 13 status packet of sensor 'A'
    in network 'B', dated 2020-06-08 03:02:00. *)
Definition lookalike_data : list (list byte) :=
  [ pack_words [0x0000; 0x9400; 0x0086];
    pack_words [0x0280; 0x8680; 0x0086];
    pack_words [0x0280; 0x8081; 0x0080];
    pack_words [0x0080; 0x8080; 0x0000] ].

Definition lookalike_file : list byte :=
  status_bytes 1 0 ++ concat lookalike_data ++ status_bytes 2 4.

(** Packets that break the bit pattern: a status packet whose word 3 has
    a clear sign bit, a data packet whose word 1 has. *)
Definition bad_status_bytes : list byte :=
  pack_words [0x8614; 0x8040; 0x8042; 0x06F6; 0x8000; 0x8102; 0x8005;
              0x8000; 0x8000].

Definition bad_data_bytes : list byte := pack_words [0x2BE8; 0x0003; 0x0086].

(** Frames: a status packet to build them from, three cells, and a heap
    with one array. *)
Definition sample_status : status :=
  decode_1213 12 (unpack_words (status_bytes 2 4)).

Definition cell_a : sample := Sample 100 (f_of (-70)) 3.
Definition cell_b : sample := Sample 40100 (f_of (-60)) 4.
Definition cell_z : sample := Sample 999950000 (f_of (-50)) 5.

Definition heap1 : heap := {[ 0%nat := [cell_a; cell_b] ]}.
Definition frame1 : frame := LMAFrame sample_status (Some 0%nat).

(** The same layout with quiet data packets. *)
Definition plain_file : list byte :=
  status_bytes 1 0 ++ concat [data_bytes; data_bytes] ++ status_bytes 2 2.

(** The two sample files as blocks. *)
Definition lookalike_blocks : list second_block :=
  [SecondBlock lookalike_data (status_bytes 2 4)].
Definition plain_blocks : list second_block :=
  [SecondBlock [data_bytes; data_bytes] (status_bytes 2 2)].

(** A version 13 file: bootstrap packet, one data packet, and the status
    packet that counts it. *)
Definition status_bytes_v13 (second triggerCount : Z) : list byte :=
  pack_words [0x8694; 0x8040; 0x8002 + second * 64; 0x86F6; 0x8000 + triggerCount;
              0x8102; 0x8005; 0x8000; 0x8000].
Definition odd_block : second_block :=
  SecondBlock [data_bytes] (status_bytes_v13 2 1).
Definition plain_block : second_block :=
  SecondBlock [data_bytes; data_bytes] (status_bytes 2 2).

End RawIO.

(** * Properties *)

(** ** Indexing *)

Lemma np_index_nonneg {A} (a : list A) (k : Z) :
  0 <= k ->
  np_index a k =
    match a !! Z.to_nat k with Some x => Ok x | None => Raise IndexError end.
Proof.
  intros Hk. unfold np_index.
  case_bool_decide as H1; [reflexivity|].
  case_bool_decide as H2; [lia|].
  rewrite (proj2 (lookup_ge_None a (Z.to_nat k))); [reflexivity|lia].
Qed.

Lemma np_index_Ok_lt {A} (a : list A) (k : Z) (x : A) :
  0 <= k -> np_index a k = Ok x ->
  k < Z.of_nat (length a) /\ a !! Z.to_nat k = Some x.
Proof.
  intros Hk. rewrite np_index_nonneg by exact Hk.
  destruct (a !! Z.to_nat k) as [y|] eqn:E; [|discriminate].
  intros [= ->]. split; [|reflexivity].
  apply lookup_lt_Some in E. lia.
Qed.

Lemma np_index_past_end {A} (a : list A) (k : Z) :
  Z.of_nat (length a) <= k -> np_index a k = Raise IndexError.
Proof.
  intros Hk. rewrite np_index_nonneg by lia.
  rewrite (proj2 (lookup_ge_None a (Z.to_nat k))); [reflexivity|lia].
Qed.

Lemma np_index_in_range {A} (a : list A) (k : Z) :
  0 <= k < Z.of_nat (length a) -> exists x, np_index a k = Ok x /\ a !! Z.to_nat k = Some x.
Proof.
  intros Hk. rewrite np_index_nonneg by lia.
  destruct (lookup_lt_is_Some_2 a (Z.to_nat k)) as [x Hx]; [lia|].
  rewrite Hx. eauto.
Qed.

(** ** The coincidence scan *)

Module PhasorFacts.
Import Phasor.

Section Scan.
Variable ph : phasor.
Local Abbreviation len := (Z.of_nat (length (sortedPeaks ph))).

(** The growth loop only answers [n] after reading index [i+n]. *)
Lemma grow_Ok_bound fuel i n m :
  0 <= i -> 1 <= n ->
  grow fuel ph i n = Some (Ok m) -> n <= m /\ i + m < len.
Proof.
  revert n. induction fuel as [|fuel IH]; intros n Hi Hn; simpl; [discriminate|].
  destruct (np_index (sortedPeaks ph) (i + n)) as [a|e] eqn:Ea; simpl; [|discriminate].
  destruct (np_index (sortedPeaks ph) i) as [b|e] eqn:Eb; simpl; [|discriminate].
  apply np_index_Ok_lt in Ea; [|lia].
  destruct (wrap32 (source_time a - source_time b) <? windowLength ph).
  - intros H. apply IH in H; lia.
  - intros [= <-]. lia.
Qed.

(** Fuel: one unit per index between [i+n] and the end, plus one. *)
Lemma grow_fuel_enough fuel i n :
  0 <= i -> 1 <= n -> Z.max 0 (len - (i + n)) < Z.of_nat fuel ->
  exists r, grow fuel ph i n = Some r.
Proof.
  revert n. induction fuel as [|fuel IH]; intros n Hi Hn Hf; simpl; [lia|].
  destruct (np_index (sortedPeaks ph) (i + n)) as [a|e] eqn:Ea; simpl; [|eauto].
  destruct (np_index (sortedPeaks ph) i) as [b|e] eqn:Eb; simpl; [|eauto].
  destruct (wrap32 (source_time a - source_time b) <? windowLength ph); [|eauto].
  apply np_index_Ok_lt in Ea; [|lia].
  apply IH; lia.
Qed.

(** When every entry from [i+n] to the end is within the window of entry
    [i], the growth loop reads index [len] and raises. *)
Lemma grow_runs_off_end fuel i n :
  0 <= i -> 1 <= n -> i + n <= len ->
  len - (i + n) < Z.of_nat fuel ->
  (forall k a b, i + n <= k < len ->
     sortedPeaks ph !! Z.to_nat k = Some a ->
     sortedPeaks ph !! Z.to_nat i = Some b ->
     wrap32 (source_time a - source_time b) < windowLength ph) ->
  grow fuel ph i n = Some (Raise IndexError).
Proof.
  revert n. induction fuel as [|fuel IH]; intros n Hi Hn Hle Hf Hall; [lia|]. simpl.
  destruct (decide (i + n = len)) as [Heq|Hne].
  - rewrite np_index_past_end by lia. reflexivity.
  - destruct (np_index_in_range (sortedPeaks ph) (i + n)) as (a & -> & Ha); [lia|].
    destruct (np_index_in_range (sortedPeaks ph) i) as (b & -> & Hb); [lia|].
    simpl. pose proof (Hall (i + n) a b ltac:(lia) Ha Hb) as Hlt.
    apply Z.ltb_lt in Hlt. rewrite Hlt.
    apply IH; try lia. intros k a' b' Hk. apply Hall; lia.
Qed.

(** The sensor loop over an in-range [arange] collects exactly the
    sensors of the window. *)
Lemma count_sensors_arange (k : nat) (i : Z) (acc : gset Z) :
  0 <= i -> i + Z.of_nat k <= len ->
  count_sensors ph (seqZ i (Z.of_nat k)) acc =
    Ok (list_to_set (sensor <$> take k (drop (Z.to_nat i) (sortedPeaks ph))) ∪ acc).
Proof.
  revert i acc. induction k as [|k IH]; intros i acc Hi Hle.
  - simpl. f_equal. symmetry. apply (left_id_L ∅ (∪)).
  - rewrite seqZ_cons by lia. simpl.
    destruct (np_index_in_range (sortedPeaks ph) i) as (p & -> & Hp); [lia|].
    simpl. replace (Z.pred (Z.of_nat (S k))) with (Z.of_nat k) by lia.
    rewrite IH by lia.
    rewrite (drop_S _ _ _ Hp). simpl.
    replace (Z.to_nat (Z.succ i)) with (S (Z.to_nat i)) by lia.
    f_equal. rewrite (assoc_L (∪)). f_equal. apply (comm_L (∪)).
Qed.

Lemma count_sensors_window (i n : Z) :
  0 <= i -> 0 <= n -> i + n <= len ->
  count_sensors ph (seqZ i n) ∅ =
    Ok (list_to_set (window_sensors ph i n)).
Proof.
  intros Hi Hn Hle. unfold window_sensors.
  rewrite <- (Z2Nat.id n) at 1 by lia.
  rewrite count_sensors_arange by lia.
  f_equal. apply (right_id_L ∅ (∪)).
Qed.

Lemma guess_start_arange (i n : Z) : 1 <= n -> guess_start (seqZ i n) = i.
Proof. intros Hn. rewrite seqZ_cons by lia. reflexivity. Qed.

Lemma guess_stop_arange (i n : Z) : 1 <= n -> guess_stop (seqZ i n) = i + n.
Proof.
  intros Hn. unfold guess_stop. rewrite guess_start_arange by lia.
  rewrite length_seqZ. lia.
Qed.

(** What one iteration does, with the three tests flattened. *)
Lemma scan_body_spec fuel (st : scan_state) (n : Z) :
  0 <= iGuess st ->
  grow fuel ph (iGuess st) 1 = Some (Ok n) ->
  scan_body fuel ph st =
    Some (Ok
      (if (n >? minSensors ph) && (iGuess st + n >? lastGuess st)
          && (distinct_sensors ph (iGuess st) n >? minSensors ph)
       then {| guesses := guesses st ++ [seqZ (iGuess st) n];
               lastGuess := iGuess st + n;
               iGuess := iGuess st + 1 |}
       else {| guesses := guesses st; lastGuess := lastGuess st;
               iGuess := iGuess st + 1 |})).
Proof.
  intros Hi Hg. unfold scan_body. rewrite Hg.
  apply grow_Ok_bound in Hg as [Hn Hlt]; [|lia..].
  destruct ((n >? minSensors ph) && (iGuess st + n >? lastGuess st)); simpl;
    [|reflexivity].
  rewrite count_sensors_window by lia. simpl.
  fold (distinct_sensors ph (iGuess st) n).
  destruct (distinct_sensors ph (iGuess st) n >? minSensors ph); reflexivity.
Qed.

Lemma scan_inv_init : scan_inv init_state.
Proof.
  split; [simpl; lia|]. split; simpl.
  - intros g Hg. inversion Hg.
  - intros j k g1 g2 _ H1. discriminate H1.
Qed.

Lemma scan_body_inv fuel st st' :
  scan_inv st -> scan_body fuel ph st = Some (Ok st') ->
  scan_inv st' /\ iGuess st' = iGuess st + 1 /\ iGuess st' < len.
Proof.
  intros (Hi & Hin & Hord) Hb.
  destruct (grow fuel ph (iGuess st) 1) as [[n|e]|] eqn:Hg;
    [|unfold scan_body in Hb; rewrite Hg in Hb; discriminate..].
  rewrite (scan_body_spec _ _ _ Hi Hg) in Hb.
  apply grow_Ok_bound in Hg as [Hn Hlt]; [|lia..].
  injection Hb as <-.
  destruct ((n >? minSensors ph) && (iGuess st + n >? lastGuess st)
            && (distinct_sensors ph (iGuess st) n >? minSensors ph)) eqn:Hacc;
    simpl.
  - apply andb_prop in Hacc as [Hacc _]. apply andb_prop in Hacc as [_ Hlast].
    apply Z.gtb_lt in Hlast.
    split; [|lia]. split; [simpl; lia|]. split; simpl.
    + intros g Hg. apply elem_of_app in Hg as [Hg|Hg].
      * apply Hin in Hg. lia.
      * apply list_elem_of_singleton in Hg as ->.
        rewrite guess_start_arange, guess_stop_arange by lia. lia.
    + intros j k g1 g2 Hjk H1 H2.
      destruct (decide (k < length (guesses st))%nat) as [Hk|Hk].
      * rewrite lookup_app_l in H1, H2 by lia. eauto.
      * assert (j < length (guesses st))%nat as Hj.
        { apply lookup_lt_Some in H1, H2. rewrite length_app in *. simpl in *. lia. }
        rewrite lookup_app_l in H1 by lia.
        rewrite lookup_app_r in H2 by lia.
        destruct (k - length (guesses st))%nat; simpl in H2; [|discriminate].
        injection H2 as <-.
        rewrite guess_start_arange, guess_stop_arange by lia.
        apply list_elem_of_lookup_2 in H1. apply Hin in H1. lia.
  - split; [|simpl; lia]. split; [simpl; lia|]. split; simpl; [|exact Hord].
    intros g Hg. apply Hin in Hg. lia.
Qed.

Lemma scan_loop_inv fuel st st' :
  scan_inv st -> scan_loop fuel ph st = Some (Ok st') -> scan_inv st'.
Proof.
  revert st. induction fuel as [|fuel IH]; intros st Hinv; simpl; [discriminate|].
  destruct (iGuess st <? len - minSensors ph); [|intros [= <-]; exact Hinv].
  destruct (scan_body (S (length (sortedPeaks ph))) ph st) as [[st1|e]|] eqn:Hb;
    try discriminate.
  apply scan_body_inv in Hb as (Hinv1 & _); [|exact Hinv].
  apply IH. exact Hinv1.
Qed.

Lemma scan_body_total st :
  0 <= iGuess st ->
  exists r, scan_body (S (length (sortedPeaks ph))) ph st = Some r.
Proof.
  intros Hi. unfold scan_body.
  destruct (grow_fuel_enough (S (length (sortedPeaks ph))) (iGuess st) 1)
    as [r ->]; [lia..|].
  destruct r; eauto.
Qed.

Lemma scan_loop_total fuel st :
  scan_inv st -> Z.max 0 (len - iGuess st) < Z.of_nat fuel ->
  exists r, scan_loop fuel ph st = Some r.
Proof.
  revert st. induction fuel as [|fuel IH]; intros st Hinv Hf; [lia|]. simpl.
  destruct (iGuess st <? len - minSensors ph); [|eauto].
  destruct (scan_body_total st) as [[st1|e] Hb]; [apply Hinv| |]; rewrite Hb; [|eauto].
  apply scan_body_inv in Hb as (Hinv1 & Hstep & Hlt); [|exact Hinv].
  apply IH; [exact Hinv1|lia].
Qed.

End Scan.

(** The scan always finishes: with a list of guesses or with an exception. *)
Lemma find_initial_guesses_total (ph : phasor) :
  exists r, find_initial_guesses ph = Some r.
Proof.
  unfold find_initial_guesses.
  destruct (scan_loop_total ph (S (S (length (sortedPeaks ph)))) init_state)
    as [r ->]; [apply scan_inv_init|simpl; lia|].
  destruct r; eauto.
Qed.

(** C1.  One iteration of the coincidence scan at start index [i], once
    the growth loop has stopped at [n]: the window [[i, i+n)] is appended
    to the guesses if and only if [n > minSensors], the window holds
    strictly more than [minSensors] different sensors, and [i+n] is past
    the end recorded for the previous guess.  An accepted window moves the
    recorded end to [i+n]; a rejected one changes nothing; either way the
    start index moves by one.  A window with exactly [minSensors] different
    sensors is rejected. *)
Theorem scan_accepts_iff (ph : phasor) (st : scan_state) (fuel : nat) (n : Z) :
  0 <= iGuess st ->
  grow fuel ph (iGuess st) 1 = Some (Ok n) ->
  exists st',
    scan_body fuel ph st = Some (Ok st') /\
    iGuess st' = iGuess st + 1 /\
    (guesses st' = guesses st ++ [seqZ (iGuess st) n] <-> accepts ph st n) /\
    (accepts ph st n -> lastGuess st' = iGuess st + n) /\
    (~ accepts ph st n ->
       guesses st' = guesses st /\ lastGuess st' = lastGuess st) /\
    (distinct_sensors ph (iGuess st) n = minSensors ph ->
       guesses st' = guesses st).
Proof.
  intros Hi Hg. rewrite (scan_body_spec ph fuel st n Hi Hg).
  eexists; split; [reflexivity|].
  assert (forall (l : list (list Z)) x, l <> l ++ [x]) as Hne.
  { intros l x E. apply (f_equal length) in E. rewrite length_app in E.
    simpl in E. lia. }
  unfold accepts.
  destruct ((n >? minSensors ph) && (iGuess st + n >? lastGuess st)
            && (distinct_sensors ph (iGuess st) n >? minSensors ph)) eqn:Hacc;
    simpl.
  - apply andb_prop in Hacc as [Hacc H3]. apply andb_prop in Hacc as [H1 H2].
    apply Z.gtb_lt in H1, H2, H3.
    split; [reflexivity|]. split; [split; [lia|reflexivity]|].
    split; [reflexivity|]. split; [lia|lia].
  - assert (~ (n > minSensors ph /\
               distinct_sensors ph (iGuess st) n > minSensors ph /\
               iGuess st + n > lastGuess st)) as Hno.
    { intros (H1 & H3 & H2).
      rewrite (proj2 (Z.gtb_lt _ _)), (proj2 (Z.gtb_lt _ _)),
        (proj2 (Z.gtb_lt _ _)) in Hacc by lia. discriminate. }
    split; [reflexivity|]. split; [split; [intros E; destruct (Hne _ _ E)|tauto]|].
    split; [tauto|]. split; [auto|auto].
Qed.

Lemma scan_accepts_iff_witness :
  exists st',
    scan_body 5 overlap_phasor init_state = Some (Ok st') /\
    iGuess st' = iGuess init_state + 1 /\
    (guesses st' = guesses init_state ++ [seqZ (iGuess init_state) 2]
       <-> accepts overlap_phasor init_state 2) /\
    (accepts overlap_phasor init_state 2 ->
       lastGuess st' = iGuess init_state + 2) /\
    (~ accepts overlap_phasor init_state 2 ->
       guesses st' = guesses init_state /\ lastGuess st' = lastGuess init_state) /\
    (distinct_sensors overlap_phasor (iGuess init_state) 2
       = minSensors overlap_phasor ->
       guesses st' = guesses init_state).
Proof.
  apply (scan_accepts_iff overlap_phasor init_state 5 2).
  - simpl. lia.
  - vm_compute. reflexivity.
Defined.

(** C2.  Six sensors report one event within 50 ns and [minSensors] is 5:
    every entry after index 0 is within the window, the growth loop reads
    [sortedPeaks[6]] of a six-row array, and the scan ends in [IndexError]
    instead of reporting the cluster. *)
Theorem scan_reads_past_end :
  grow 7 tail_phasor 0 1 = Some (Raise IndexError) /\
  find_initial_guesses tail_phasor = Some (Raise IndexError).
Proof. split; vm_compute; reflexivity. Qed.

(** C3 as stated fails: on [overlap_phasor] the scan accepts [[0,2)] and
    then [[1,3)], whose start 1 is below the end 2 recorded for the first. *)
Lemma watermark_overlap_counterexample :
  ~ (forall ph gs (j k : nat) g1 g2,
       find_initial_guesses ph = Some (Ok gs) ->
       (j < k)%nat -> gs !! j = Some g1 -> gs !! k = Some g2 ->
       guess_stop g1 <= guess_start g2).
Proof.
  intros H.
  specialize (H overlap_phasor [[0; 1]; [1; 2]] 0%nat 1%nat [0; 1] [1; 2]).
  assert (find_initial_guesses overlap_phasor = Some (Ok [[0; 1]; [1; 2]])) as E
    by (vm_compute; reflexivity).
  specialize (H E ltac:(lia) eq_refl eq_refl).
  vm_compute in H. apply H. reflexivity.
Qed.

(** C3, amended.  In the ordered list of accepted guesses, a later guess
    starts at a strictly larger index than an earlier one and its recorded
    end is strictly larger than the earlier one's recorded end. *)
Theorem accepted_guesses_advance (ph : phasor) (gs : list (list Z))
    (j k : nat) (g1 g2 : list Z) :
  find_initial_guesses ph = Some (Ok gs) ->
  (j < k)%nat -> gs !! j = Some g1 -> gs !! k = Some g2 ->
  guess_start g1 < guess_start g2 /\ guess_stop g1 < guess_stop g2.
Proof.
  unfold find_initial_guesses.
  destruct (scan_loop _ ph init_state) as [[st|e]|] eqn:Hl; try discriminate.
  intros [= <-]. apply scan_loop_inv in Hl; [|apply scan_inv_init].
  destruct Hl as (_ & _ & Hord). apply Hord.
Qed.

Lemma accepted_guesses_advance_witness :
  guess_start [0; 1] < guess_start [1; 2] /\
  guess_stop [0; 1] < guess_stop [1; 2].
Proof.
  apply (accepted_guesses_advance overlap_phasor [[0; 1]; [1; 2]] 0 1).
  - vm_compute. reflexivity.
  - lia.
  - reflexivity.
  - reflexivity.
Defined.

Section ScanOutcome.
Variable ph : phasor.
Local Abbreviation len := (Z.of_nat (length (sortedPeaks ph))).

Lemma np_index_time (k : Z) (a : peak) :
  0 <= k -> np_index (sortedPeaks ph) k = Ok a -> source_time a = time_at ph k.
Proof.
  intros Hk H. apply np_index_Ok_lt in H as [_ H]; [|exact Hk].
  unfold time_at. rewrite H. reflexivity.
Qed.

(** The growth loop stops at the first entry outside the window. *)
Lemma grow_Ok_spec fuel i n m :
  0 <= i -> 1 <= n -> grow fuel ph i n = Some (Ok m) ->
  n <= m /\ i + m < len /\
  (forall k, i + n <= k < i + m -> close ph i k) /\ ~ close ph i (i + m).
Proof.
  revert n. induction fuel as [|fuel IH]; intros n Hi Hn; simpl; [discriminate|].
  destruct (np_index (sortedPeaks ph) (i + n)) as [a|e] eqn:Ea; simpl; [|discriminate].
  destruct (np_index (sortedPeaks ph) i) as [b|e] eqn:Eb; simpl; [|discriminate].
  pose proof (np_index_Ok_lt (sortedPeaks ph) (i + n) a ltac:(lia) Ea) as [Hlt _].
  rewrite (np_index_time (i + n) a ltac:(lia) Ea), (np_index_time i b Hi Eb).
  destruct (Z.ltb_spec (wrap32 (time_at ph (i + n) - time_at ph i)) (windowLength ph))
    as [Hc|Hc].
  - intros H. apply IH in H as (H1 & H2 & H3 & H4); [|lia..].
    split; [lia|]. split; [lia|]. split; [|exact H4].
    intros k Hk. destruct (decide (k = i + n)) as [->|]; [exact Hc|]. apply H3. lia.
  - intros [= <-]. split; [lia|]. split; [lia|]. split; [intros k Hk; lia|].
    unfold close. lia.
Qed.

(** It raises when there is none, and raises nothing but [IndexError]. *)
Lemma grow_Raise_spec fuel i n e :
  0 <= i -> 1 <= n -> grow fuel ph i n = Some (Raise e) ->
  e = IndexError /\ forall k, i + n <= k < len -> close ph i k.
Proof.
  revert n. induction fuel as [|fuel IH]; intros n Hi Hn; simpl; [discriminate|].
  destruct (Z.ltb_spec (i + n) len) as [Hlt|Hge].
  - destruct (np_index_in_range (sortedPeaks ph) (i + n)) as (a & Ea & _); [lia|].
    destruct (np_index_in_range (sortedPeaks ph) i) as (b & Eb & _); [lia|].
    rewrite Ea, Eb. simpl.
    rewrite (np_index_time (i + n) a ltac:(lia) Ea), (np_index_time i b Hi Eb).
    destruct (Z.ltb_spec (wrap32 (time_at ph (i + n) - time_at ph i)) (windowLength ph))
      as [Hc|Hc]; [|discriminate].
    intros H. apply IH in H as [-> H]; [|lia..]. split; [reflexivity|].
    intros k Hk. destruct (decide (k = i + n)) as [->|]; [exact Hc|]. apply H. lia.
  - rewrite np_index_past_end by lia. simpl. intros [= <-].
    split; [reflexivity|]. intros k Hk. lia.
Qed.

Lemma scan_body_Raise fuel st e :
  0 <= iGuess st -> scan_body fuel ph st = Some (Raise e) ->
  e = IndexError /\ all_close ph (iGuess st).
Proof.
  intros Hi Hb.
  destruct (grow fuel ph (iGuess st) 1) as [[n|e']|] eqn:Hg.
  - rewrite (scan_body_spec ph fuel st n Hi Hg) in Hb. discriminate.
  - unfold scan_body in Hb. rewrite Hg in Hb. injection Hb as ->.
    apply grow_Raise_spec in Hg as [-> H]; [|lia..]. split; [reflexivity|].
    intros k Hk. apply H. lia.
  - unfold scan_body in Hb. rewrite Hg in Hb. discriminate.
Qed.

Lemma scan_body_Ok fuel st st' :
  0 <= iGuess st -> scan_body fuel ph st = Some (Ok st') ->
  ~ all_close ph (iGuess st) /\
  (Forall (maximal_window ph) (guesses st) ->
   Forall (maximal_window ph) (guesses st')).
Proof.
  intros Hi Hb.
  destruct (grow fuel ph (iGuess st) 1) as [[n|e']|] eqn:Hg;
    [|unfold scan_body in Hb; rewrite Hg in Hb; discriminate..].
  rewrite (scan_body_spec ph fuel st n Hi Hg) in Hb. injection Hb as <-.
  apply grow_Ok_spec in Hg as (Hn & Hlt & Hin & Hout); [|lia..].
  split; [intros Hall; apply Hout, Hall; lia|].
  intros Hall.
  destruct ((n >? minSensors ph) && (iGuess st + n >? lastGuess st)
            && (distinct_sensors ph (iGuess st) n >? minSensors ph)) eqn:Hacc;
    simpl; [|exact Hall].
  apply andb_prop in Hacc as [Hacc H3]. apply andb_prop in Hacc as [H1 H2].
  apply Z.gtb_lt in H1, H3.
  apply Forall_app. split; [exact Hall|]. apply Forall_singleton.
  exists (iGuess st), n. repeat split; try lia; try assumption.
  intros k Hk. apply Hin. lia.
Qed.

Lemma scan_loop_outcome fuel st :
  scan_inv st -> Z.max 0 (len - iGuess st) < Z.of_nat fuel ->
  Forall (maximal_window ph) (guesses st) ->
  (exists st', scan_loop fuel ph st = Some (Ok st') /\
               Forall (maximal_window ph) (guesses st') /\
               ~ exists i, iGuess st <= i < len - minSensors ph /\ all_close ph i) \/
  (scan_loop fuel ph st = Some (Raise IndexError) /\
   exists i, iGuess st <= i < len - minSensors ph /\ all_close ph i).
Proof.
  revert st. induction fuel as [|fuel IH]; intros st Hinv Hf Hmax; [lia|]. simpl.
  destruct (Z.ltb_spec (iGuess st) (len - minSensors ph)) as [Hlt|Hge].
  - destruct (scan_body_total ph st) as [[st1|e] Hb]; [apply Hinv| |]; rewrite Hb.
    + pose proof (scan_body_inv ph _ _ _ Hinv Hb) as (Hinv1 & Hstep & Hlt1).
      pose proof (scan_body_Ok _ _ _ (proj1 Hinv) Hb) as [Hnot Hmax1].
      destruct (IH st1 Hinv1 ltac:(lia) (Hmax1 Hmax))
        as [(st' & Hl & Hm & Hno)|(Hl & i & Hi & Hall)].
      * left. exists st'. split; [exact Hl|]. split; [exact Hm|].
        intros (i & Hi & Hall). destruct (decide (i = iGuess st)) as [->|Hne].
        -- exact (Hnot Hall).
        -- apply Hno. exists i. split; [lia|exact Hall].
      * right. split; [exact Hl|]. exists i. split; [lia|exact Hall].
    + apply scan_body_Raise in Hb as [-> Hall]; [|apply Hinv].
      right. split; [reflexivity|]. exists (iGuess st). split; [|exact Hall].
      destruct Hinv as [H0 _]. lia.
  - left. exists st. split; [reflexivity|]. split; [exact Hmax|].
    intros (i & Hi & _). lia.
Qed.

End ScanOutcome.

(** X6.  The scan ends in [IndexError] exactly when some start index it reaches
    has every later entry inside its window; otherwise it returns its
    guesses. *)
Theorem find_initial_guesses_outcome (ph : phasor) :
  (runs_off_end ph /\ find_initial_guesses ph = Some (Raise IndexError)) \/
  (~ runs_off_end ph /\ exists gs, find_initial_guesses ph = Some (Ok gs)).
Proof.
  unfold find_initial_guesses, runs_off_end.
  destruct (scan_loop_outcome ph (S (S (length (sortedPeaks ph)))) init_state)
    as [(st' & -> & _ & Hno)|(-> & i & Hi & Hall)].
  - apply scan_inv_init.
  - simpl. lia.
  - constructor.
  - right. split; [|eauto]. intros (i & Hi & Hall). apply Hno. exists i.
    split; [simpl; lia|exact Hall].
  - left. split; [|reflexivity]. exists i. split; [simpl in Hi; lia|exact Hall].
Qed.

Lemma guess_maximal (ph : phasor) (gs : list (list Z)) (g : list Z) :
  find_initial_guesses ph = Some (Ok gs) -> g ∈ gs -> maximal_window ph g.
Proof.
  unfold find_initial_guesses.
  destruct (scan_loop_outcome ph (S (S (length (sortedPeaks ph)))) init_state)
    as [(st' & -> & Hall & _)|(-> & _)].
  - apply scan_inv_init.
  - simpl. lia.
  - constructor.
  - intros [= <-] Hg. rewrite Forall_forall in Hall. apply Hall, Hg.
  - discriminate.
Qed.

(** X7.  Every guess the scan reports is a window of more than [minSensors]
    entries from more than [minSensors] sensors, all within the window
    length of the first, and the entry just after it exists and is not. *)
Theorem guesses_are_maximal_windows (ph : phasor) (gs : list (list Z)) (g : list Z) :
  find_initial_guesses ph = Some (Ok gs) -> g ∈ gs -> maximal_window ph g.
Proof. apply guess_maximal. Qed.

(** X8.  With no more than [minSensors] different sensors in the whole table
    the scan reports nothing. *)
Theorem too_few_sensors_no_guess (ph : phasor) (gs : list (list Z)) :
  Z.of_nat (size (list_to_set (sensor <$> sortedPeaks ph) : gset Z))
    <= minSensors ph ->
  find_initial_guesses ph = Some (Ok gs) -> gs = [].
Proof.
  intros Hfew Hfind. destruct gs as [|g gs]; [reflexivity|]. exfalso.
  destruct (guess_maximal ph (g :: gs) g Hfind)
    as (s & n & _ & _ & _ & _ & Hd & _); [left|].
  unfold distinct_sensors, window_sensors in Hd.
  assert (size (list_to_set (sensor <$> take (Z.to_nat n)
                               (drop (Z.to_nat s) (sortedPeaks ph))) : gset Z)
          <= size (list_to_set (sensor <$> sortedPeaks ph) : gset Z))%nat.
  { apply subseteq_size. intros x Hx.
    apply elem_of_list_to_set in Hx. apply elem_of_list_to_set.
    apply list_elem_of_fmap in Hx as (p & -> & Hp).
    apply list_elem_of_fmap. exists p. split; [reflexivity|].
    apply elem_of_take in Hp as (j & Hj & _).
    rewrite lookup_drop in Hj. eapply list_elem_of_lookup_2, Hj. }
  lia.
Qed.

Lemma guesses_are_maximal_windows_witness : maximal_window overlap_phasor [1; 2].
Proof.
  apply (guesses_are_maximal_windows overlap_phasor [[0; 1]; [1; 2]]).
  - vm_compute. reflexivity.
  - right. left.
Defined.

Lemma too_few_sensors_no_guess_witness :
  find_initial_guesses
    {| sortedPeaks := sortedPeaks overlap_phasor; windowLength := 80000;
       minSensors := 2 |} = Some (Ok []) /\
  ([] : list (list Z)) = [].
Proof.
  split; [vm_compute; reflexivity|].
  apply (too_few_sensors_no_guess
           {| sortedPeaks := sortedPeaks overlap_phasor; windowLength := 80000;
              minSensors := 2 |} []).
  - vm_compute. discriminate.
  - vm_compute. reflexivity.
Defined.

End PhasorFacts.

(** ** The packet codec *)

Module RawIOFacts.
Import RawIO.

Lemma rbind_Raise {A B} (r : result A) (k : A -> result B) (e : exn) :
  rbind r k = Raise e ->
  r = Raise e \/ exists a, r = Ok a /\ k a = Raise e.
Proof. destruct r as [a|e']; simpl; [eauto|]. intros [= ->]. auto. Qed.

Lemma unpack_words_length (n : nat) (bs : list byte) :
  length bs = (2 * n)%nat -> length (unpack_words bs) = n.
Proof.
  revert bs. induction n as [|n IH]; intros bs Hl.
  - destruct bs; [reflexivity|discriminate].
  - destruct bs as [|lo [|hi bs]]; simpl in Hl; try lia.
    simpl. f_equal. apply IH. lia.
Qed.

Lemma struct_unpack_h_Ok (n : nat) (bs : list byte) (ws : list Z) :
  struct_unpack_h n bs = Ok ws <->
  length bs = (2 * n)%nat /\ ws = unpack_words bs.
Proof.
  unfold struct_unpack_h.
  destruct (Nat.eqb_spec (length bs) (2 * n)) as [E|E].
  - split; [intros [= <-]; auto|intros [_ ->]; reflexivity].
  - split; [discriminate|intros [E' _]; contradiction].
Qed.

Lemma forallb_lookup_false {A} (f : A -> bool) (l : list A) (k : nat) (x : A) :
  l !! k = Some x -> f x = false -> forallb f l = false.
Proof.
  revert k. induction l as [|y l IH]; intros [|k] Hk Hx; simpl in *; try discriminate.
  - injection Hk as ->. rewrite Hx. reflexivity.
  - rewrite (IH k Hk Hx). apply andb_false_r.
Qed.

Lemma forallb_lookup_true {A} (f : A -> bool) (l : list A) :
  (forall k x, l !! k = Some x -> f x = true) -> forallb f l = true.
Proof.
  induction l as [|y l IH]; intros H; simpl; [reflexivity|].
  rewrite (H 0%nat y eq_refl). apply IH. intros k x Hk. apply (H (S k) x Hk).
Qed.

Lemma word_lookup (ws : list Z) (k : nat) :
  (k < length ws)%nat -> ws !! k = Some (word ws k).
Proof.
  intros Hk. unfold word.
  destruct (lookup_lt_is_Some_2 ws k Hk) as [x ->]. reflexivity.
Qed.

Section Decoder.
Variable timestamp2epoch : epoch_fn.

Lemma StatusPacket_malformed (bs : list byte) (ws : list Z) (k : nat) :
  struct_unpack_h 9 bs = Ok ws ->
  (k < checked_words ws)%nat -> 0 <= word ws k ->
  StatusPacket timestamp2epoch bs = Raise MalformedRecord.
Proof.
  intros Hu Hk Hw. unfold StatusPacket. rewrite Hu. simpl.
  apply struct_unpack_h_Ok in Hu as [Hl ->].
  pose proof (unpack_words_length 9 bs Hl) as Hlen.
  set (ws := unpack_words bs) in *.
  unfold checked_words, version_of in Hk.
  assert ((if Z.land (Z.shiftr (word ws 0) 7) 63 <? 10 then take 6 ws else ws)
            !! k = Some (word ws k)) as Hlk.
  { destruct (Z.land (Z.shiftr (word ws 0) 7) 63 <? 10).
    - rewrite lookup_take_lt by lia. apply word_lookup. lia.
    - apply word_lookup. lia. }
  rewrite (forallb_lookup_false _ _ _ _ Hlk); [reflexivity|].
  apply Z.ltb_ge. exact Hw.
Qed.

(** A packet of the 6-word family with the right bit pattern: the
    dispatch knows no method for it. *)
Lemma StatusPacket_legacy (bs : list byte) (ws : list Z) :
  struct_unpack_h 9 bs = Ok ws ->
  version_of ws < 10 ->
  (forall k, (k < 6)%nat -> word ws k < 0) ->
  StatusPacket timestamp2epoch bs = Raise UnsupportedVersion.
Proof.
  intros Hu Hv Hneg. unfold StatusPacket. rewrite Hu. simpl.
  apply struct_unpack_h_Ok in Hu as [Hl ->].
  pose proof (unpack_words_length 9 bs Hl) as Hlen.
  set (ws := unpack_words bs) in *. unfold version_of in Hv.
  rewrite (proj2 (Z.ltb_lt _ _) Hv).
  rewrite forallb_lookup_true; simpl.
  - unfold decode.
    rewrite (proj2 (Z.eqb_neq _ 10)), (proj2 (Z.eqb_neq _ 11)),
      (proj2 (Z.eqb_neq _ 12)), (proj2 (Z.eqb_neq _ 13)) by lia.
    reflexivity.
  - intros k x Hk. pose proof (lookup_lt_Some _ _ _ Hk) as Hlt.
    rewrite length_take in Hlt.
    rewrite lookup_take_lt in Hk by lia.
    rewrite word_lookup in Hk by lia. injection Hk as <-.
    apply Z.ltb_lt. apply Hneg. lia.
Qed.

End Decoder.

Lemma float_of_int_Raise z e : float_of_int z = Raise e -> arith_exn e.
Proof.
  unfold float_of_int, arith_exn.
  destruct (f_of z); intros [= <-]; auto.
Qed.

Lemma int_of_float_Raise f e : int_of_float f = Raise e -> arith_exn e.
Proof. unfold arith_exn. destruct f; intros [= <-]; auto. Qed.

Lemma float_div_int_Raise x z e : float_div_int x z = Raise e -> arith_exn e.
Proof.
  unfold float_div_int. intros H.
  apply rbind_Raise in H as [H|(d & _ & H)].
  - eapply float_of_int_Raise, H.
  - destruct (z =? 0); [|discriminate]. injection H as <-. unfold arith_exn. auto.
Qed.

Lemma nano_of_Raise w wl t p e : nano_of w wl t p = Raise e -> arith_exn e.
Proof.
  unfold nano_of. intros H.
  apply rbind_Raise in H as [H|(ft & _ & H)]; [eapply float_of_int_Raise, H|].
  apply rbind_Raise in H as [H|(n & _ & H)]; [eapply int_of_float_Raise, H|].
  discriminate.
Qed.

Lemma power_of_Raise m e : power_of m = Raise e -> arith_exn e.
Proof.
  unfold power_of. intros H.
  apply rbind_Raise in H as [H|(ft & _ & H)]; [eapply float_of_int_Raise, H|].
  discriminate.
Qed.

Lemma decode_12_Raise w pd e : decode_12 w pd = Raise e -> arith_exn e.
Proof.
  unfold decode_12. intros H.
  apply rbind_Raise in H as [H|(sp & _ & H)]; [eapply float_div_int_Raise, H|].
  apply rbind_Raise in H as [H|(n & _ & H)]; [eapply nano_of_Raise, H|].
  apply rbind_Raise in H as [H|(pw & _ & H)]; [eapply power_of_Raise, H|].
  discriminate.
Qed.

Lemma data_decode_Raise v w pd e : data_decode v w pd = Raise e -> arith_exn e.
Proof.
  unfold data_decode. destruct ((v =? 12) || (v =? 10)); [|discriminate].
  intros H. apply rbind_Raise in H as [H|(f & _ & H)]; [|discriminate].
  eapply decode_12_Raise, H.
Qed.

Lemma data_pattern_ok_spec (w0 w1 w2 : Z) :
  data_pattern_ok [w0; w1; w2] = true <-> 0 <= w0 /\ w1 < 0 /\ 0 <= w2.
Proof.
  unfold data_pattern_ok. rewrite bool_decide_eq_true. simpl.
  destruct (Z.ltb_spec w0 0), (Z.ltb_spec w1 0), (Z.ltb_spec w2 0);
    split; try (intros [= ]); try lia; try reflexivity; intros; exfalso; lia.
Qed.

(** C6.  A status packet with a non-negative word among those checked
    (the first six when the version tag is below 10, all nine otherwise)
    fails with the malformed-packet exception; a data packet fails with it
    exactly when its sign pattern is not (non-negative, negative,
    non-negative). *)
Theorem malformed_records (timestamp2epoch : epoch_fn) :
  (forall bs ws k,
     struct_unpack_h 9 bs = Ok ws ->
     (k < checked_words ws)%nat -> 0 <= word ws k ->
     StatusPacket timestamp2epoch bs = Raise MalformedRecord) /\
  (forall bs ws version phaseDiff,
     struct_unpack_h 3 bs = Ok ws ->
     (DataPacket bs version phaseDiff = Raise MalformedRecord <->
      ~ (0 <= word ws 0 /\ word ws 1 < 0 /\ 0 <= word ws 2))).
Proof.
  split.
  - intros bs ws k. apply StatusPacket_malformed.
  - intros bs ws v pd Hu. unfold DataPacket. rewrite Hu. simpl.
    apply struct_unpack_h_Ok in Hu as [Hl ->].
    pose proof (unpack_words_length 3 bs Hl) as Hlen.
    destruct (unpack_words bs) as [|w0 [|w1 [|w2 [|? ?]]]]; try discriminate.
    unfold word. simpl.
    pose proof (data_pattern_ok_spec w0 w1 w2) as Hp.
    destruct (data_pattern_ok [w0; w1; w2]); simpl.
    + split; [|intros H; exfalso; apply H, Hp; reflexivity].
      intros H. apply rbind_Raise in H as [H|(f & _ & H)]; [|discriminate].
      apply data_decode_Raise in H as [H|[H|H]]; discriminate.
    + split; [|reflexivity]. intros _ H. apply Hp in H. discriminate.
Qed.

Lemma malformed_records_witness :
  StatusPacket calendar_to_epoch bad_status_bytes = Raise MalformedRecord /\
  (DataPacket bad_data_bytes 12 5 = Raise MalformedRecord <->
   ~ (0 <= word (unpack_words bad_data_bytes) 0 /\
      word (unpack_words bad_data_bytes) 1 < 0 /\
      0 <= word (unpack_words bad_data_bytes) 2)).
Proof.
  destruct (malformed_records calendar_to_epoch) as [Hs Hd]. split.
  - apply (Hs bad_status_bytes (unpack_words bad_status_bytes) 3%nat).
    + reflexivity.
    + vm_compute. lia.
    + vm_compute. discriminate.
  - apply Hd. reflexivity.
Defined.

(** C7.  A status packet of the 6-word family (version tag 8, every word
    negative) is not decoded with [decode_89]: read as the 18 bytes that
    [find_status] asks for it ends in the unknown-version exception, and
    alone, as its own 12 bytes, it does not pass [struct.unpack]. *)
Theorem legacy_status_unsupported (timestamp2epoch : epoch_fn) :
  version_of (unpack_words legacy_status_bytes) = 8 /\
  StatusPacket timestamp2epoch legacy_status_bytes = Raise UnsupportedVersion /\
  StatusPacket timestamp2epoch (take 12 legacy_status_bytes) = Raise StructError /\
  find_status timestamp2epoch false legacy_status_bytes
    = Some (Raise UnsupportedVersion).
Proof.
  assert (StatusPacket timestamp2epoch legacy_status_bytes
          = Raise UnsupportedVersion) as H.
  { apply (StatusPacket_legacy _ _ (unpack_words legacy_status_bytes)).
    - reflexivity.
    - vm_compute. reflexivity.
    - intros k Hk. do 6 (destruct k as [|k]; [vm_compute; reflexivity|]). lia. }
  split; [reflexivity|]. split; [exact H|]. split; [reflexivity|].
  unfold find_status.
  change (read_at legacy_status_bytes 0 18) with legacy_status_bytes.
  rewrite H. reflexivity.
Qed.

(** [_search_forwards] cannot end in an exception: whatever the [try:]
    raises, the scan moves three bytes on. *)
Lemma forward_loop_no_exception timestamp2epoch file id netid statusSize
    fuel loc st e :
  forward_loop timestamp2epoch file id netid statusSize fuel loc st
    <> Some (Raise e).
Proof.
  revert loc st. induction fuel as [|fuel IH]; intros loc st; simpl; [discriminate|].
  destruct (loc <? fileSize file); [|discriminate].
  destruct (forward_try _ _ _ _ _ _ _) as [[loc' st']|e']; apply IH.
Qed.

(** C5.  In [mixed_file] the status packet at offset 18 is from sensor 'C'
    while the file is sensor 'A'.  The backward search raises; the forward
    search raises the same exception inside its [try:], the bare [except:]
    catches it, and the search returns with the placeholder boundary only. *)
Theorem forward_swallows_id_mismatch :
  forward_try calendar_to_epoch mixed_file [65] [66] 18 18
      (Scanner [0] [None] 0 almanac0) = Raise InconsistentStream /\
  boundaries calendar_to_epoch true mixed_file = Some (Ok [0]) /\
  boundaries calendar_to_epoch false mixed_file = Some (Raise InconsistentStream).
Proof. repeat split; vm_compute; reflexivity. Qed.

(** *** Floats *)

Lemma shr_1_bounds (mrs : shr_record) :
  0 <= shr_m mrs -> 0 <= shr_m (shr_1 mrs) <= shr_m mrs.
Proof.
  destruct mrs as [m r s]. destruct m as [|[p|p|]|[p|p|]]; simpl; lia.
Qed.

Lemma iter_pos_invariant {A} (P : A -> Prop) (f : A -> A) :
  (forall x, P x -> P (f x)) -> forall p x, P x -> P (SpecFloat.iter_pos f p x).
Proof.
  intros Hf. induction p as [p IH|p IH|]; intros x Hx; simpl; auto.
Qed.

Lemma digits2_pos_le (p : positive) (D : Z) :
  Z.pos p < 2 ^ D -> 0 <= D -> Z.pos (digits2_pos p) <= D.
Proof.
  revert D. induction p as [p IH|p IH|]; intros D Hp HD; simpl.
  - assert (D <> 0) by (intros ->; simpl in Hp; lia).
    replace D with (Z.succ (D - 1)) in Hp by lia.
    rewrite Z.pow_succ_r in Hp by lia.
    specialize (IH (D - 1) ltac:(lia) ltac:(lia)). lia.
  - assert (D <> 0) by (intros ->; simpl in Hp; lia).
    replace D with (Z.succ (D - 1)) in Hp by lia.
    rewrite Z.pow_succ_r in Hp by lia.
    specialize (IH (D - 1) ltac:(lia) ltac:(lia)). lia.
  - assert (D <> 0) by (intros ->; simpl in Hp; lia). lia.
Qed.

Lemma Zdigits2_le (m D : Z) : 0 <= m < 2 ^ D -> 0 <= D -> Zdigits2 m <= D.
Proof.
  intros Hm HD. destruct m as [|p|p]; simpl; [lia| |lia].
  apply digits2_pos_le; lia.
Qed.

Lemma round_nearest_even_bounds (m : Z) (l : location) :
  m <= round_nearest_even m l <= m + 1.
Proof.
  unfold round_nearest_even. destruct l as [|[]]; try lia.
  destruct (Z.even m); lia.
Qed.

Lemma int_of_float_Ok (f : spec_float) :
  zero_or_finite f -> exists t, int_of_float f = Ok t.
Proof. intros [[s ->]|(s & m & e & ->)]; simpl; eauto. Qed.

Lemma land_ones_bound (w : Z) (n : Z) : 0 <= n -> 0 <= Z.land w (Z.ones n) < 2 ^ n.
Proof. intros Hn. rewrite Z.land_ones by lia. apply Z.mod_pos_bound. lia. Qed.

Lemma shr_grows (mrs : shr_record) (e n M : Z) :
  0 <= shr_m mrs <= M ->
  0 <= shr_m (fst (shr mrs e n)) <= M /\
  (snd (shr mrs e n) = e \/ (e < snd (shr mrs e n) /\ snd (shr mrs e n) = e + n)).
Proof.
  intros Hm. destruct n as [|p|p]; simpl; auto. split; [|right; lia].
  apply (iter_pos_invariant (fun x => 0 <= shr_m x <= M)); [|exact Hm].
  intros x Hx. pose proof (shr_1_bounds x). lia.
Qed.

Lemma shr_fexp_grows (m e : Z) (l : location) :
  0 <= m ->
  0 <= shr_m (fst (shr_fexp prec emax m e l)) <= m /\
  e <= snd (shr_fexp prec emax m e l) /\
  snd (shr_fexp prec emax m e l) <= Z.max e (fexp prec emax (Zdigits2 m + e)).
Proof.
  intros Hm. unfold shr_fexp.
  destruct (shr_grows (shr_record_of_loc m l) e
              (fexp prec emax (Zdigits2 m + e) - e) m) as [H1 H2].
  { destruct l as [|[]]; simpl; lia. }
  split; [exact H1|]. destruct H2 as [H2|[H2 H3]]; [rewrite H2; lia|rewrite H3 in *; lia].
Qed.

Lemma binary_round_aux_bound (sx : bool) (mx ex : Z) (lx : location) (D L U : Z) :
  0 <= mx < 2 ^ D -> 0 <= D -> L <= ex <= U -> -1074 <= U ->
  Z.max (Z.max U (D + U - 53)) (D + 1 + Z.max U (D + U - 53) - 53) <= 971 ->
  fbound (D + 1) L
         (Z.max (Z.max U (D + U - 53)) (D + 1 + Z.max U (D + U - 53) - 53))
         (binary_round_aux prec emax sx mx ex lx).
Proof.
  intros Hm HD He HU Hfin. unfold binary_round_aux.
  pose proof (shr_fexp_grows mx ex lx ltac:(lia)) as (Hm1 & He1 & He1').
  destruct (shr_fexp prec emax mx ex lx) as [mrs1 e1]. simpl in Hm1, He1, He1'.
  pose proof (round_nearest_even_bounds (shr_m mrs1) (loc_of_shr_record mrs1)) as Hr.
  set (m1 := round_nearest_even (shr_m mrs1) (loc_of_shr_record mrs1)) in *.
  pose proof (shr_fexp_grows m1 e1 loc_Exact ltac:(lia)) as (Hm2 & He2 & He2').
  destruct (shr_fexp prec emax m1 e1 loc_Exact) as [mrs2 e2]. simpl in Hm2, He2, He2'.
  pose proof (Zdigits2_le mx D ltac:(lia) ltac:(lia)) as Hd.
  assert (0 <= Zdigits2 mx) as Hd0 by (destruct mx; simpl; lia).
  assert (2 ^ (D + 1) = 2 * 2 ^ D) as Hpow.
  { rewrite Z.pow_add_r by lia. lia. }
  pose proof (Zdigits2_le m1 (D + 1) ltac:(lia) ltac:(lia)) as Hd1.
  assert (0 <= Zdigits2 m1) as Hd10 by (destruct m1; simpl; lia).
  unfold fexp, emin, prec, emax in *.
  destruct (shr_m mrs2) as [|p|p] eqn:E; [left; eauto| |lia].
  right. rewrite (proj2 (Z.leb_le e2 (1024 - 53))) by lia.
  eexists _, _, _. split; [reflexivity|]. split; lia.
Qed.

Lemma digits2_pos_gt (p : positive) : Z.pos p < 2 ^ Z.pos (digits2_pos p).
Proof.
  induction p as [p IH|p IH|]; simpl; [| |reflexivity];
    rewrite Pos2Z.inj_succ, Z.pow_succ_r by lia; lia.
Qed.

Lemma iter_xO_value (p k : positive) :
  Z.pos (Pos.iter xO p k) = Z.pos p * 2 ^ Z.pos k.
Proof.
  induction k as [|k IH] using Pos.peano_ind.
  - simpl. lia.
  - rewrite Pos.iter_succ, Pos2Z.inj_succ, Z.pow_succ_r by lia.
    rewrite Pos2Z.inj_xO, IH. lia.
Qed.

(** The float of a non-negative integer below 2^52. *)
Lemma f_of_bound (z : Z) :
  0 <= z < 2 ^ 52 -> fbound 54 (-52) 0 (f_of z).
Proof.
  intros Hz. unfold f_of, binary_normalize.
  destruct z as [|p|p]; [left; eauto| |lia].
  unfold binary_round, shl_align.
  pose proof (digits2_pos_gt p) as Hgt.
  pose proof (digits2_pos_le p 52 ltac:(lia) ltac:(lia)) as Hle.
  set (d := Z.pos (digits2_pos p)) in *.
  assert (fexp prec emax (d + 0) = d - 53) as ->
    by (unfold fexp, emin, prec, emax; lia).
  destruct (d - 53 - 0) as [|k|k] eqn:Ek; try lia.
  assert (Z.pos (Pos.iter xO p k) < 2 ^ 53) as Hm.
  { rewrite iter_xO_value. replace (Z.pos k) with (53 - d) by lia.
    replace 53 with (d + (53 - d)) at 2 by lia.
    rewrite Z.pow_add_r by lia.
    apply Z.mul_lt_mono_pos_r; [apply Z.pow_pos_nonneg; lia|exact Hgt]. }
  pose proof (binary_round_aux_bound false (Z.pos (Pos.iter xO p k)) (d - 53)
                loc_Exact 53 (-52) (-1) ltac:(lia) ltac:(lia) ltac:(lia)
                ltac:(lia) ltac:(lia)) as [H|(s & m & e & H & Hm' & He)].
  - left. exact H.
  - right. exists s, m, e. split; [exact H|]. split; [exact Hm'|lia].
Qed.

Lemma div_core_bound (m1 e1 m2 e2 D1 D2 : Z) :
  0 < m1 < 2 ^ D1 -> 0 < m2 < 2 ^ D2 -> 0 <= D1 -> 0 <= D2 ->
  let '(q, e', _) := SFdiv_core_binary prec emax m1 e1 m2 e2 in
  0 <= q < 2 ^ (D1 + (53 + D2)) /\ Z.min (-1074) (e1 - e2) <= e' <= e1 - e2.
Proof.
  intros H1 H2 HD1 HD2. unfold SFdiv_core_binary.
  pose proof (Zdigits2_le m1 D1 ltac:(lia) HD1) as Hd1.
  pose proof (Zdigits2_le m2 D2 ltac:(lia) HD2) as Hd2.
  assert (0 <= Zdigits2 m1) as Hd10 by (destruct m1; simpl; lia).
  set (d1 := Zdigits2 m1) in *. set (d2 := Zdigits2 m2) in *.
  set (e' := Z.min (fexp prec emax (d1 + e1 - (d2 + e2))) (e1 - e2)).
  assert (Z.min (-1074) (e1 - e2) <= e' <= e1 - e2 /\ 0 <= e1 - e2 - e' <= 53 + D2)
    as [He Hs] by (unfold e', fexp, emin, prec, emax; lia).
  set (s := e1 - e2 - e') in *.
  set (m' := match s with Z.pos _ => Z.shiftl m1 s | 0 => m1 | Z.neg _ => 0 end).
  assert (0 <= m' < 2 ^ (D1 + (53 + D2))) as Hm'.
  { assert (m' = m1 * 2 ^ s) as ->.
    { unfold m'. destruct s as [|p|p] eqn:Es; [lia| |lia].
      rewrite Z.shiftl_mul_pow2 by lia. reflexivity. }
    rewrite Z.pow_add_r by lia.
    pose proof (Z.pow_le_mono_r 2 s (53 + D2) ltac:(lia) ltac:(lia)).
    pose proof (Z.pow_pos_nonneg 2 s ltac:(lia) ltac:(lia)).
    split; [lia|]. nia. }
  pose proof (Z_div_mod m' m2 ltac:(lia)) as Hdm.
  destruct (Z.div_eucl m' m2) as [q r]. destruct Hdm as [Heq Hr].
  split; [|exact He]. split; nia.
Qed.

Lemma fdiv_1e9_bound (y : spec_float) :
  (exists s m e, y = S754_finite s m e /\ Z.pos m < 2 ^ 54 /\ -52 <= e <= 0) ->
  fbound 161 (-1074) 244 (fdiv f_1e9 y).
Proof.
  intros (s & m & e & -> & Hm & He). unfold fdiv, f_1e9, SFdiv.
  pose proof (div_core_bound 8388608000000000 (-23) (Z.pos m) e 53 54
                ltac:(lia) ltac:(lia) ltac:(lia) ltac:(lia)) as Hc.
  destruct (SFdiv_core_binary prec emax 8388608000000000 (-23) (Z.pos m) e)
    as [[q e'] l]. destruct Hc as [Hq He'].
  change (53 + (53 + 54)) with 160 in Hq.
  pose proof (binary_round_aux_bound (xorb false s) q e' l 160 (-1074) 29
                Hq ltac:(lia) ltac:(lia) ltac:(lia)
                ltac:(lia)) as [H|(s' & m' & e'' & H & Hm' & He'')].
  - left. exact H.
  - right. exists s', m', e''. split; [exact H|]. split; [exact Hm'|lia].
Qed.

Lemma fmul_bound (x y : spec_float) (D1 L1 U1 D2 L2 U2 : Z) :
  fbound D1 L1 U1 x -> fbound D2 L2 U2 y ->
  0 <= D1 -> 0 <= D2 -> -1074 <= U1 + U2 ->
  Z.max (Z.max (U1 + U2) (D1 + D2 + (U1 + U2) - 53))
        (D1 + D2 + 1 + Z.max (U1 + U2) (D1 + D2 + (U1 + U2) - 53) - 53) <= 971 ->
  zero_or_finite (fmul x y).
Proof.
  intros [[sx ->]|(sx & mx & ex & -> & Hmx & Hex)]
         [[sy ->]|(sy & my & ey & -> & Hmy & Hey)] HD1 HD2 HU Hfin;
    try (left; simpl; eauto; fail).
  unfold fmul, SFmul.
  pose proof (binary_round_aux_bound (xorb sx sy) (Z.pos (mx * my)) (ex + ey)
                loc_Exact (D1 + D2) (L1 + L2) (U1 + U2)) as Hb.
  destruct Hb as [[s H]|(s & m & e & H & _)]; try lia.
  - rewrite Pos2Z.inj_mul, Z.pow_add_r by lia. split; [lia|]. nia.
  - left. eauto.
  - right. eauto.
Qed.

Lemma digits2_iter_xO (p k : positive) :
  Z.pos (digits2_pos (Pos.iter xO p k)) = Z.pos (digits2_pos p) + Z.pos k.
Proof.
  induction k as [|k IH] using Pos.peano_ind.
  - simpl. lia.
  - rewrite Pos.iter_succ. simpl. rewrite !Pos2Z.inj_succ, IH. lia.
Qed.

(** A mantissa of exactly 53 bits with an exponent in range is kept as it is. *)
Lemma binary_round_aux_exact (sx : bool) (m : positive) (e : Z) :
  Z.pos (digits2_pos m) = 53 -> -1074 <= e <= 971 ->
  binary_round_aux prec emax sx (Z.pos m) e loc_Exact = S754_finite sx m e.
Proof.
  intros Hd He. unfold binary_round_aux.
  assert (shr_fexp prec emax (Z.pos m) e loc_Exact
          = (Build_shr_record (Z.pos m) false false, e)) as Hs.
  { unfold shr_fexp. simpl Zdigits2. rewrite Hd.
    replace (fexp prec emax (53 + e) - e) with 0
      by (unfold fexp, emin, prec, emax; lia).
    reflexivity. }
  rewrite Hs. simpl. rewrite Hs. simpl.
  rewrite (proj2 (Z.leb_le e (emax - prec))) by (unfold emax, prec; lia).
  reflexivity.
Qed.

Lemma f_of_pos (p : positive) :
  Z.pos p < 2 ^ 52 ->
  exists m e, f_of (Z.pos p) = S754_finite false m e /\
              Z.pos m < 2 ^ 53 /\ -52 <= e <= -1.
Proof.
  intros Hp. unfold f_of, binary_normalize, binary_round, shl_align.
  pose proof (digits2_pos_gt p) as Hgt.
  pose proof (digits2_pos_le p 52 ltac:(lia) ltac:(lia)) as Hle.
  set (d := Z.pos (digits2_pos p)) in *.
  assert (fexp prec emax (d + 0) = d - 53) as ->
    by (unfold fexp, emin, prec, emax; lia).
  destruct (d - 53 - 0) as [|k|k] eqn:Ek; try lia.
  rewrite binary_round_aux_exact.
  - eexists _, _. split; [reflexivity|]. split; [|lia].
    pose proof (digits2_pos_gt (Pos.iter xO p k)) as H.
    rewrite digits2_iter_xO in H. fold d in H.
    replace (d + Z.pos k) with 53 in H by lia. exact H.
  - rewrite digits2_iter_xO. fold d. lia.
  - lia.
Qed.

Lemma float_of_int_fbound (z D L U : Z) :
  fbound D L U (f_of z) -> float_of_int z = Ok (f_of z).
Proof.
  unfold float_of_int.
  intros [[s ->]|(s & m & e & -> & _)]; reflexivity.
Qed.

(** C10 as stated fails for version 13: [DataPacket.decode] sends versions
    12 and 10 to [decode_12] and sets nothing for any other version, so a
    valid version 13 packet has no [nano] and no [power]. *)
Lemma data_v13_sets_nothing :
  exists d,
    DataPacket data_bytes 13 5 = Ok d /\
    dp_fields d = None /\
    dp_attr nano d = Raise AttributeError /\
    dp_attr power d = Raise AttributeError.
Proof. eexists. repeat split; vm_compute; reflexivity. Qed.

(** C10, amended.  For a valid data packet of version 12 or 10 and a phase
    difference in the range a status packet can carry, decoding succeeds
    and sets [nano = window * 80000 + int(ticks * (1e9 / (25000000 +
    phaseDiff)))] and [power = 0.488 * maxData - 111.0], in binary64
    arithmetic, where [ticks], [window] and [maxData] are the low 11, 14
    and 8 bits of words 0, 1 and 2. *)
Theorem data_packet_nano_power (bs : list byte) (ws : list Z) (v pd : Z) :
  v = 12 \/ v = 10 ->
  struct_unpack_h 3 bs = Ok ws ->
  0 <= word ws 0 -> word ws 1 < 0 -> 0 <= word ws 2 ->
  -32767 <= pd <= 32767 ->
  exists d f t,
    DataPacket bs v pd = Ok d /\ dp_fields d = Some f /\
    int_of_float (fmul (f_of (Z.land (word ws 0) 0x7FF))
                       (fdiv f_1e9 (f_of (25000000 + pd)))) = Ok t /\
    nano f = Z.land (word ws 1) 0x3FFF * 80000 + t /\
    power f = fsub (fmul f_0_488 (f_of (Z.land (word ws 2) 0xFF))) f_111.
Proof.
  intros Hv Hu H0 H1 H2 Hpd. unfold DataPacket. rewrite Hu. cbn [rbind].
  apply struct_unpack_h_Ok in Hu as [Hl ->].
  pose proof (unpack_words_length 3 bs Hl) as Hlen.
  destruct (unpack_words bs) as [|w0 [|w1 [|w2 [|? ?]]]]; try discriminate.
  unfold word in *.
  cbn [lookup list_lookup default from_option id] in *.
  rewrite (proj2 (data_pattern_ok_spec w0 w1 w2)) by lia.
  cbn [negb]. unfold data_decode.
  assert ((v =? 12) || (v =? 10) = true) as ->
    by (destruct Hv as [-> | ->]; reflexivity).
  unfold decode_12, word. cbn [lookup list_lookup default from_option id].
  (* the sample period *)
  assert (exists s m e, f_of (25000000 + pd) = S754_finite s m e /\
                        Z.pos m < 2 ^ 54 /\ -52 <= e <= 0) as Hrate.
  { destruct (25000000 + pd) as [|p|p] eqn:Ed; try lia.
    destruct (f_of_pos p ltac:(lia)) as (m & e & -> & Hm & He).
    exists false, m, e. split; [reflexivity|]. split; lia. }
  pose proof (fdiv_1e9_bound _ Hrate) as Hperiod.
  unfold float_div_int.
  rewrite (float_of_int_fbound (25000000 + pd) 54 (-52) 0)
    by (right; exact Hrate).
  cbn [rbind]. rewrite (proj2 (Z.eqb_neq (25000000 + pd) 0)) by lia.
  (* the tick count *)
  pose proof (land_ones_bound w0 11 ltac:(lia)) as Ht.
  change (Z.ones 11) with 2047 in Ht.
  pose proof (f_of_bound (Z.land w0 2047) ltac:(lia)) as Hticks.
  unfold nano_of. rewrite (float_of_int_fbound _ _ _ _ Hticks). cbn [rbind].
  destruct (int_of_float_Ok _
              (fmul_bound _ _ _ _ _ _ _ _ Hticks Hperiod ltac:(lia) ltac:(lia)
                          ltac:(lia) ltac:(lia))) as [t Ht'].
  rewrite Ht'. cbn [rbind].
  (* the amplitude code *)
  pose proof (land_ones_bound w2 8 ltac:(lia)) as Hm.
  change (Z.ones 8) with 255 in Hm.
  pose proof (f_of_bound (Z.land w2 255) ltac:(lia)) as Hcode.
  unfold power_of. rewrite (float_of_int_fbound _ _ _ _ Hcode). cbn [rbind].
  eexists _, _, t. split; [reflexivity|]. cbn [dp_fields].
  split; [reflexivity|]. split; [reflexivity|]. split; reflexivity.
Qed.

Lemma data_packet_nano_power_witness :
  exists d f t,
    DataPacket data_bytes 12 5 = Ok d /\ dp_fields d = Some f /\
    int_of_float (fmul (f_of (Z.land (word (unpack_words data_bytes) 0) 0x7FF))
                       (fdiv f_1e9 (f_of (25000000 + 5)))) = Ok t /\
    nano f = Z.land (word (unpack_words data_bytes) 1) 0x3FFF * 80000 + t /\
    power f = fsub (fmul f_0_488
                      (f_of (Z.land (word (unpack_words data_bytes) 2) 0xFF)))
                   f_111.
Proof.
  apply (data_packet_nano_power data_bytes (unpack_words data_bytes) 12 5).
  - left. reflexivity.
  - reflexivity.
  - vm_compute. discriminate.
  - vm_compute. reflexivity.
  - vm_compute. discriminate.
  - lia.
Defined.

End RawIOFacts.

(** ** Frames *)

Module FrameFacts.
Import RawIO.

Lemma alloc_spec (h : heap) (cells : list sample) l h' :
  alloc h cells = (l, h') -> h !! l = None /\ h' = <[l := cells]> h.
Proof.
  unfold alloc. intros [= <- <-]. split; [|reflexivity].
  apply not_elem_of_dom, is_fresh.
Qed.

Lemma update_arr (f : frame) : _arr (update f) = _arr f.
Proof. unfold update. destruct (_arr f) eqn:E; simpl; congruence. Qed.

(** A mutation of a frame leaves alone every array it does not hold, and
    does not come to hold one that existed before. *)
Lemma mutate_separate (m : mutation) (g g' : frame) (h h' : heap) l c :
  h !! l = Some c -> _arr g <> Some l ->
  mutate m g h = Some (Ok (g', h')) ->
  h' !! l = Some c /\ _arr g' <> Some l.
Proof.
  intros Hl Hne. destruct m as [x upd|fuel w|]; simpl.
  - unfold append. destruct (_arr g) as [lg|] eqn:Eg.
    + destruct (h !! lg) as [cells|] eqn:Ec; [|discriminate].
      intros [= <- <-]. split.
      * rewrite lookup_insert_ne; [exact Hl|congruence].
      * destruct upd; [rewrite update_arr|]; simpl; exact Hne.
    + destruct (alloc h []) as [l0 h0] eqn:Ea.
      apply alloc_spec in Ea as [Hfresh ->].
      rewrite lookup_insert_eq. intros [= <- <-].
      assert (l0 <> l) by congruence. split.
      * rewrite !lookup_insert_ne by exact H. exact Hl.
      * destruct upd; [rewrite update_arr|]; simpl; congruence.
  - unfold decimate.
    assert (forall out,
      (let '(l', h'0) := alloc h out in
       Some (Ok (update (Frame (statusPacket g) (Some l') (_view g)), h'0)))
        = Some (Ok (g', h')) ->
      h' !! l = Some c /\ _arr g' <> Some l) as Hfin.
    { intros out. destruct (alloc h out) as [l0 h0] eqn:Ea.
      apply alloc_spec in Ea as [Hfresh ->]. intros [= <- <-].
      assert (l0 <> l) by congruence. split.
      - rewrite lookup_insert_ne by exact H. exact Hl.
      - rewrite update_arr. simpl. congruence. }
    destruct (0 + w <? 10 ^ 9); [|apply Hfin].
    destruct (_arr g) as [lg|]; [|discriminate].
    destruct (h !! lg) as [arr|]; [|discriminate].
    destruct (decimate_loop fuel arr w 0 0 []) as [[out|e]|]; try discriminate.
    apply Hfin.
  - unfold copy. destruct (_arr g) as [lg|]; [|discriminate].
    destruct (h !! lg) as [cells|]; [|discriminate].
    destruct (alloc h cells) as [l0 h0] eqn:Ea.
    apply alloc_spec in Ea as [Hfresh ->]. simpl. intros [= <- <-].
    assert (l0 <> l) by congruence. split.
    + rewrite lookup_insert_ne by exact H. exact Hl.
    + rewrite update_arr. simpl. congruence.
Qed.

Lemma mutate_all_separate (ms : list mutation) (g g' : frame) (h h' : heap) l c :
  h !! l = Some c -> _arr g <> Some l ->
  mutate_all ms g h = Some (Ok (g', h')) ->
  h' !! l = Some c.
Proof.
  revert g h. induction ms as [|m ms IH]; intros g h Hl Hne; simpl.
  - intros [= <- <-]. exact Hl.
  - destruct (mutate m g h) as [[[g1 h1]|e]|] eqn:Em; try discriminate.
    destruct (mutate_separate m g g1 h h1 l c Hl Hne Em) as [Hl1 Hne1].
    apply IH; assumption.
Qed.

(** Two frames built on one array do share it: a cell appended through one
    is a cell of the other. *)
Lemma append_reaches_alias :
  let f := LMAFrame sample_status (Some 0%nat) in
  let g := LMAFrame sample_status (Some 0%nat) in
  exists g' h',
    append g cell_z true heap1 = Ok (g', h') /\
    cells_of f h' = Some [cell_a; cell_b; cell_z].
Proof. eexists _, _. split; vm_compute; reflexivity. Qed.

(** C9 as stated fails: [f.copy()] takes the default [inplace=True],
    returns [None] and no frame. *)
Lemma copy_default_returns_none :
  exists f' h', copy frame1 true heap1 = Ok (None, f', h').
Proof. eexists _, _. vm_compute. reflexivity. Qed.

(** C9, amended.  [f.copy(inplace=False)] returns a frame [g] on a fresh
    array with the cells of [f], and leaves [f] as it was; whatever is then
    done to [g] (append, decimate, in-place copy, any number of times)
    leaves the cells of [f] unchanged, and whatever is done to [f] leaves
    the cells of [g] unchanged.  With the default [inplace=True] the method
    returns [None]; the frame itself moves to a fresh array with the same
    cells, and the array it held before keeps them. *)
Theorem copy_is_independent (f : frame) (h : heap) (cells : list sample) :
  cells_of f h = Some cells ->
  (exists g h',
     copy f false h = Ok (Some g, f, h') /\
     _arr g <> _arr f /\
     cells_of g h' = Some cells /\ cells_of f h' = Some cells /\
     (forall ms g2 h2, mutate_all ms g h' = Some (Ok (g2, h2)) ->
        cells_of f h2 = Some cells) /\
     (forall ms f2 h2, mutate_all ms f h' = Some (Ok (f2, h2)) ->
        cells_of g h2 = Some cells)) /\
  (exists f' h',
     copy f true h = Ok (None, f', h') /\
     _arr f' <> _arr f /\
     cells_of f' h' = Some cells /\ cells_of f h' = Some cells).
Proof.
  unfold cells_of. destruct (_arr f) as [l|] eqn:Ef; simpl; [|discriminate].
  intros Hl. unfold copy. rewrite Ef, Hl.
  destruct (alloc h cells) as [l' h'] eqn:Ea.
  apply alloc_spec in Ea as [Hfresh ->].
  assert (l' <> l) as Hne by congruence.
  split.
  - eexists _, _. split; [reflexivity|].
    unfold LMAFrame. rewrite update_arr. simpl.
    rewrite lookup_insert_eq, lookup_insert_ne by exact Hne.
    split; [congruence|]. split; [reflexivity|]. split; [exact Hl|]. split.
    + intros ms g2 h2 Hm.
      eapply mutate_all_separate in Hm; [exact Hm| |].
      * rewrite lookup_insert_ne by exact Hne. exact Hl.
      * rewrite update_arr. simpl. congruence.
    + intros ms f2 h2 Hm.
      eapply mutate_all_separate in Hm; [exact Hm| |].
      * apply lookup_insert_eq.
      * congruence.
  - eexists _, _. split; [reflexivity|].
    rewrite update_arr. simpl.
    rewrite lookup_insert_eq, lookup_insert_ne by exact Hne.
    split; [congruence|]. split; [reflexivity|exact Hl].
Qed.

Lemma copy_is_independent_witness :
  (exists g h',
     copy frame1 false heap1 = Ok (Some g, frame1, h') /\
     _arr g <> _arr frame1 /\
     cells_of g h' = Some [cell_a; cell_b] /\
     cells_of frame1 h' = Some [cell_a; cell_b] /\
     (forall ms g2 h2, mutate_all ms g h' = Some (Ok (g2, h2)) ->
        cells_of frame1 h2 = Some [cell_a; cell_b]) /\
     (forall ms f2 h2, mutate_all ms frame1 h' = Some (Ok (f2, h2)) ->
        cells_of g h2 = Some [cell_a; cell_b])) /\
  (exists f' h',
     copy frame1 true heap1 = Ok (None, f', h') /\
     _arr f' <> _arr frame1 /\
     cells_of f' h' = Some [cell_a; cell_b] /\
     cells_of frame1 h' = Some [cell_a; cell_b]).
Proof.
  apply (copy_is_independent frame1 heap1 [cell_a; cell_b]).
  vm_compute. reflexivity.
Defined.

(** C8.  The outer loop of [decimate] runs while [nano+windowLength < 1e9],
    so the window that ends at or after 1e9 is never looked at.  With windows
    of 80 us, a cell at 999,950,000 ns is in the window that starts at
    999,920,000 and is dropped, while the cell of the first window is kept;
    with one window as long as the second, nothing is kept. *)
Theorem decimate_drops_last_window :
  decimate_loop (decimate_fuel 2 80000) [cell_a; cell_z] 80000 0 0 []
    = Some (Ok [cell_a]) /\
  decimate_loop (decimate_fuel 2 (10^9)) [cell_a; cell_z] (10^9) 0 0 []
    = Some (Ok []) /\
  (exists f' h',
     decimate (decimate_fuel 1 80000) (LMAFrame sample_status (Some 0%nat))
              80000 {[ 0%nat := [cell_z] ]} = Some (Ok (f', h')) /\
     cells_of f' h' = Some []).
Proof.
  split; [vm_compute; reflexivity|]. split; [vm_compute; reflexivity|].
  eexists _, _. split; vm_compute; reflexivity.
Qed.

End FrameFacts.

(** ** Locating the status packets *)

Module ScanFacts.
Import RawIO RawIOFacts.

Lemma read_at_middle (pre x post : list byte) :
  read_at (pre ++ x ++ post) (Z.of_nat (length pre)) (Z.of_nat (length x)) = x.
Proof.
  unfold read_at. rewrite !Nat2Z.id.
  rewrite drop_app_length. apply take_app_length.
Qed.

Lemma StatusPacket_Ok_inv timestamp2epoch bs sp :
  StatusPacket timestamp2epoch bs = Ok sp ->
  length bs = 18%nat /\ 10 <= sp_version sp <= 13 /\
  0 <= sp_triggerCount sp < 2 ^ 14.
Proof.
  unfold StatusPacket. destruct (struct_unpack_h 9 bs) as [ws|e] eqn:Hu;
    [|discriminate]. simpl.
  apply struct_unpack_h_Ok in Hu as [Hl ->]. intros H. split; [exact Hl|].
  destruct (negb _); [discriminate|].
  unfold decode in H.
  set (v := Z.land (Z.shiftr (word (unpack_words bs) 0) 7) 63) in *.
  assert (forall b w, calc_epoch timestamp2epoch (decode_1x b v w) = Ok sp ->
            sp_version sp = v /\ sp_triggerCount sp = Z.land (word w 4) 16383)
    as Hdec.
  { intros b w. unfold calc_epoch.
    destruct (timestamp2epoch _ _ _ _ _ _); [|discriminate].
    simpl. intros [= <-]. split; reflexivity. }
  destruct ((v =? 10) || (v =? 11)) eqn:E1; simpl in H.
  - apply Hdec in H as [-> ->]. split; [|change 16383 with (Z.ones 14); apply land_ones_bound; lia].
    apply orb_true_iff in E1 as [E1|E1]; apply Z.eqb_eq in E1; lia.
  - destruct ((v =? 12) || (v =? 13)) eqn:E2; simpl in H; [|discriminate].
    apply Hdec in H as [-> ->]. split; [|change 16383 with (Z.ones 14); apply land_ones_bound; lia].
    apply orb_true_iff in E2 as [E2|E2]; apply Z.eqb_eq in E2; lia.
Qed.

Section ScanFacts.
Variable timestamp2epoch : epoch_fn.
Variable file : list byte.
Variables (id netid : str) (statusSize : Z).

Local Abbreviation fwd := (forward_loop timestamp2epoch file id netid statusSize).
Local Abbreviation bwd := (backward_loop timestamp2epoch file id netid statusSize).
Local Abbreviation try_at := (forward_try timestamp2epoch file id netid statusSize).

(** More fuel does not change an answer. *)
Lemma forward_loop_mono fuel fuel' loc st r :
  (fuel <= fuel')%nat -> fwd fuel loc st = Some r -> fwd fuel' loc st = Some r.
Proof.
  revert fuel' loc st. induction fuel as [|fuel IH]; intros fuel' loc st Hle;
    [discriminate|].
  destruct fuel' as [|fuel']; [lia|]. simpl.
  destruct (loc <? fileSize file); [|auto].
  destruct (try_at loc st) as [[loc' st']|e]; apply IH; lia.
Qed.

Lemma backward_loop_mono fuel fuel' pos st r :
  (fuel <= fuel')%nat -> bwd fuel pos st = Some r -> bwd fuel' pos st = Some r.
Proof.
  revert fuel' pos st. induction fuel as [|fuel IH]; intros fuel' pos st Hle;
    [discriminate|].
  destruct fuel' as [|fuel']; [lia|]. simpl.
  destruct (pos >? statusSize); [|auto].
  destruct (StatusPacket _ _) as [sp|e]; simpl; [|auto].
  destruct (negb _ || negb _); [auto|].
  destruct (_ >? _); [|auto]. apply IH. lia.
Qed.

(** An accepted packet was read in full, so the search moves on by 18. *)
Lemma forward_try_Ok loc st loc' st' :
  try_at loc st = Ok (loc', st') ->
  exists sp,
    StatusPacket timestamp2epoch (read_at file loc statusSize) = Ok sp /\
    sp_id sp = id /\ sp_netid sp = netid /\
    length (read_at file loc statusSize) = 18%nat /\
    loc' = loc + statusSize /\ st' = record_status st loc sp.
Proof.
  unfold forward_try.
  destruct (StatusPacket _ _) as [sp|e] eqn:Hs; simpl; [|discriminate].
  destruct (bool_decide (sp_id sp = id)) eqn:E1; simpl; [|discriminate].
  destruct (bool_decide (sp_netid sp = netid)) eqn:E2; simpl; [|discriminate].
  intros [= <- <-]. apply bool_decide_eq_true in E1, E2.
  apply StatusPacket_Ok_inv in Hs as Hl. destruct Hl as [Hl _].
  exists sp. repeat split; auto.
Qed.

Lemma read_at_length_le (pos n : Z) :
  Z.of_nat (length (read_at file pos n)) <= Z.max 0 n.
Proof. unfold read_at. rewrite length_take. lia. Qed.

(** The forward search always ends: every turn moves at least 3 bytes on. *)
Lemma forward_loop_total fuel loc st :
  Z.max 0 (fileSize file - loc) < Z.of_nat fuel ->
  exists st', fwd fuel loc st = Some (Ok st').
Proof.
  revert loc st. induction fuel as [|fuel IH]; intros loc st Hf; [lia|]. simpl.
  destruct (Z.ltb_spec loc (fileSize file)); [|eauto].
  destruct (try_at loc st) as [[loc' st']|e] eqn:Ht.
  - apply forward_try_Ok in Ht as (sp & _ & _ & _ & Hl & -> & _).
    pose proof (read_at_length_le loc statusSize). apply IH. lia.
  - apply IH. lia.
Qed.

(** The backward search always ends: every turn moves at least
    [statusSize] bytes back. *)
Lemma backward_loop_total fuel pos st :
  Z.max 0 pos < Z.of_nat fuel -> exists r, bwd fuel pos st = Some r.
Proof.
  revert pos st. induction fuel as [|fuel IH]; intros pos st Hf; [lia|]. simpl.
  destruct (Z.gtb_spec pos statusSize); [|eauto].
  destruct (StatusPacket _ _) as [sp|e] eqn:Hs; simpl; [|eauto].
  destruct (negb _ || negb _); [eauto|].
  apply StatusPacket_Ok_inv in Hs as (Hl & _ & Htc). rewrite Hl.
  pose proof (read_at_length_le (pos - statusSize) statusSize) as Hle.
  rewrite Hl in Hle.
  destruct (Z.gtb_spec (pos - statusSize + Z.of_nat 18)
              (sp_triggerCount sp * 6 + statusSize)); [|eauto].
  apply IH. lia.
Qed.

End ScanFacts.

Lemma data_ok_length (d : list byte) : data_ok d = true -> length d = 6%nat.
Proof.
  unfold data_ok. destruct (struct_unpack_h 3 d) as [ws|e] eqn:Hu; [|discriminate].
  intros _. apply struct_unpack_h_Ok in Hu as [Hl _]. exact Hl.
Qed.

Lemma concat_data_length (ds : list (list byte)) :
  forallb data_ok ds = true ->
  Z.of_nat (length (concat ds)) = 6 * Z.of_nat (length ds).
Proof.
  induction ds as [|d ds IH]; simpl; [reflexivity|].
  intros H. apply andb_prop in H as [Hd Hds].
  rewrite length_app, (data_ok_length d Hd). specialize (IH Hds). lia.
Qed.

Section Layout.
Variable timestamp2epoch : epoch_fn.
Variables (id netid : str).

Local Abbreviation ok := (block_ok timestamp2epoch id netid).

Lemma block_ok_inv (b : second_block) :
  ok b = true ->
  exists sp,
    StatusPacket timestamp2epoch (sb_status b) = Ok sp /\
    sp_id sp = id /\ sp_netid sp = netid /\
    sp_triggerCount sp = Z.of_nat (length (sb_data b)) /\
    length (sb_status b) = 18%nat /\
    Z.of_nat (length (concat (sb_data b))) = 6 * Z.of_nat (length (sb_data b)).
Proof.
  unfold block_ok.
  destruct (StatusPacket timestamp2epoch (sb_status b)) as [sp|e] eqn:Hs;
    [|discriminate].
  intros H. apply andb_prop in H as [H H4]. apply andb_prop in H as [H H3].
  apply andb_prop in H as [H1 H2].
  apply bool_decide_eq_true in H1, H2. apply Z.eqb_eq in H3.
  apply StatusPacket_Ok_inv in Hs as Hl. destruct Hl as [Hl _].
  exists sp. repeat split; auto using concat_data_length.
Qed.

Lemma block_bytes_length (b : second_block) :
  ok b = true ->
  Z.of_nat (length (block_bytes b)) = 6 * Z.of_nat (length (sb_data b)) + 18.
Proof.
  intros H. apply block_ok_inv in H as (sp & _ & _ & _ & _ & Hl & Hd).
  unfold block_bytes. rewrite length_app. lia.
Qed.

Lemma blocks_length (blocks : list second_block) :
  forallb ok blocks = true ->
  Z.of_nat (length (concat (block_bytes <$> blocks))) = span blocks.
Proof.
  induction blocks as [|b bs IH]; [reflexivity|].
  rewrite fmap_cons, concat_cons, length_app. cbn [forallb span].
  intros H. apply andb_prop in H as [Hb Hbs].
  pose proof (block_bytes_length b Hb). specialize (IH Hbs). lia.
Qed.

Lemma status_offsets_app (start : Z) (bs bs' : list second_block) :
  status_offsets start (bs ++ bs') =
    status_offsets start bs ++ status_offsets (start + span bs) bs'.
Proof.
  revert start. induction bs as [|b bs IH]; intros start; simpl.
  - f_equal. lia.
  - f_equal. rewrite IH. f_equal. f_equal. lia.
Qed.

End Layout.

Section Strategies.
Variable timestamp2epoch : epoch_fn.
Variable file : list byte.
Variables (id netid : str).

Local Abbreviation fwd := (forward_loop timestamp2epoch file id netid 18).
Local Abbreviation bwd := (backward_loop timestamp2epoch file id netid 18).
Local Abbreviation try_at := (forward_try timestamp2epoch file id netid 18).
Local Abbreviation ok := (block_ok timestamp2epoch id netid).
Local Abbreviation accepts := (accepts_at timestamp2epoch file id netid).

Lemma try_at_reject (off : Z) (st : scanner) :
  accepts off = false -> exists e, try_at off st = Raise e.
Proof.
  unfold accepts_at, forward_try.
  destruct (StatusPacket _ _) as [sp|e]; simpl; [|eauto].
  intros H. apply andb_false_iff in H as [H|H]; rewrite H; simpl; eauto.
  rewrite orb_true_r. eauto.
Qed.

Lemma try_at_accept (off : Z) (st : scanner) (sp : status) :
  StatusPacket timestamp2epoch (read_at file off 18) = Ok sp ->
  sp_id sp = id -> sp_netid sp = netid ->
  try_at off st = Ok (off + 18, record_status st off sp).
Proof.
  intros Hs H1 H2. unfold forward_try. rewrite Hs. simpl.
  rewrite !bool_decide_eq_true_2 by assumption. reflexivity.
Qed.

(** Crossing a run of rejected offsets costs one turn per offset. *)
Lemma forward_run (k : nat) (fuel : nat) (loc : Z) (st : scanner) :
  (forall j, 0 <= j < Z.of_nat k -> accepts (loc + 3 * j) = false) ->
  loc + 3 * Z.of_nat k <= fileSize file ->
  fwd (k + fuel) loc st = fwd fuel (loc + 3 * Z.of_nat k) st.
Proof.
  revert loc. induction k as [|k IH]; intros loc Hrej Hsize.
  - simpl. f_equal. lia.
  - cbn [Nat.add forward_loop].
    rewrite (proj2 (Z.ltb_lt loc (fileSize file))) by lia.
    destruct (try_at_reject loc st) as [e ->].
    { rewrite <- (Hrej 0) by lia. f_equal. lia. }
    rewrite IH.
    + f_equal. lia.
    + intros j Hj. rewrite <- (Hrej (j + 1)) by lia. f_equal. lia.
    + lia.
Qed.

(** The forward search over well-formed blocks without lookalikes. *)
Lemma forward_blocks (blocks : list second_block) (pre : list byte) (st : scanner) :
  file = pre ++ concat (block_bytes <$> blocks) ->
  forallb ok blocks = true ->
  forallb (fun off => negb (accepts off))
          (data_steps (Z.of_nat (length pre)) blocks) = true ->
  exists fuel st',
    fwd fuel (Z.of_nat (length pre)) st = Some (Ok st') /\
    statusLocations st' =
      statusLocations st ++ status_offsets (Z.of_nat (length pre)) blocks.
Proof.
  revert pre st. induction blocks as [|b bs IH]; intros pre st Hfile Hok Hclean.
  - exists 1%nat, st. simpl. unfold fileSize. rewrite Hfile. simpl.
    rewrite app_nil_r, Z.ltb_irrefl, app_nil_r. auto.
  - cbn [forallb] in Hok. apply andb_prop in Hok as [Hb Hbs].
    pose proof (block_bytes_length timestamp2epoch id netid b Hb) as Hblen.
    apply block_ok_inv in Hb as (sp & Hsp & Hid & Hnet & Htc & Hl & Hd).
    cbn [data_steps] in Hclean. rewrite forallb_app in Hclean.
    apply andb_prop in Hclean as [Hrun Hrest].
    set (n := Z.of_nat (length (sb_data b))) in *.
    set (loc := Z.of_nat (length pre)) in *.
    rewrite fmap_cons, concat_cons in Hfile. unfold block_bytes at 1 in Hfile.
    assert (fileSize file = loc + 6 * n + 18 +
              Z.of_nat (length (concat (block_bytes <$> bs)))) as Hsize.
    { unfold fileSize. rewrite Hfile, !length_app. lia. }
    assert (read_at file (loc + 6 * n) 18 = sb_status b) as Hread.
    { rewrite Hfile. rewrite <- app_assoc, (app_assoc pre).
      replace (loc + 6 * n) with (Z.of_nat (length (pre ++ concat (sb_data b))))
        by (rewrite length_app; lia).
      replace 18 with (Z.of_nat (length (sb_status b))) by lia.
      apply read_at_middle. }
    destruct (IH (pre ++ block_bytes b) (record_status st (loc + 6 * n) sp))
      as (fuel & st' & Hfwd & Hlocs).
    + rewrite Hfile. unfold block_bytes. rewrite <- !app_assoc. reflexivity.
    + exact Hbs.
    + rewrite length_app. replace (Z.of_nat (length pre + length (block_bytes b)))
        with (loc + 6 * n + 18) by lia. exact Hrest.
    + exists (Z.to_nat (2 * n) + S fuel)%nat, st'. split.
      * rewrite forward_run.
        -- rewrite Z2Nat.id by lia. replace (loc + 3 * (2 * n)) with (loc + 6 * n) by lia.
           cbn [forward_loop].
           rewrite (proj2 (Z.ltb_lt _ _)) by lia.
           rewrite (try_at_accept _ _ sp) by (rewrite ?Hread; assumption).
           rewrite length_app in Hfwd.
           replace (Z.of_nat (length pre + length (block_bytes b)))
             with (loc + 6 * n + 18) in Hfwd by lia. exact Hfwd.
        -- intros j Hj. rewrite forallb_forall in Hrun.
           apply negb_true_iff, Hrun.
           apply list_elem_of_In, list_elem_of_fmap. exists j. split; [reflexivity|].
           apply elem_of_seqZ. lia.
        -- lia.
      * rewrite Hlocs. cbn [record_status statusLocations status_offsets].
        rewrite <- app_assoc. cbn [app]. rewrite length_app.
        replace (Z.of_nat (length pre + length (block_bytes b)))
          with (loc + 6 * n + 18) by lia. reflexivity.
Qed.

(** The backward search over well-formed blocks: from the end of the
    last one down to the end of the bootstrap packet. *)
Lemma backward_blocks (boot : list byte) (blocks suffix : list second_block)
    (st : scanner) :
  file = boot ++ concat (block_bytes <$> blocks) ++ concat (block_bytes <$> suffix) ->
  length boot = 18%nat ->
  forallb ok blocks = true ->
  exists fuel st',
    bwd fuel (18 + span blocks) st = Some (Ok st') /\
    statusLocations st' =
      statusLocations st ++ reverse (status_offsets 18 blocks) /\
    statusPackets st' =
      statusPackets st ++ reverse (block_status timestamp2epoch <$> blocks).
Proof.
  revert suffix st. induction blocks as [|b bs IH] using rev_ind;
    intros suffix st Hfile Hboot Hok.
  - exists 1%nat, st. simpl. rewrite !app_nil_r. auto.
  - rewrite forallb_app in Hok. apply andb_prop in Hok as [Hbs Hb].
    cbn [forallb] in Hb. rewrite andb_true_r in Hb.
    pose proof (blocks_length timestamp2epoch id netid bs Hbs) as Hlen.
    apply block_ok_inv in Hb as (sp & Hsp & Hid & Hnet & Htc & Hl & Hd).
    set (n := Z.of_nat (length (sb_data b))) in *.
    assert (span (bs ++ [b]) = span bs + 6 * n + 18) as Hspan.
    { clear. induction bs as [|b' bs IH]; simpl; lia. }
    rewrite fmap_app, concat_app in Hfile. cbn [fmap list_fmap concat] in Hfile.
    rewrite app_nil_r in Hfile. unfold block_bytes at 2 in Hfile.
    assert (read_at file (18 + span bs + 6 * n) 18 = sb_status b) as Hread.
    { rewrite Hfile.
      replace (boot ++ (concat (block_bytes <$> bs) ++ concat (sb_data b) ++ sb_status b)
                 ++ concat (block_bytes <$> suffix))
        with ((boot ++ concat (block_bytes <$> bs) ++ concat (sb_data b))
                ++ sb_status b ++ concat (block_bytes <$> suffix))
        by (rewrite <- !app_assoc; reflexivity).
      replace (18 + span bs + 6 * n)
        with (Z.of_nat (length (boot ++ concat (block_bytes <$> bs) ++ concat (sb_data b))))
        by (rewrite !length_app; lia).
      pose proof (read_at_middle
                    (boot ++ concat (block_bytes <$> bs) ++ concat (sb_data b))
                    (sb_status b) (concat (block_bytes <$> suffix))) as R.
      rewrite Hl in R. exact R. }
    destruct (IH (b :: suffix)
                 {| statusLocations := statusLocations st ++ [18 + span bs + 6 * n];
                    statusPackets := statusPackets st ++ [Some sp];
                    endEpoch := if sp_epoch sp >? endEpoch st then sp_epoch sp
                                else endEpoch st;
                    alm := decode_gpsInfo (alm st) sp |})
      as (fuel & st' & Hbwd & Hlocs & Hpkts).
    + rewrite Hfile, fmap_cons, concat_cons.
      change (block_bytes b) with (concat (sb_data b) ++ sb_status b).
      rewrite <- !app_assoc. reflexivity.
    + exact Hboot.
    + exact Hbs.
    + exists (S fuel), st'. split.
      * cbn [backward_loop]. rewrite Hspan.
        rewrite (proj2 (Z.gtb_lt _ _)) by (pose proof (Zle_0_nat (length (sb_data b))); 
                                           assert (0 <= span bs) by lia; lia).
        replace (18 + (span bs + 6 * n + 18) - 18) with (18 + span bs + 6 * n) by lia.
        rewrite Hread, Hsp. cbn [fbind].
        rewrite !bool_decide_eq_true_2 by assumption. cbn [negb orb].
        rewrite Hl, Htc.
        rewrite (proj2 (Z.gtb_lt _ _)) by (assert (0 <= span bs) by lia; lia).
        replace (18 + span bs + 6 * n + Z.of_nat 18 - n * 6 - 18) with (18 + span bs)
          by lia.
        exact Hbwd.
      * split.
        -- rewrite Hlocs. cbn [statusLocations].
           rewrite status_offsets_app. cbn [status_offsets].
           rewrite reverse_app. cbn [reverse]. rewrite <- app_assoc.
           fold n. reflexivity.
        -- rewrite Hpkts. cbn [statusPackets].
           rewrite fmap_app, reverse_app. cbn [fmap list_fmap reverse].
           unfold block_status at 2. rewrite Hsp. rewrite <- app_assoc. reflexivity.
Qed.

End Strategies.

Lemma read_at_boot (boot rest : list byte) :
  length boot = 18%nat -> read_at (boot ++ rest) 0 18 = boot.
Proof.
  intros Hl. pose proof (read_at_middle [] boot rest) as R.
  rewrite Hl in R. exact R.
Qed.

Lemma backward_layout (timestamp2epoch : epoch_fn) (boot : list byte)
    (blocks : list second_block) :
  well_formed timestamp2epoch boot blocks = true ->
  boundaries timestamp2epoch false (layout boot blocks)
    = Some (Ok (0 :: status_offsets 18 blocks)).
Proof.
  unfold well_formed.
  destruct (StatusPacket timestamp2epoch boot) as [sp0|e] eqn:Hboot; [|discriminate].
  intros Hok. apply StatusPacket_Ok_inv in Hboot as Hinv.
  destruct Hinv as (Hl & Hv & _).
  unfold boundaries, find_status, layout. rewrite (read_at_boot _ _ Hl), Hboot.
  cbn [fbind]. rewrite (proj2 (Z.geb_le _ _)) by lia.
  unfold _search_backwards.
  set (file := boot ++ concat (block_bytes <$> blocks)).
  set (st0 := Scanner [] [] 0 almanac0).
  destruct (backward_blocks timestamp2epoch file (sp_id sp0) (sp_netid sp0)
              boot blocks [] st0) as (fuel & st' & Hb & Hlocs & _).
  { unfold file. simpl. rewrite app_nil_r. reflexivity. }
  { exact Hl. }
  { exact Hok. }
  assert (fileSize file = 18 + span blocks) as Hsize.
  { unfold fileSize, file. rewrite length_app.
    pose proof (blocks_length _ _ _ blocks Hok). lia. }
  rewrite Hsize.
  destruct (backward_loop_total timestamp2epoch file (sp_id sp0) (sp_netid sp0) 18
              (S (length file)) (18 + span blocks) st0) as [r Hr].
  { unfold fileSize in Hsize. lia. }
  pose proof (backward_loop_mono _ _ _ _ _ _ (Nat.max fuel (S (length file)))
                _ _ _ (Nat.le_max_l _ _) Hb) as H1.
  pose proof (backward_loop_mono _ _ _ _ _ _ (Nat.max fuel (S (length file)))
                _ _ _ (Nat.le_max_r _ _) Hr) as H2.
  rewrite H1 in H2. injection H2 as <-. rewrite Hr.
  cbn [rf_scan statusLocations]. rewrite Hlocs. subst st0.
  cbn [statusLocations app]. rewrite reverse_app, reverse_involutive. reflexivity.
Qed.

Lemma forward_layout (timestamp2epoch : epoch_fn) (boot : list byte)
    (blocks : list second_block) :
  well_formed timestamp2epoch boot blocks = true ->
  no_lookalike timestamp2epoch boot blocks = true ->
  boundaries timestamp2epoch true (layout boot blocks)
    = Some (Ok (0 :: status_offsets 18 blocks)).
Proof.
  unfold well_formed, no_lookalike.
  destruct (StatusPacket timestamp2epoch boot) as [sp0|e] eqn:Hboot; [|discriminate].
  intros Hok Hclean. apply StatusPacket_Ok_inv in Hboot as Hinv.
  destruct Hinv as (Hl & Hv & _).
  unfold boundaries, find_status. fold (layout boot blocks).
  set (file := layout boot blocks) in *.
  assert (read_at file 0 18 = boot) as -> by (apply read_at_boot, Hl).
  rewrite Hboot. cbn [fbind]. rewrite (proj2 (Z.geb_le _ _)) by lia.
  unfold _search_forwards. cbn [statusLocations statusPackets endEpoch alm app].
  set (st0 := Scanner [0] [None] 0 almanac0).
  destruct (forward_blocks timestamp2epoch file (sp_id sp0) (sp_netid sp0)
              blocks boot st0) as (fuel & st' & Hf & Hlocs).
  { reflexivity. }
  { exact Hok. }
  { rewrite Hl. exact Hclean. }
  rewrite Hl in Hf, Hlocs. change (Z.of_nat 18) with 18 in Hf, Hlocs.
  destruct (forward_loop_total timestamp2epoch file (sp_id sp0) (sp_netid sp0) 18
              (S (length file)) 18 st0) as [r Hr].
  { unfold fileSize. lia. }
  pose proof (forward_loop_mono _ _ _ _ _ _ (Nat.max fuel (S (length file)))
                _ _ _ (Nat.le_max_l _ _) Hf) as H1.
  pose proof (forward_loop_mono _ _ _ _ _ _ (Nat.max fuel (S (length file)))
                _ _ _ (Nat.le_max_r _ _) Hr) as H2.
  rewrite H1 in H2. injection H2 as <-. rewrite Hr.
  cbn [rf_scan]. rewrite Hlocs. subst st0. reflexivity.
Qed.

(** X1.  On a well-formed fixed-rate file (bootstrap packet, then for each
    second its data packets and the status packet that counts them, all of
    one sensor) the backward search reports offset 0 and then exactly the
    offsets of the status packets, in file order. *)
Theorem backward_boundaries (timestamp2epoch : epoch_fn) (boot : list byte)
    (blocks : list second_block) :
  well_formed timestamp2epoch boot blocks = true ->
  boundaries timestamp2epoch false (layout boot blocks)
    = Some (Ok (0 :: status_offsets 18 blocks)).
Proof. apply backward_layout. Qed.

(** X2.  The forward search reports the same list on such a file, provided
    no 18 bytes at a 3-byte step inside a run of data packets decode as a
    status packet of the file's sensor. *)
Theorem forward_boundaries (timestamp2epoch : epoch_fn) (boot : list byte)
    (blocks : list second_block) :
  well_formed timestamp2epoch boot blocks = true ->
  no_lookalike timestamp2epoch boot blocks = true ->
  boundaries timestamp2epoch true (layout boot blocks)
    = Some (Ok (0 :: status_offsets 18 blocks)).
Proof. apply forward_layout. Qed.

(** X3.  On a well-formed fixed-rate file without such lookalikes the
    forward and the backward strategy report identical boundary lists. *)
Theorem strategies_agree (timestamp2epoch : epoch_fn) (boot : list byte)
    (blocks : list second_block) :
  well_formed timestamp2epoch boot blocks = true ->
  no_lookalike timestamp2epoch boot blocks = true ->
  boundaries timestamp2epoch true (layout boot blocks)
    = boundaries timestamp2epoch false (layout boot blocks).
Proof.
  intros Hwf Hclean.
  rewrite forward_layout, backward_layout by assumption. reflexivity.
Qed.

(** X4.  Well-formedness alone is not enough for that: there is a
    well-formed fixed-rate file, every data packet of which has the right
    sign pattern, on which the forward search reports a boundary inside the
    data and the two strategies differ. *)
Theorem strategies_can_disagree :
  exists boot blocks,
    well_formed calendar_to_epoch boot blocks = true /\
    boundaries calendar_to_epoch true (layout boot blocks)
      <> boundaries calendar_to_epoch false (layout boot blocks).
Proof.
  exists (status_bytes 1 0), lookalike_blocks. split; [vm_compute; reflexivity|].
  vm_compute. discriminate.
Qed.

Lemma backward_boundaries_witness :
  boundaries calendar_to_epoch false (layout (status_bytes 1 0) lookalike_blocks)
    = Some (Ok (0 :: status_offsets 18 lookalike_blocks)).
Proof.
  apply (backward_boundaries calendar_to_epoch (status_bytes 1 0) lookalike_blocks).
  vm_compute. reflexivity.
Defined.

Lemma forward_boundaries_witness :
  boundaries calendar_to_epoch true (layout (status_bytes 1 0) plain_blocks)
    = Some (Ok (0 :: status_offsets 18 plain_blocks)).
Proof.
  apply (forward_boundaries calendar_to_epoch (status_bytes 1 0) plain_blocks).
  - vm_compute. reflexivity.
  - vm_compute. reflexivity.
Defined.

Lemma strategies_agree_witness :
  boundaries calendar_to_epoch true (layout (status_bytes 1 0) plain_blocks)
    = boundaries calendar_to_epoch false (layout (status_bytes 1 0) plain_blocks).
Proof.
  apply (strategies_agree calendar_to_epoch (status_bytes 1 0) plain_blocks).
  - vm_compute. reflexivity.
  - vm_compute. reflexivity.
Defined.

(** X5.  Once the bootstrap packet decodes, the forward search returns a
    list of boundaries whatever follows in the file: it ends, and no
    exception leaves it. *)
Theorem forward_search_returns (timestamp2epoch : epoch_fn) (file : list byte)
    (sp : status) :
  StatusPacket timestamp2epoch (read_at file 0 18) = Ok sp ->
  exists locs, boundaries timestamp2epoch true file = Some (Ok locs).
Proof.
  intros Hs. unfold boundaries, find_status. rewrite Hs. cbn [fbind].
  unfold _search_forwards.
  set (statusSize := if sp_version sp >=? 10 then 18 else 12).
  destruct (forward_loop_total timestamp2epoch file (sp_id sp) (sp_netid sp)
              statusSize (S (length file)) statusSize
              {| statusLocations := [] ++ [0]; statusPackets := [] ++ [None];
                 endEpoch := 0; alm := almanac0 |}) as [st' Hst].
  - unfold fileSize, statusSize. destruct (sp_version sp >=? 10); lia.
  - cbn [statusLocations statusPackets endEpoch alm]. rewrite Hst. eauto.
Qed.

Lemma forward_search_returns_witness :
  exists locs, boundaries calendar_to_epoch true mixed_file = Some (Ok locs).
Proof.
  eapply (forward_search_returns calendar_to_epoch mixed_file).
  vm_compute. reflexivity.
Defined.

End ScanFacts.

(** ** Properties of the packet codecs *)

Module CodecFacts.
Import RawIO RawIOFacts ScanFacts.
Local Open Scope result_scope.

Lemma land_le_mask (w m : Z) : 0 <= m -> 0 <= Z.land w m <= m.
Proof.
  intros Hm. apply Z.ldiff_le; [exact Hm|].
  apply Z.bits_inj'. intros n Hn.
  rewrite Z.ldiff_spec, Z.land_spec, Z.bits_0.
  destruct (Z.testbit w n), (Z.testbit m n); reflexivity.
Qed.

Lemma lor_le_add (a b : Z) : 0 <= a -> 0 <= b -> 0 <= Z.lor a b <= a + b.
Proof.
  intros Ha Hb. pose proof (Zbitwise.Z.add_lor_land a b) as H.
  pose proof (proj2 (Z.land_nonneg a b) (or_introl Ha)).
  pose proof (proj2 (Z.lor_nonneg a b) (conj Ha Hb)). lia.
Qed.

Lemma decode_1x_in_range (b : bool) (v : Z) (w : list Z) :
  10 <= v <= 13 -> b = negb (v <? 12) ->
  status_in_range (decode_1x b v w).
Proof.
  intros Hv Hb. unfold status_in_range, decode_1x. cbn [sp_version sp_year sp_month
    sp_day sp_hour sp_minute sp_second sp_threshold sp_fifoStatus sp_triggerCount
    sp_phaseDiff sp_gpsInfo sp_id sp_netid].
  pose proof (land_le_mask (word w 0) 0x7F ltac:(lia)).
  pose proof (land_le_mask (word w 1) 0xFF ltac:(lia)).
  pose proof (land_le_mask (Z.shiftr (word w 2) 12) 0x07 ltac:(lia)).
  pose proof (land_le_mask (Z.shiftr (word w 2) 6) 0x3F ltac:(lia)).
  pose proof (land_le_mask (word w 2) 0x3F ltac:(lia)).
  pose proof (land_le_mask (Z.shiftr (word w 3) 9) 0x1F ltac:(lia)).
  pose proof (land_le_mask (Z.shiftr (word w 3) 4) 0x1F ltac:(lia)).
  pose proof (land_le_mask (word w 3) 0x0F ltac:(lia)).
  pose proof (land_le_mask (word w 4) 0x3FFF ltac:(lia)).
  pose proof (land_le_mask (word w 6) 0x7FFF ltac:(lia)).
  pose proof (land_le_mask (word w 7) 0x7FFF ltac:(lia)).
  pose proof (land_le_mask (Z.shiftr (word w 5) 8) 0x7F ltac:(lia)).
  pose proof (land_le_mask (word w 5) 0xFF ltac:(lia)).
  pose proof (land_le_mask (Z.shiftr (word w 1) 5) 0x80 ltac:(lia)).
  pose proof (land_le_mask (word w 1) 0x2000 ltac:(lia)) as Hg.
  pose proof (lor_le_add (Z.land (Z.shiftr (word w 1) 5) 0x80)
                (Z.land (Z.shiftr (word w 5) 8) 0x7F) ltac:(lia) ltac:(lia)).
  rewrite Z.shiftl_mul_pow2 by lia.
  pose proof (lor_le_add (Z.land (word w 7) 0x7FFF)
                (Z.land (word w 1) 0x2000 * 2 ^ 2) ltac:(lia) ltac:(lia)).
  repeat (split; [lia|]). split.
  { destruct (Z.land (Z.shiftr (word w 1) 14) 1 =? 1); lia. }
  split; [lia|]. split; [eexists; split; [reflexivity|lia]|].
  subst b. destruct (v <? 12); simpl; [reflexivity|].
  eexists; split; [reflexivity|lia].
Qed.

Section DecoderFacts.
Variable timestamp2epoch : epoch_fn.

Lemma calc_epoch_fields (sp sp' : status) :
  calc_epoch timestamp2epoch sp = Ok sp' ->
  exists e, sp' = set_epoch sp e.
Proof.
  unfold calc_epoch. destruct (timestamp2epoch _ _ _ _ _ _) as [e|x]; [|discriminate].
  simpl. intros [= <-]. eauto.
Qed.

Lemma forallb_all_words (ws : list Z) :
  length ws = 9%nat ->
  forallb (fun v => v <? 0) ws = true <-> forall k, (k < 9)%nat -> word ws k < 0.
Proof.
  intros Hl. split.
  - intros H k Hk. rewrite forallb_forall in H.
    apply Z.ltb_lt, H, list_elem_of_In.
    apply (list_elem_of_lookup_2 _ k). apply word_lookup. lia.
  - intros H. apply forallb_lookup_true. intros k x Hk.
    pose proof (lookup_lt_Some _ _ _ Hk) as Hlt.
    rewrite word_lookup in Hk by lia. injection Hk as <-.
    apply Z.ltb_lt, H. lia.
Qed.

Lemma StatusPacket_Ok_spec (bs : list byte) (sp : status) :
  StatusPacket timestamp2epoch bs = Ok sp <->
  length bs = 18%nat /\
  (forall k, (k < 9)%nat -> word (unpack_words bs) k < 0) /\
  10 <= version_of (unpack_words bs) <= 13 /\
  calc_epoch timestamp2epoch
    (decode_1x (12 <=? version_of (unpack_words bs))
               (version_of (unpack_words bs)) (unpack_words bs)) = Ok sp.
Proof.
  unfold StatusPacket, struct_unpack_h.
  destruct (Nat.eqb_spec (length bs) (2 * 9)) as [Hl|Hl]; cbn [rbind];
    [|split; [discriminate|intros [H _]; simpl in Hl; contradiction]].
  pose proof (unpack_words_length 9 bs Hl) as Hlen.
  fold (version_of (unpack_words bs)).
  set (ws := unpack_words bs) in *. set (v := version_of ws).
  destruct (Z.ltb_spec v 10) as [Hv|Hv].
  - (* the dispatch knows no version below 10 *)
    split; [|intros (_ & _ & H & _); lia].
    destruct (negb _); [discriminate|]. unfold decode.
    rewrite (proj2 (Z.eqb_neq v 10)), (proj2 (Z.eqb_neq v 11)),
      (proj2 (Z.eqb_neq v 12)), (proj2 (Z.eqb_neq v 13)) by lia.
    discriminate.
  - pose proof (forallb_all_words ws Hlen) as Hall.
    destruct (forallb (fun v0 : Z => v0 <? 0) ws) eqn:Hf; cbn [negb].
    + unfold decode.
      destruct (Z.eqb_spec v 10) as [E|E]; [|destruct (Z.eqb_spec v 11) as [E1|E1]];
        cbn [orb rbind].
      * rewrite E. split; [intros H; repeat split; auto; try lia; apply Hall; auto|].
        intros (_ & _ & _ & H). exact H.
      * rewrite E1. split; [intros H; repeat split; auto; try lia; apply Hall; auto|].
        intros (_ & _ & _ & H). exact H.
      * destruct (Z.eqb_spec v 12) as [E2|E2];
          [|destruct (Z.eqb_spec v 13) as [E3|E3]]; cbn [orb rbind].
        -- rewrite E2. split; [intros H; repeat split; auto; try lia; apply Hall; auto|].
           intros (_ & _ & _ & H). exact H.
        -- rewrite E3. split; [intros H; repeat split; auto; try lia; apply Hall; auto|].
           intros (_ & _ & _ & H). exact H.
        -- split; [discriminate|]. intros (_ & _ & H & _). lia.
    + split; [discriminate|]. intros (_ & H & _). apply Hall in H. discriminate.
Qed.

Lemma StatusPacket_in_range (bs : list byte) (sp : status) :
  StatusPacket timestamp2epoch bs = Ok sp -> status_in_range sp.
Proof.
  intros H. apply StatusPacket_Ok_spec in H as (_ & _ & Hv & H).
  apply calc_epoch_fields in H as [e ->].
  pose proof (decode_1x_in_range (12 <=? version_of (unpack_words bs))
                (version_of (unpack_words bs)) (unpack_words bs) Hv) as Hr.
  assert ((12 <=? version_of (unpack_words bs))
          = negb (version_of (unpack_words bs) <? 12)) as Hb.
  { destruct (Z.leb_spec 12 (version_of (unpack_words bs))),
             (Z.ltb_spec (version_of (unpack_words bs)) 12); simpl; lia || reflexivity. }
  specialize (Hr Hb). exact Hr.
Qed.

End DecoderFacts.

(** X9.  A status packet decodes exactly when it is 18 bytes long, each of
    its nine words is negative, its version tag is 10 to 13, and the
    calendar conversion accepts its date. *)
Theorem StatusPacket_Ok_iff (timestamp2epoch : epoch_fn) (bs : list byte)
    (sp : status) :
  StatusPacket timestamp2epoch bs = Ok sp <->
  length bs = 18%nat /\
  (forall k, (k < 9)%nat -> word (unpack_words bs) k < 0) /\
  10 <= version_of (unpack_words bs) <= 13 /\
  calc_epoch timestamp2epoch
    (decode_1x (12 <=? version_of (unpack_words bs))
               (version_of (unpack_words bs)) (unpack_words bs)) = Ok sp.
Proof. apply StatusPacket_Ok_spec. Qed.

Lemma StatusPacket_Ok_iff_witness :
  exists sp, StatusPacket calendar_to_epoch (status_bytes 2 4) = Ok sp.
Proof.
  eexists. apply (StatusPacket_Ok_iff calendar_to_epoch (status_bytes 2 4)).
  split; [reflexivity|]. split.
  - intros k Hk. do 9 (destruct k as [|k]; [reflexivity|]). lia.
  - split; [vm_compute; split; discriminate|]. vm_compute. reflexivity.
Defined.



(** [decode_12] cannot fail for a phase difference a status packet can
    carry. *)
Lemma decode_12_Ok (w : list Z) (pd : Z) :
  -32767 <= pd <= 32767 -> exists f, decode_12 w pd = Ok f.
Proof.
  intros Hpd. unfold decode_12.
  assert (exists s m e, f_of (25000000 + pd) = S754_finite s m e /\
                        Z.pos m < 2 ^ 54 /\ -52 <= e <= 0) as Hrate.
  { destruct (25000000 + pd) as [|p|p] eqn:Ed; try lia.
    destruct (f_of_pos p ltac:(lia)) as (m & e & -> & Hm & He).
    exists false, m, e. split; [reflexivity|]. split; lia. }
  pose proof (fdiv_1e9_bound _ Hrate) as Hperiod.
  unfold float_div_int.
  rewrite (float_of_int_fbound (25000000 + pd) 54 (-52) 0)
    by (right; exact Hrate).
  cbn [rbind]. rewrite (proj2 (Z.eqb_neq (25000000 + pd) 0)) by lia.
  pose proof (land_ones_bound (word w 0) 11 ltac:(lia)) as Ht.
  change (Z.ones 11) with 2047 in Ht.
  pose proof (f_of_bound (Z.land (word w 0) 2047) ltac:(lia)) as Hticks.
  unfold nano_of. rewrite (float_of_int_fbound _ _ _ _ Hticks). cbn [rbind].
  destruct (int_of_float_Ok _
              (fmul_bound _ _ _ _ _ _ _ _ Hticks Hperiod ltac:(lia) ltac:(lia)
                          ltac:(lia) ltac:(lia))) as [t Ht'].
  rewrite Ht'. cbn [rbind].
  pose proof (land_ones_bound (word w 2) 8 ltac:(lia)) as Hm.
  change (Z.ones 8) with 255 in Hm.
  pose proof (f_of_bound (Z.land (word w 2) 255) ltac:(lia)) as Hcode.
  unfold power_of. rewrite (float_of_int_fbound _ _ _ _ Hcode). cbn [rbind].
  eauto.
Qed.

(** X11.  The data packets that follow a decoded status packet, read with
    its version and phase difference: a packet with the right sign pattern
    never fails, and its fields are set exactly for versions 12 and 10. *)
Theorem data_follows_status (timestamp2epoch : epoch_fn)
    (sbytes dbytes : list byte) (sp : status) (ws : list Z) :
  StatusPacket timestamp2epoch sbytes = Ok sp ->
  struct_unpack_h 3 dbytes = Ok ws -> data_pattern_ok ws = true ->
  exists d,
    DataPacket dbytes (sp_version sp) (sp_phaseDiff sp) = Ok d /\
    (is_Some (dp_fields d) <-> sp_version sp = 12 \/ sp_version sp = 10).
Proof.
  intros Hs Hu Hp. apply StatusPacket_in_range in Hs as (Hv & Hr).
  destruct Hr as (_ & _ & _ & _ & _ & _ & _ & _ & _ & Hpd & _).
  unfold DataPacket. rewrite Hu. cbn [rbind]. rewrite Hp. cbn [negb].
  unfold data_decode.
  destruct (Z.eqb_spec (sp_version sp) 12) as [E|E];
    [|destruct (Z.eqb_spec (sp_version sp) 10) as [E'|E']]; cbn [orb].
  - destruct (decode_12_Ok ws (sp_phaseDiff sp) Hpd) as [f ->]. cbn [rbind].
    eexists. split; [reflexivity|]. cbn [dp_fields]. split; [auto|eauto].
  - destruct (decode_12_Ok ws (sp_phaseDiff sp) Hpd) as [f ->]. cbn [rbind].
    eexists. split; [reflexivity|]. cbn [dp_fields]. split; [auto|eauto].
  - cbn [rbind]. eexists. split; [reflexivity|]. cbn [dp_fields].
    split; [intros [x Hx]; discriminate|intros [?|?]; contradiction].
Qed.

Lemma data_follows_status_witness :
  exists sp d,
    StatusPacket calendar_to_epoch (status_bytes 2 4) = Ok sp /\
    DataPacket data_bytes (sp_version sp) (sp_phaseDiff sp) = Ok d /\
    (is_Some (dp_fields d) <-> sp_version sp = 12 \/ sp_version sp = 10).
Proof.
  destruct (data_follows_status calendar_to_epoch (status_bytes 2 4) data_bytes
              (set_epoch sample_status 1592190122) (unpack_words data_bytes))
    as [d Hd].
  - vm_compute. reflexivity.
  - reflexivity.
  - vm_compute. reflexivity.
  - exists (set_epoch sample_status 1592190122), d.
    split; [vm_compute; reflexivity|exact Hd].
Defined.









End CodecFacts.

(** ** Decimation *)

Module DecimateFacts.
Import RawIO FrameFacts.
Local Open Scope result_scope.

Lemma SFltb_irrefl (a : spec_float) : SFltb a a = false.
Proof.
  unfold SFltb. destruct a as [[]|[]| |[] m e]; simpl; try reflexivity;
    rewrite Z.compare_refl;
    change (Pos.compare_cont Eq m m) with (Pos.compare m m);
    rewrite Pos.compare_refl; reflexivity.
Qed.

Lemma SFltb_trans (a b c : spec_float) :
  SFltb a b = true -> SFltb b c = true -> SFltb a c = true.
Proof.
  unfold SFltb.
  destruct a as [sa|sa| |sa ma ea], b as [sb|sb| |sb mb eb], c as [sc|sc| |sc mc ec];
    simpl; try discriminate; try (destruct sa, sb, sc; simpl; congruence).
  destruct sa, sb, sc; simpl; try congruence;
    change (Pos.compare_cont Eq ?x ?y) with (Pos.compare x y);
    destruct (Z.compare_spec ea eb), (Z.compare_spec eb ec), (Z.compare_spec ea ec);
    try lia; try congruence; simpl;
    destruct (Pos.compare_spec ma mb), (Pos.compare_spec mb mc),
             (Pos.compare_spec ma mc); simpl; try lia; try congruence.
Qed.

Section Decimate.
Variable arr : list sample.
Local Abbreviation len := (Z.of_nat (length arr)).

Lemma window_max_spec (bound i0 : Z) : forall (fuel : nat) (i : Z) (m : sample),
  0 <= i0 <= i -> i < len -> (Z.to_nat (len - i) <= fuel)%nat ->
  (forall j c, i0 <= j < i -> arr !! Z.to_nat j = Some c ->
     s_nano c < bound /\ SFltb (s_power m) (s_power c) = false) ->
  (i0 < i -> exists j, i0 <= j < i /\ arr !! Z.to_nat j = Some m) ->
  (i0 = i -> arr !! Z.to_nat i = Some m /\ s_nano m < bound) ->
  exists i' m',
    window_max fuel arr bound i m = Some (Ok (i', m')) /\
    i <= i' <= len /\ i0 < i' /\
    (forall j c, i0 <= j < i' -> arr !! Z.to_nat j = Some c ->
       s_nano c < bound /\ SFltb (s_power m') (s_power c) = false) /\
    (exists j, i0 <= j < i' /\ arr !! Z.to_nat j = Some m') /\
    (i' < len -> exists c, arr !! Z.to_nat i' = Some c /\ bound <= s_nano c).
Proof.
  induction fuel as [|fuel IH]; intros i m Hi Hlen Hfuel Hinv Hin Hfirst; [lia|].
  cbn [window_max].
  destruct (np_index_in_range arr i ltac:(lia)) as (c & -> & Hc). cbn [fbind].
  destruct (Z.ltb_spec (s_nano c) bound) as [Hlt|Hge].
  - set (m2 := if fgt (s_power c) (s_power m) then c else m).
    assert (forall j c', i0 <= j < i + 1 -> arr !! Z.to_nat j = Some c' ->
              s_nano c' < bound /\ SFltb (s_power m2) (s_power c') = false) as Hinv2.
    { intros j c' Hj Hc'. destruct (Z.eq_dec j i) as [->|Hne].
      - rewrite Hc in Hc'. injection Hc' as <-. split; [exact Hlt|].
        unfold m2, fgt. destruct (SFltb (s_power m) (s_power c)) eqn:E;
          [apply SFltb_irrefl|exact E].
      - destruct (Hinv j c' ltac:(lia) Hc') as [H1 H2]. split; [exact H1|].
        unfold m2, fgt. destruct (SFltb (s_power m) (s_power c)) eqn:E; [|exact H2].
        destruct (SFltb (s_power c) (s_power c')) eqn:E'; [|reflexivity].
        rewrite (SFltb_trans _ _ _ E E') in H2. discriminate. }
    assert (exists j, i0 <= j < i + 1 /\ arr !! Z.to_nat j = Some m2) as Hin2.
    { unfold m2. destruct (fgt (s_power c) (s_power m)).
      - exists i. split; [lia|exact Hc].
      - destruct (Z.eq_dec i0 i) as [E|E].
        + destruct (Hfirst E) as [H _]. exists i. split; [lia|exact H].
        + destruct (Hin ltac:(lia)) as (j & Hj & Hm). exists j. split; [lia|exact Hm]. }
    destruct (Z.geb_spec (i + 1) len) as [Hend|Hmore].
    + exists (i + 1), m2. split; [reflexivity|]. split; [lia|]. split; [lia|].
      split; [exact Hinv2|]. split; [exact Hin2|]. lia.
    + destruct (IH (i + 1) m2) as (i' & m' & Hw & Hi' & Hi0 & H1 & H2 & H3);
        try lia; auto.
      exists i', m'. split; [exact Hw|]. split; [lia|]. auto.
  - assert (i0 < i) as Hlt.
    { destruct (Z.eq_dec i0 i) as [E|E]; [|lia].
      destruct (Hfirst E) as [H1 H2]. rewrite Hc in H1. injection H1 as ->. lia. }
    exists i, m. split; [reflexivity|]. split; [lia|]. split; [exact Hlt|].
    split; [exact Hinv|]. split; [auto|]. intros _. eauto.
Qed.

Lemma window_index_in (W nano : Z) (c : sample) :
  0 < W -> 0 <= nano -> nano mod W = 0 -> nano <= s_nano c < nano + W ->
  window_index W c = nano / W /\ (window_index W c + 1) * W = nano + W.
Proof.
  intros HW Hn Hmod Hc. unfold window_index.
  pose proof (Z.div_mod nano W ltac:(lia)) as Hdm. rewrite Hmod in Hdm.
  assert (s_nano c / W = nano / W) as ->.
  { symmetry. apply (Z.div_unique _ _ _ (s_nano c - nano)); lia. }
  split; [reflexivity|]. lia.
Qed.

Lemma window_index_ge (W nano : Z) (c : sample) :
  0 < W -> 0 <= nano -> nano mod W = 0 -> nano <= s_nano c ->
  nano + W <= (window_index W c + 1) * W.
Proof.
  intros HW Hn Hmod Hc. unfold window_index.
  pose proof (Z.div_mod nano W ltac:(lia)) as Hdm. rewrite Hmod in Hdm.
  pose proof (Z.div_le_mono nano (s_nano c) W HW Hc). nia.
Qed.

Lemma decimate_loop_spec (W : Z) : 0 < W -> forall (fuel : nat) (nano i : Z) (out : list sample),
  0 <= i <= len ->
  (Z.to_nat ((10^9 - nano) / W) + Z.to_nat (len - i) < fuel)%nat ->
  exists out',
    decimate_loop fuel arr W nano i out = Some (Ok (out ++ out')) /\
    sublist out' (drop (Z.to_nat i) arr) /\
    (time_ordered arr -> 0 <= nano -> nano mod W = 0 ->
     (forall j c, i <= j -> arr !! Z.to_nat j = Some c -> nano <= s_nano c) ->
     StronglySorted (fun a b => window_index W a < window_index W b) out' /\
     (forall m, m ∈ out' -> (window_index W m + 1) * W < 10^9) /\
     (forall j c, i <= j -> arr !! Z.to_nat j = Some c ->
        (window_index W c + 1) * W < 10^9 ->
        exists m, m ∈ out' /\ window_index W m = window_index W c /\
                  SFltb (s_power m) (s_power c) = false)).
Proof.
  intros HW. induction fuel as [|fuel IH]; intros nano i out Hi Hfuel; [lia|].
  cbn [decimate_loop].
  destruct (Z.ltb_spec (nano + W) (10^9)) as [Hwin|Hwin]; cbn [andb].
  2:{ (* the remaining windows end at or after 1e9 *)
      exists []. rewrite app_nil_r. split; [reflexivity|]. split; [apply sublist_nil_l|].
      intros Hord Hn Hmod Hlo. split; [constructor|]. split.
      - intros m Hm. inversion Hm.
      - intros j c Hj Hc Hcw. exfalso.
        pose proof (window_index_ge W nano c HW Hn Hmod (Hlo j c Hj Hc)). lia. }
  destruct (Z.ltb_spec i len) as [Hlen|Hlen].
  2:{ exists []. rewrite app_nil_r. split; [reflexivity|]. split; [apply sublist_nil_l|].
      intros Hord Hn Hmod Hlo. split; [constructor|]. split.
      - intros m Hm. inversion Hm.
      - intros j c Hj Hc Hcw. exfalso. apply lookup_lt_Some in Hc. lia. }
  destruct (np_index_in_range arr i ltac:(lia)) as (c & Hidx & Hc). rewrite Hidx.
  cbn [fbind].
  assert ((10^9 - nano) / W = (10^9 - (nano + W)) / W + 1) as Hq.
  { replace (10^9 - nano) with (10^9 - (nano + W) + 1 * W) by lia.
    apply Z.div_add. lia. }
  assert (0 <= (10^9 - (nano + W)) / W) as Hq0 by (apply Z.div_pos; lia).
  destruct (Z.geb_spec (s_nano c) (nano + W)) as [Hskip|Hhere].
  - (* nothing in this window: move to the next *)
    destruct (IH (nano + W) i out Hi ltac:(lia)) as (out' & Hloop & Hsub & Hrest).
    exists out'. split; [exact Hloop|]. split; [exact Hsub|].
    intros Hord Hn Hmod Hlo. apply Hrest; auto; try lia.
    + rewrite <- Zplus_mod_idemp_r, Z.mod_same, Z.add_0_r by lia. exact Hmod.
    + intros j c' Hj Hc'. destruct Hord as [_ Hord].
      pose proof (Hord (Z.to_nat i) (Z.to_nat j) c c' ltac:(lia) Hc Hc'). lia.
  - cbn [fbind].
    destruct (window_max_spec (nano + W) i (S (length arr)) i c)
      as (i' & m' & Hw & Hi' & Hi0 & Hall & (j0 & Hj0 & Hm') & Hstop); try lia.
    { intros _. split; [exact Hc|lia]. }
    rewrite Hw.
    destruct (IH nano i' (out ++ [m']) ltac:(lia) ltac:(lia))
      as (out' & Hloop & Hsub & Hrest).
    exists (m' :: out'). split; [rewrite Hloop, <- app_assoc; reflexivity|]. split.
    + (* the maximum sits between i and i', the rest comes later *)
      assert (drop (Z.to_nat i) arr
              = take (Z.to_nat (j0 - i)) (drop (Z.to_nat i) arr)
                  ++ m' :: drop (Z.to_nat (j0 + 1)) arr) as ->.
      { rewrite <- (take_drop (Z.to_nat (j0 - i)) (drop (Z.to_nat i) arr)) at 1.
        f_equal. rewrite drop_drop.
        replace (Z.to_nat i + Z.to_nat (j0 - i))%nat with (Z.to_nat j0) by lia.
        rewrite (drop_S _ m' _ Hm'). f_equal. f_equal. lia. }
      apply sublist_inserts_l. constructor.
      replace (drop (Z.to_nat i') arr)
        with (drop (Z.to_nat (i' - (j0 + 1))) (drop (Z.to_nat (j0 + 1)) arr)) in Hsub
        by (rewrite drop_drop; f_equal; lia).
      etransitivity; [exact Hsub|apply sublist_drop].
    + intros Hord Hn Hmod Hlo.
      assert (forall j c', i' <= j -> arr !! Z.to_nat j = Some c' ->
                nano + W <= s_nano c') as Hlater.
      { intros j c' Hj Hc'. pose proof (lookup_lt_Some _ _ _ Hc') as Hjl.
        destruct (Hstop ltac:(lia)) as (c2 & Hc2 & Hb).
        destruct Hord as [_ Hord].
        pose proof (Hord (Z.to_nat i') (Z.to_nat j) c2 c' ltac:(lia) Hc2 Hc'). lia. }
      destruct (Hrest Hord Hn Hmod) as (Hsorted & Hproc & Hmax).
      { intros j c' Hj Hc'. pose proof (Hlater j c' Hj Hc'). lia. }
      assert (forall j c', i <= j < i' -> arr !! Z.to_nat j = Some c' ->
                nano <= s_nano c' < nano + W) as Hinwin.
      { intros j c' Hj Hc'. split; [apply (Hlo j c'); [lia|exact Hc']|].
        apply (Hall j c' Hj Hc'). }
      destruct (window_index_in W nano m' HW Hn Hmod (Hinwin j0 m' Hj0 Hm'))
        as [Hwm Hwm'].
      assert (forall x, x ∈ out' -> nano + W <= s_nano x) as Hout'.
      { intros x Hx. apply (sublist_subseteq _ _ Hsub) in Hx.
        apply list_elem_of_lookup in Hx as [k Hk]. rewrite lookup_drop in Hk.
        apply (Hlater (Z.of_nat (Z.to_nat i' + k))); [lia|].
        rewrite Nat2Z.id. exact Hk. }
      split; [|split].
      * constructor; [exact Hsorted|]. apply Forall_forall. intros x Hx.
        pose proof (window_index_ge W (nano + W) x HW ltac:(lia)) as Hx'.
        rewrite <- Zplus_mod_idemp_r, Z.mod_same, Z.add_0_r in Hx' by lia.
        specialize (Hx' Hmod (Hout' x Hx)). nia.
      * intros m Hm. apply elem_of_cons in Hm as [->|Hm]; [lia|auto].
      * intros j c' Hj Hc' Hcw. destruct (Z.lt_ge_cases j i') as [Hji|Hji].
        -- exists m'. split; [left|]. 
           destruct (window_index_in W nano c' HW Hn Hmod (Hinwin j c' ltac:(lia) Hc'))
             as [Hwc _].
           split; [congruence|]. apply (Hall j c'); [lia|exact Hc'].
        -- destruct (Hmax j c' Hji Hc' Hcw) as (m & Hm & Hmw & Hmp).
           exists m. split; [right; exact Hm|]. auto.
Qed.

End Decimate.

(** [decimate] on a frame, from its loop. *)
Lemma decimate_cells (f : frame) (h : heap) (arr out : list sample)
    (fuel : nat) (W : Z) :
  cells_of f h = Some arr ->
  decimate_loop fuel arr W 0 0 [] = Some (Ok out) ->
  exists f' h',
    decimate fuel f W h = Some (Ok (f', h')) /\
    cells_of f' h' = Some out /\
    statusPacket f' = statusPacket f /\
    (forall l cells, h !! l = Some cells -> h' !! l = Some cells).
Proof.
  unfold cells_of, decimate. intros Hc Hloop.
  destruct (_arr f) as [l|] eqn:El; [|discriminate]. simpl in Hc.
  assert (forall out',
    out' = out ->
    exists f' h',
      (let '(l', h'0) := alloc h out' in
       Some (Ok (update (Frame (statusPacket f) (Some l') (_view f)), h'0)))
        = Some (Ok (f', h')) /\
      (_arr f' ≫= (fun l0 => h' !! l0)) = Some out /\
      statusPacket f' = statusPacket f /\
      (forall l cells, h !! l = Some cells -> h' !! l = Some cells)) as Hfin.
  { intros out' ->. destruct (alloc h out) as [l0 h0] eqn:Ea.
    apply alloc_spec in Ea as [Hfresh ->].
    eexists _, _. split; [reflexivity|]. cbn [update _arr statusPacket].
    split; [simpl; apply lookup_insert_eq|]. split; [reflexivity|].
    intros l1 cells Hl1. rewrite lookup_insert_ne; [exact Hl1|congruence]. }
  destruct (Z.ltb_spec (0 + W) (10^9)) as [Hw|Hw].
  - rewrite Hc, Hloop. apply Hfin. reflexivity.
  - apply Hfin. destruct fuel as [|fuel]; [discriminate|].
    cbn [decimate_loop] in Hloop.
    rewrite (proj2 (Z.ltb_ge (0 + W) (10^9))) in Hloop by lia.
    cbn [andb] in Hloop. congruence.
Qed.

(** X13.  With a positive window length [decimate] ends, raises nothing
    and gives the frame a new array whose cells are cells of the old one, in
    their order; no array that existed before is changed. *)
Theorem decimate_returns (f : frame) (h : heap) (arr : list sample) (W : Z) :
  0 < W -> cells_of f h = Some arr ->
  exists f' h' out,
    decimate (decimate_fuel (length arr) W) f W h = Some (Ok (f', h')) /\
    cells_of f' h' = Some out /\ sublist out arr /\
    forall l cells, h !! l = Some cells -> h' !! l = Some cells.
Proof.
  intros HW Hc.
  destruct (decimate_loop_spec arr W HW (decimate_fuel (length arr) W) 0 0 [])
    as (out & Hloop & Hsub & _).
  - lia.
  - unfold decimate_fuel. rewrite Z.sub_0_r, Z.sub_0_r. lia.
  - destruct (decimate_cells f h arr out _ W Hc Hloop) as (f' & h' & Hd & Hc' & _ & Hold).
    exists f', h', out. rewrite drop_0 in Hsub. auto.
Qed.

(** X14.  On cells in time order [decimate] keeps one cell for each window
    that holds any and ends before 1e9: the kept cells are in strictly
    increasing windows, and no cell of a window has more power than the one
    kept for it. *)
Theorem decimate_keeps_window_maxima (f : frame) (h : heap) (arr : list sample)
    (W : Z) :
  0 < W -> cells_of f h = Some arr -> time_ordered arr ->
  exists f' h' out,
    decimate (decimate_fuel (length arr) W) f W h = Some (Ok (f', h')) /\
    cells_of f' h' = Some out /\
    StronglySorted (fun a b => window_index W a < window_index W b) out /\
    (forall m, m ∈ out -> m ∈ arr /\ (window_index W m + 1) * W < 10^9) /\
    (forall c, c ∈ arr -> (window_index W c + 1) * W < 10^9 ->
       exists m, m ∈ out /\ window_index W m = window_index W c /\
                 SFltb (s_power m) (s_power c) = false).
Proof.
  intros HW Hc Hord.
  destruct (decimate_loop_spec arr W HW (decimate_fuel (length arr) W) 0 0 [])
    as (out & Hloop & Hsub & Hrest).
  - lia.
  - unfold decimate_fuel. rewrite Z.sub_0_r, Z.sub_0_r. lia.
  - destruct (decimate_cells f h arr out _ W Hc Hloop) as (f' & h' & Hd & Hc' & _).
    rewrite drop_0 in Hsub.
    destruct (Hrest Hord ltac:(lia) (Z.mod_0_l W ltac:(lia))) as (Hs & Hp & Hm).
    { intros j c _ Hj. apply (proj1 Hord). eapply list_elem_of_lookup_2, Hj. }
    exists f', h', out. split; [exact Hd|]. split; [exact Hc'|]. split; [exact Hs|].
    split.
    + intros m Hin. split; [apply (sublist_subseteq _ _ Hsub), Hin|auto].
    + intros c Hin Hw. apply list_elem_of_lookup in Hin as [k Hk].
      apply (Hm (Z.of_nat k)); [lia| |exact Hw]. rewrite Nat2Z.id. exact Hk.
Qed.

(** With a window length of zero or less the first test of the loop body
    holds for ever. *)
Lemma decimate_loop_diverges (arr : list sample) (W : Z) (c : sample) :
  W <= 0 -> arr !! 0%nat = Some c -> W <= s_nano c ->
  forall (fuel : nat) (nano : Z) (out : list sample),
    nano <= 0 -> decimate_loop fuel arr W nano 0 out = None.
Proof.
  intros HW Hc Hn. induction fuel as [|fuel IH]; intros nano out Hnano; [reflexivity|].
  cbn [decimate_loop].
  rewrite (proj2 (Z.ltb_lt (nano + W) (10^9))) by lia.
  pose proof (lookup_lt_Some _ _ _ Hc) as Hlen.
  rewrite (proj2 (Z.ltb_lt 0 (Z.of_nat (length arr)))) by lia. cbn [andb].
  rewrite np_index_nonneg by lia. change (Z.to_nat 0) with 0%nat. rewrite Hc.
  cbn [fbind]. rewrite (proj2 (Z.geb_le (s_nano c) (nano + W))) by lia.
  apply IH. lia.
Qed.

(** X15.  With a window length of zero or less, [decimate] on a frame whose
    first cell is not before the window length never returns: no amount of
    fuel is enough. *)
Theorem decimate_never_ends (f : frame) (h : heap) (c : sample)
    (rest : list sample) (W : Z) :
  W <= 0 -> cells_of f h = Some (c :: rest) -> W <= s_nano c ->
  forall fuel, decimate fuel f W h = None.
Proof.
  intros HW Hc Hn fuel. unfold cells_of in Hc. unfold decimate.
  rewrite (proj2 (Z.ltb_lt (0 + W) (10^9))) by lia.
  destruct (_arr f) as [l|]; [|discriminate]. simpl in Hc. rewrite Hc.
  rewrite (decimate_loop_diverges (c :: rest) W c HW eq_refl Hn fuel 0 [] ltac:(lia)).
  reflexivity.
Qed.

Lemma decimate_returns_witness :
  exists f' h' out,
    decimate (decimate_fuel (length [cell_a; cell_b]) 80000) frame1 80000 heap1
      = Some (Ok (f', h')) /\
    cells_of f' h' = Some out /\ sublist out [cell_a; cell_b] /\
    forall l cells, heap1 !! l = Some cells -> h' !! l = Some cells.
Proof.
  apply (decimate_returns frame1 heap1 [cell_a; cell_b] 80000).
  - lia.
  - reflexivity.
Defined.

Lemma time_ordered_sample : time_ordered [cell_a; cell_b].
Proof.
  split.
  - intros c Hc. apply elem_of_cons in Hc as [->|Hc]; [simpl; lia|].
    apply elem_of_cons in Hc as [->|Hc]; [simpl; lia|]. inversion Hc.
  - intros j k a b Hjk Ha Hb.
    destruct j as [|[|j]], k as [|[|k]]; simpl in Ha, Hb; try discriminate; try lia;
      injection Ha as <-; injection Hb as <-; simpl; lia.
Defined.

Lemma decimate_keeps_window_maxima_witness :
  exists f' h' out,
    decimate (decimate_fuel (length [cell_a; cell_b]) 80000) frame1 80000 heap1
      = Some (Ok (f', h')) /\
    cells_of f' h' = Some out /\
    StronglySorted (fun a b => window_index 80000 a < window_index 80000 b) out /\
    (forall m, m ∈ out ->
       m ∈ [cell_a; cell_b] /\ (window_index 80000 m + 1) * 80000 < 10^9) /\
    (forall c, c ∈ [cell_a; cell_b] -> (window_index 80000 c + 1) * 80000 < 10^9 ->
       exists m, m ∈ out /\ window_index 80000 m = window_index 80000 c /\
                 SFltb (s_power m) (s_power c) = false).
Proof.
  apply (decimate_keeps_window_maxima frame1 heap1 [cell_a; cell_b] 80000).
  - lia.
  - reflexivity.
  - exact time_ordered_sample.
Defined.

Lemma decimate_never_ends_witness : decimate 1000 frame1 0 heap1 = None.
Proof.
  apply (decimate_never_ends frame1 heap1 cell_a [cell_b] 0).
  - lia.
  - reflexivity.
  - simpl. lia.
Defined.

End DecimateFacts.

(** ** Reading a frame *)

Module ReadFrameFacts.
Import RawIO RawIOFacts FrameFacts ScanFacts CodecFacts.
Local Open Scope result_scope.

(** *** The magnitude of the floats of [decode_12] *)

Lemma shr_1_div (mrs : shr_record) :
  0 <= shr_m mrs -> shr_m (shr_1 mrs) = shr_m mrs / 2.
Proof.
  destruct mrs as [m r s]. destruct m as [|[p|p|]|p]; cbn [shr_1 shr_m];
    intros H; try lia.
  - reflexivity.
  - apply (Z.div_unique _ _ _ 1); lia.
  - apply (Z.div_unique _ _ _ 0); lia.
  - reflexivity.
Qed.

Lemma iter_shr_div (p : positive) : forall mrs : shr_record,
  0 <= shr_m mrs ->
  shr_m (SpecFloat.iter_pos shr_1 p mrs) = shr_m mrs / 2 ^ Z.pos p.
Proof.
  assert (forall x : shr_record, 0 <= shr_m x -> 0 <= shr_m (shr_1 x)) as Hnn.
  { intros x Hx. rewrite shr_1_div by exact Hx. apply Z.div_pos; lia. }
  induction p as [p IH|p IH|]; intros mrs Hm; cbn [SpecFloat.iter_pos].
  - rewrite IH, IH, shr_1_div by (rewrite ?IH; auto; apply Z.div_pos; auto; lia).
    rewrite !Z.div_div by lia. f_equal.
    replace (Z.pos p~1) with (1 + Z.pos p + Z.pos p) by lia.
    rewrite !Z.pow_add_r by lia. ring.
  - rewrite IH, IH by (rewrite ?IH; auto; apply Z.div_pos; auto; lia).
    rewrite Z.div_div by lia. f_equal.
    replace (Z.pos p~0) with (Z.pos p + Z.pos p) by lia.
    rewrite Z.pow_add_r by lia. reflexivity.
  - rewrite shr_1_div by exact Hm. reflexivity.
Qed.

Lemma shr_fexp_value (m e : Z) (l : location) :
  0 <= m ->
  let n := Z.max 0 (fexp prec emax (Zdigits2 m + e) - e) in
  shr_m (fst (shr_fexp prec emax m e l)) = m / 2 ^ n /\
  snd (shr_fexp prec emax m e l) = e + n.
Proof.
  intros Hm n. unfold shr_fexp, shr. subst n.
  assert (shr_m (shr_record_of_loc m l) = m) as Hrec by (destruct l as [|[]]; reflexivity).
  destruct (fexp prec emax (Zdigits2 m + e) - e) as [|p|p] eqn:E; cbn [fst snd].
  - rewrite Hrec. simpl. rewrite Z.div_1_r. split; lia.
  - rewrite iter_shr_div by (rewrite Hrec; exact Hm). rewrite Hrec.
    rewrite Z.max_r by lia. split; reflexivity.
  - rewrite Hrec. rewrite Z.max_l by lia. simpl. rewrite Z.div_1_r. split; lia.
Qed.

Lemma Zdigits2_bound (m D : Z) : 0 <= m <= 2 ^ D -> 0 <= D -> Zdigits2 m <= D + 1.
Proof.
  intros Hm HD. apply Zdigits2_le; [|lia].
  rewrite Z.pow_add_r by lia. lia.
Qed.

(** Rounding does not leave [[0, 2^k]]. *)
Lemma binary_round_aux_mag (sx : bool) (mx ex : Z) (lx : location) (k : Z) :
  0 <= mx < 2 ^ (k - ex) -> ex <= k -> -1074 <= k <= 971 ->
  fmag sx k (binary_round_aux prec emax sx mx ex lx).
Proof.
  intros Hm He Hk. unfold binary_round_aux.
  pose proof (shr_fexp_value mx ex lx ltac:(lia)) as [Hm1 He1].
  destruct (shr_fexp prec emax mx ex lx) as [mrs1 e1]. cbn [fst snd] in Hm1, He1.
  set (n1 := Z.max 0 (fexp prec emax (Zdigits2 mx + ex) - ex)) in *.
  assert (0 <= Zdigits2 mx <= k - ex) as Hd.
  { split; [destruct mx; simpl; lia|]. apply Zdigits2_le; lia. }
  assert (0 <= n1 <= k - ex) as Hn1 by (unfold n1, fexp, emin, prec, emax; lia).
  assert (0 <= shr_m mrs1 < 2 ^ (k - e1)) as Hb1.
  { rewrite Hm1. split; [apply Z.div_pos; lia|].
    apply Z.div_lt_upper_bound; [lia|].
    rewrite <- Z.pow_add_r by lia. replace (n1 + (k - e1)) with (k - ex) by lia. lia. }
  pose proof (round_nearest_even_bounds (shr_m mrs1) (loc_of_shr_record mrs1)) as Hr.
  set (m1 := round_nearest_even (shr_m mrs1) (loc_of_shr_record mrs1)) in *.
  pose proof (shr_fexp_value m1 e1 loc_Exact ltac:(lia)) as [Hm2 He2].
  destruct (shr_fexp prec emax m1 e1 loc_Exact) as [mrs2 e2]. cbn [fst snd] in Hm2, He2.
  set (n2 := Z.max 0 (fexp prec emax (Zdigits2 m1 + e1) - e1)) in *.
  assert (0 <= Zdigits2 m1 <= k - e1 + 1) as Hd1.
  { split; [destruct m1; simpl; lia|]. apply Zdigits2_bound; lia. }
  assert (0 <= n2 <= k - e1) as Hn2 by (unfold n2, fexp, emin, prec, emax; lia).
  assert (0 <= shr_m mrs2 <= 2 ^ (k - e2)) as Hb2.
  { rewrite Hm2. split; [apply Z.div_pos; lia|].
    apply Z.div_le_upper_bound; [lia|].
    rewrite <- Z.pow_add_r by lia. replace (n2 + (k - e2)) with (k - e1) by lia. lia. }
  destruct (shr_m mrs2) as [|p|p] eqn:E; [left; reflexivity| |lia].
  right. rewrite (proj2 (Z.leb_le e2 (emax - prec))) by (unfold emax, prec; lia).
  exists p, e2. split; [reflexivity|]. split; lia.
Qed.

(** The float of a positive integer below 2^52 is that integer. *)
Lemma f_of_pos_exact (p : positive) :
  Z.pos p < 2 ^ 52 ->
  exists m e, f_of (Z.pos p) = S754_finite false m e /\
              Z.pos m = Z.pos p * 2 ^ (- e) /\ -52 <= e <= -1.
Proof.
  intros Hp. unfold f_of, binary_normalize, binary_round, shl_align.
  pose proof (digits2_pos_gt p) as Hgt.
  pose proof (digits2_pos_le p 52 ltac:(lia) ltac:(lia)) as Hle.
  set (d := Z.pos (digits2_pos p)) in *.
  assert (fexp prec emax (d + 0) = d - 53) as ->
    by (unfold fexp, emin, prec, emax; lia).
  destruct (d - 53 - 0) as [|k|k] eqn:Ek; try lia.
  rewrite binary_round_aux_exact.
  - eexists _, _. split; [reflexivity|]. split; [|lia].
    rewrite iter_xO_value. f_equal. f_equal. lia.
  - rewrite digits2_iter_xO. fold d. lia.
  - lia.
Qed.

Lemma f_of_mag (z k : Z) :
  0 <= z < 2 ^ k -> 0 <= k <= 52 ->
  f_of z = S754_zero false \/
  exists m e, f_of z = S754_finite false m e /\ e <= -1 /\ Z.pos m < 2 ^ (k - e).
Proof.
  intros Hz Hk. destruct z as [|p|p]; [left; reflexivity| |lia]. right.
  destruct (f_of_pos_exact p) as (m & e & Hf & Hm & He).
  { pose proof (Z.pow_le_mono_r 2 k 52 ltac:(lia) ltac:(lia)). lia. }
  exists m, e. split; [exact Hf|]. split; [lia|].
  rewrite Hm. replace (k - e) with (k + - e) by lia. rewrite Z.pow_add_r by lia.
  apply Z.mul_lt_mono_pos_r; [apply Z.pow_pos_nonneg; lia|lia].
Qed.

(** The sample period is below 64 ns. *)
Lemma period_mag (pd : Z) :
  -32767 <= pd <= 32767 -> fmag false 6 (fdiv f_1e9 (f_of (25000000 + pd))).
Proof.
  intros Hpd. destruct (25000000 + pd) as [|p|p] eqn:Ep; try lia.
  destruct (f_of_pos_exact p ltac:(lia)) as (m2 & e2 & -> & Hm2 & He2).
  unfold fdiv, f_1e9, SFdiv, SFdiv_core_binary.
  change (Zdigits2 8388608000000000) with 53.
  assert (2 ^ (24 - e2) <= Z.pos m2) as Hlow.
  { rewrite Hm2. replace (24 - e2) with (24 + - e2) by lia.
    rewrite Z.pow_add_r by lia.
    apply Z.mul_le_mono_nonneg_r; [apply Z.pow_nonneg; lia|lia]. }
  assert (25 - e2 <= Zdigits2 (Z.pos m2)) as Hd2.
  { simpl. pose proof (digits2_pos_gt m2) as Hgt.
    assert (24 - e2 < Z.pos (digits2_pos m2)); [|lia].
    apply (Z.pow_lt_mono_r_iff 2); lia. }
  set (d2 := Zdigits2 (Z.pos m2)) in *.
  set (e' := Z.min (fexp prec emax (53 + -23 - (d2 + e2))) (-23 - e2)).
  assert (e' <= -48 /\ 0 <= -23 - e2 - e') as [He' Hs]
    by (unfold e', fexp, emin, prec, emax; lia).
  set (s := -23 - e2 - e') in *.
  set (m' := match s with Z.pos _ => Z.shiftl 8388608000000000 s
                        | 0 => 8388608000000000 | Z.neg _ => 0 end).
  assert (m' = 8388608000000000 * 2 ^ s) as Hm'.
  { unfold m'. destruct s as [|q|q] eqn:Es; [reflexivity| |lia].
    rewrite Z.shiftl_mul_pow2 by lia. reflexivity. }
  pose proof (Z_div_mod m' (Z.pos m2) ltac:(lia)) as Hdm.
  destruct (Z.div_eucl m' (Z.pos m2)) as [q r]. destruct Hdm as [Heq Hr].
  apply binary_round_aux_mag; [|lia|lia].
  assert (0 < 2 ^ s) by (apply Z.pow_pos_nonneg; lia).
  assert (0 < 2 ^ (24 - e2)) by (apply Z.pow_pos_nonneg; lia).
  split; [nia|].
  apply (Z.mul_lt_mono_pos_l (2 ^ (24 - e2))); [lia|].
  rewrite <- Z.pow_add_r by lia. replace (24 - e2 + (6 - e')) with (53 + s) by lia.
  rewrite Z.pow_add_r by lia.
  assert (2 ^ (24 - e2) * q <= m') by nia.
  assert (8388608000000000 < 2 ^ 53) by reflexivity. nia.
Qed.

Lemma fmul_mag (x y : spec_float) (a b : Z) :
  (x = S754_zero false \/
   exists m e, x = S754_finite false m e /\ e <= -1 /\ Z.pos m < 2 ^ (a - e)) ->
  fmag false b y -> 0 <= a -> -1074 <= a + b <= 971 ->
  fmag false (a + b) (fmul x y).
Proof.
  intros [->|(mx & ex & -> & Hex & Hmx)] [->|(my & ey & -> & Hey & Hmy)] Ha Hab;
    try (left; reflexivity).
  unfold fmul, SFmul. cbn [xorb].
  apply binary_round_aux_mag; [|lia|lia].
  split; [lia|]. rewrite Pos2Z.inj_mul.
  replace (a + b - (ex + ey)) with ((a - ex) + (b - ey)) by lia.
  rewrite Z.pow_add_r by lia.
  assert (0 < 2 ^ (a - ex)) by (apply Z.pow_pos_nonneg; lia). nia.
Qed.

Lemma int_of_float_mag (f : spec_float) (k : Z) :
  fmag false k f -> 0 <= k ->
  exists t, int_of_float f = Ok t /\ 0 <= t <= 2 ^ k.
Proof.
  intros [->|(m & e & -> & He & Hm)] Hk.
  - exists 0. split; [reflexivity|]. split; [lia|apply Z.pow_nonneg; lia].
  - eexists. split; [reflexivity|]. cbn [cond_Zopp].
    destruct (Z.le_gt_cases 0 e) as [Hpos|Hneg].
    + rewrite Z.shiftl_mul_pow2 by lia.
      assert (0 < 2 ^ e) by (apply Z.pow_pos_nonneg; lia).
      assert (2 ^ k = 2 ^ (k - e) * 2 ^ e) as ->
        by (rewrite <- Z.pow_add_r by lia; f_equal; lia).
      split; [lia|]. nia.
    + rewrite Z.shiftl_div_pow2 by lia.
      assert (0 < 2 ^ (- e)) by (apply Z.pow_pos_nonneg; lia).
      split; [apply Z.div_pos; lia|].
      apply Z.div_le_upper_bound; [lia|].
      rewrite <- Z.pow_add_r by lia. replace (- e + k) with (k - e) by lia. exact Hm.
Qed.

Lemma int16_range (lo hi : byte) : -32768 <= int16 lo hi <= 32767.
Proof.
  unfold int16, byte_to_Z.
  pose proof (Byte.to_N_bounded lo). pose proof (Byte.to_N_bounded hi).
  destruct (Z.ltb_spec (Z.of_N (Byte.to_N lo) + 256 * Z.of_N (Byte.to_N hi)) 32768); lia.
Qed.

Lemma unpack_words_range (bs : list byte) :
  Forall (fun w => -32768 <= w <= 32767) (unpack_words bs).
Proof.
  assert (forall n (l : list byte), (length l <= n)%nat ->
            Forall (fun w => -32768 <= w <= 32767) (unpack_words l)) as H.
  { induction n as [|n IH]; intros [|lo [|hi rest]] Hl; simpl in *;
      try constructor; try lia.
    - apply int16_range.
    - apply IH. lia. }
  apply (H (length bs)). lia.
Qed.

Lemma word_range (bs : list byte) (k : nat) :
  -32768 <= word (unpack_words bs) k <= 32767.
Proof.
  unfold word. destruct (unpack_words bs !! k) as [w|] eqn:E; simpl; [|lia].
  pose proof (unpack_words_range bs) as H. rewrite Forall_forall in H.
  apply H. eapply list_elem_of_lookup_2, E.
Qed.

Lemma decode_12_bounds (w : list Z) (pd : Z) :
  -32767 <= pd <= 32767 ->
  exists f, decode_12 w pd = Ok f /\
    0 <= window f <= 16383 /\
    window f * 80000 <= nano f <= window f * 80000 + 131072 /\
    aboveThresh f = Z.lor (Z.shiftr (word w 0) 11)
                          (Z.shiftr (Z.land (word w 2) 0xFF00) 4).
Proof.
  intros Hpd. unfold decode_12.
  assert (exists s m e, f_of (25000000 + pd) = S754_finite s m e /\
                        Z.pos m < 2 ^ 54 /\ -52 <= e <= 0) as Hrate.
  { destruct (25000000 + pd) as [|p|p] eqn:Ed; try lia.
    destruct (f_of_pos p ltac:(lia)) as (m & e & -> & Hm & He).
    exists false, m, e. split; [reflexivity|]. split; lia. }
  unfold float_div_int.
  rewrite (float_of_int_fbound (25000000 + pd) 54 (-52) 0)
    by (right; exact Hrate).
  cbn [rbind]. rewrite (proj2 (Z.eqb_neq (25000000 + pd) 0)) by lia.
  pose proof (land_ones_bound (word w 0) 11 ltac:(lia)) as Ht.
  change (Z.ones 11) with 2047 in Ht.
  pose proof (f_of_bound (Z.land (word w 0) 2047) ltac:(lia)) as Hticks.
  unfold nano_of. rewrite (float_of_int_fbound _ _ _ _ Hticks). cbn [rbind].
  destruct (int_of_float_mag _ 17
              (fmul_mag _ _ 11 6 (f_of_mag _ 11 Ht ltac:(lia)) (period_mag pd Hpd)
                        ltac:(lia) ltac:(lia)) ltac:(lia)) as (t & Ht' & Hrange).
  rewrite Ht'. cbn [rbind].
  pose proof (land_ones_bound (word w 2) 8 ltac:(lia)) as Hm.
  change (Z.ones 8) with 255 in Hm.
  pose proof (f_of_bound (Z.land (word w 2) 255) ltac:(lia)) as Hcode.
  unfold power_of. rewrite (float_of_int_fbound _ _ _ _ Hcode). cbn [rbind].
  eexists. split; [reflexivity|]. cbn [window nano aboveThresh].
  pose proof (land_le_mask (word w 1) 0x3FFF ltac:(lia)).
  change (2 ^ 17) with 131072 in Hrange.
  split; [lia|]. split; [lia|reflexivity].
Qed.

(** *** The cells of a frame *)


Lemma decode_cell_Ok (v pd : Z) (d : list byte) :
  data_ok d = true -> v = 12 \/ v = 10 -> -32767 <= pd <= 32767 ->
  exists f,
    decode_12 (unpack_words d) pd = Ok f /\
    decode_cell v pd d
      = Ok (Sample (nano f) (float32_cell (power f)) (aboveThresh f)) /\
    0 <= nano f < 2 ^ 31 /\ 0 <= aboveThresh f <= 4095.
Proof.
  unfold data_ok. destruct (struct_unpack_h 3 d) as [ws|e] eqn:Hu; [|discriminate].
  intros Hp Hv Hpd. unfold decode_cell, DataPacket. rewrite Hu. cbn [rbind].
  rewrite Hp. cbn [negb]. unfold data_decode.
  assert ((v =? 12) || (v =? 10) = true) as ->
    by (destruct Hv as [-> | ->]; reflexivity).
  apply struct_unpack_h_Ok in Hu as [Hl ->].
  destruct (decode_12_bounds (unpack_words d) pd Hpd) as (f & Hf & Hw & Hn & Ha).
  rewrite Hf. cbn [rbind]. unfold dp_attr. cbn [dp_fields rbind].
  exists f. split; [reflexivity|].
  assert (0 <= aboveThresh f <= 4095) as Hab.
  { rewrite Ha.
    pose proof (unpack_words_length 3 d Hl) as Hlen.
    destruct (unpack_words d) as [|w0 [|w1 [|w2 [|? ?]]]] eqn:Ew; try discriminate.
    apply data_pattern_ok_spec in Hp as (H0 & _ & _).
    pose proof (word_range d 0) as Hr0. rewrite Ew in Hr0.
    unfold word in *. cbn [lookup list_lookup default from_option id] in *.
    rewrite Z.shiftr_div_pow2, (Z.shiftr_div_pow2 _ 4) by lia.
    pose proof (land_le_mask w2 0xFF00 ltac:(lia)) as Hm.
    change (2 ^ 11) with 2048. change (2 ^ 4) with 16.
    pose proof (lor_le_add (w0 / 2048) (Z.land w2 65280 / 16)
                  ltac:(apply Z.div_pos; lia) ltac:(apply Z.div_pos; lia)).
    assert (w0 / 2048 < 16) by (apply Z.div_lt_upper_bound; lia).
    assert (Z.land w2 65280 / 16 <= 4080)
      by (apply Z.div_le_upper_bound; lia).
    lia. }
  assert (0 <= nano f < 2 ^ 31) as Hnano by (change (2 ^ 31) with 2147483648; lia).
  unfold int32_cell.
  rewrite (proj2 (Z.leb_le (- 2 ^ 31) (nano f))) by lia.
  rewrite (proj2 (Z.ltb_lt (nano f) (2 ^ 31))) by lia. cbn [andb rbind].
  rewrite (proj2 (Z.leb_le (- 2 ^ 31) (aboveThresh f))) by lia.
  rewrite (proj2 (Z.ltb_lt (aboveThresh f) (2 ^ 31)))
    by (change (2 ^ 31) with 2147483648; lia).
  cbn [andb rbind]. auto.
Qed.

Lemma decode_cell_no_fields (v pd : Z) (d : list byte) :
  data_ok d = true -> v <> 12 -> v <> 10 ->
  decode_cell v pd d = Raise AttributeError.
Proof.
  unfold data_ok. destruct (struct_unpack_h 3 d) as [ws|e] eqn:Hu; [|discriminate].
  intros Hp H12 H10. unfold decode_cell, DataPacket. rewrite Hu. cbn [rbind].
  rewrite Hp. cbn [negb]. unfold data_decode.
  rewrite (proj2 (Z.eqb_neq v 12)), (proj2 (Z.eqb_neq v 10)) by assumption.
  reflexivity.
Qed.

Lemma read_cells_data (file : list byte) (v pd readEnd : Z) :
  forall (ds : list (list byte)) (cells : list sample) (pre post : list byte)
         (acc : list sample),
  file = pre ++ concat ds ++ post ->
  Forall (fun d => length d = 6%nat) ds ->
  Forall2 (fun d c => decode_cell v pd d = Ok c) ds cells ->
  readEnd = Z.of_nat (length pre) + 6 * Z.of_nat (length ds) ->
  read_cells (length ds) file (Z.of_nat (length pre)) readEnd v pd acc
    = Ok (acc ++ cells).
Proof.
  induction ds as [|d ds IH]; intros cells pre post acc Hfile Hlen Hdec Hend.
  - apply Forall2_nil_inv_l in Hdec as ->. simpl. rewrite app_nil_r. reflexivity.
  - apply Forall2_cons_inv_l in Hdec as (c & cells' & Hc & Hrest & ->).
    apply Forall_cons in Hlen as [Hd Hlen].
    cbn [length read_cells].
    rewrite Z.geb_leb, (proj2 (Z.leb_gt _ _))
      by (cbn [length] in Hend; lia).
    assert (read_at file (Z.of_nat (length pre)) 6 = d) as ->.
    { rewrite Hfile. cbn [concat]. rewrite <- app_assoc.
      pose proof (read_at_middle pre d (concat ds ++ post)) as R.
      rewrite Hd in R. exact R. }
    rewrite Hc. cbn [rbind].
    replace (Z.of_nat (length pre) + Z.of_nat (length d))
      with (Z.of_nat (length (pre ++ d))) by (rewrite length_app; lia).
    rewrite (IH cells' (pre ++ d) post (acc ++ [c])); auto.
    + rewrite <- app_assoc. reflexivity.
    + rewrite Hfile. cbn [concat]. rewrite <- !app_assoc. reflexivity.
    + rewrite length_app, Hd. cbn [length] in Hend. lia.
Qed.

Lemma find_status_layout (timestamp2epoch : epoch_fn) (boot : list byte)
    (blocks : list second_block) :
  well_formed timestamp2epoch boot blocks = true ->
  exists rf,
    find_status timestamp2epoch false (layout boot blocks) = Some (Ok rf) /\
    rf_statusSize rf = 18 /\
    statusLocations (rf_scan rf) = 0 :: status_offsets 18 blocks /\
    statusPackets (rf_scan rf) = None :: (block_status timestamp2epoch <$> blocks).
Proof.
  unfold well_formed.
  destruct (StatusPacket timestamp2epoch boot) as [sp0|e] eqn:Hboot; [|discriminate].
  intros Hok. apply StatusPacket_Ok_inv in Hboot as Hinv.
  destruct Hinv as (Hl & Hv & _).
  unfold find_status, layout. rewrite (read_at_boot _ _ Hl), Hboot.
  cbn [fbind]. rewrite (proj2 (Z.geb_le _ _)) by lia.
  unfold _search_backwards.
  set (file := boot ++ concat (block_bytes <$> blocks)).
  set (st0 := Scanner [] [] 0 almanac0).
  destruct (backward_blocks timestamp2epoch file (sp_id sp0) (sp_netid sp0)
              boot blocks [] st0) as (fuel & st' & Hb & Hlocs & Hpkts).
  { unfold file. simpl. rewrite app_nil_r. reflexivity. }
  { exact Hl. }
  { exact Hok. }
  assert (fileSize file = 18 + span blocks) as Hsize.
  { unfold fileSize, file. rewrite length_app.
    pose proof (blocks_length _ _ _ blocks Hok). lia. }
  rewrite Hsize.
  destruct (backward_loop_total timestamp2epoch file (sp_id sp0) (sp_netid sp0) 18
              (S (length file)) (18 + span blocks) st0) as [r Hr].
  { unfold fileSize in Hsize. lia. }
  pose proof (backward_loop_mono _ _ _ _ _ _ (Nat.max fuel (S (length file)))
                _ _ _ (Nat.le_max_l _ _) Hb) as H1.
  pose proof (backward_loop_mono _ _ _ _ _ _ (Nat.max fuel (S (length file)))
                _ _ _ (Nat.le_max_r _ _) Hr) as H2.
  rewrite H1 in H2. injection H2 as <-. rewrite Hr.
  eexists. split; [reflexivity|]. cbn [rf_statusSize rf_scan statusLocations statusPackets].
  split; [reflexivity|]. rewrite Hlocs, Hpkts. subst st0.
  cbn [statusLocations statusPackets app].
  rewrite !reverse_app, !reverse_involutive. split; reflexivity.
Qed.

Lemma length_status_offsets (start : Z) (bs : list second_block) :
  length (status_offsets start bs) = length bs.
Proof.
  revert start. induction bs as [|b bs IH]; intros start; simpl; [reflexivity|].
  rewrite IH. reflexivity.
Qed.

Lemma previous_offset (bs : list second_block) : forall (start : Z) (rest : list Z),
  (start - 18 :: status_offsets start bs ++ rest) !! length bs
    = Some (start + span bs - 18).
Proof.
  induction bs as [|b bs IH]; intros start rest.
  - simpl. f_equal. lia.
  - cbn [length status_offsets span app]. rewrite lookup_cons_ne_0 by lia.
    cbn [Nat.pred].
    replace (start + 6 * Z.of_nat (length (sb_data b)))
      with (start + 6 * Z.of_nat (length (sb_data b)) + 18 - 18) at 1 by lia.
    rewrite IH. f_equal. lia.
Qed.

Lemma cells_exist (v pd : Z) (ds : list (list byte)) :
  forallb data_ok ds = true -> v = 12 \/ v = 10 -> -32767 <= pd <= 32767 ->
  exists cells,
    Forall2 (fun d c => decode_cell v pd d = Ok c) ds cells /\
    Forall2 (fun d c => exists f,
               decode_12 (unpack_words d) pd = Ok f /\
               c = Sample (nano f) (float32_cell (power f)) (aboveThresh f) /\
               0 <= nano f < 2 ^ 31 /\ 0 <= aboveThresh f <= 4095) ds cells.
Proof.
  intros Hok Hv Hpd. induction ds as [|d ds IH].
  - exists []. split; constructor.
  - cbn [forallb] in Hok. apply andb_prop in Hok as [Hd Hds].
    destruct (IH Hds) as (cells & H1 & H2).
    destruct (decode_cell_Ok v pd d Hd Hv Hpd) as (f & Hf & Hc & Hn & Ha).
    exists (Sample (nano f) (float32_cell (power f)) (aboveThresh f) :: cells).
    split; constructor; eauto.
Qed.

Section ReadFrame.
Variable timestamp2epoch : epoch_fn.
Variables (boot : list byte) (before after : list second_block) (b : second_block).
Variable sp : status.
Hypothesis Hwf : well_formed timestamp2epoch boot (before ++ b :: after) = true.
Hypothesis Hsp : StatusPacket timestamp2epoch (sb_status b) = Ok sp.

Local Abbreviation file := (layout boot (before ++ b :: after)).
Local Abbreviation n := (Z.of_nat (length (sb_data b))).

(** What [read_frame] looks up and reads for the block [b]. *)
Lemma read_frame_reads (rf : raw_file) (h : heap) :
  find_status timestamp2epoch false file = Some (Ok rf) ->
  read_frame file false rf (Z.of_nat (length before) + 1) h =
    do cells <- read_cells (length (sb_data b)) file (18 + span before)
                           (18 + span before + 6 * n)
                           (sp_version sp) (sp_phaseDiff sp) [];
    let '(l, h') := alloc h cells in Ok (LMAFrame sp (Some l), h').
Proof.
  intros Hfind.
  destruct (find_status_layout timestamp2epoch boot (before ++ b :: after) Hwf)
    as (rf' & Hfind' & Hsize & Hlocs & Hpkts).
  rewrite Hfind in Hfind'. injection Hfind' as <-.
  unfold well_formed in Hwf.
  destruct (StatusPacket timestamp2epoch boot) as [sp0|e] eqn:Hboot; [|discriminate].
  rewrite forallb_app in Hwf. apply andb_prop in Hwf as [Hbefore Hrest].
  cbn [forallb] in Hrest. apply andb_prop in Hrest as [Hb Hafter].
  apply block_ok_inv in Hb as (sp' & Hsp' & Hid & Hnet & Htc & Hl & Hd).
  rewrite Hsp in Hsp'. injection Hsp' as <-.
  unfold read_frame. rewrite Hlocs, Hpkts, Hsize.
  cbn [length]. rewrite length_status_offsets, length_app. cbn [length].
  rewrite (proj2 (Z.leb_gt _ _)), Z.geb_leb, (proj2 (Z.leb_gt _ _)) by lia.
  cbn [orb].
  rewrite !np_index_nonneg by lia.
  replace (Z.to_nat (Z.of_nat (length before) + 1 - 1)) with (length before) by lia.
  replace (Z.to_nat (Z.of_nat (length before) + 1)) with (S (length before)) by lia.
  rewrite (status_offsets_app 18 before (b :: after)).
  pose proof (previous_offset before 18 (status_offsets (18 + span before) (b :: after)))
    as Hprev.
  change (18 - 18) with 0 in Hprev. rewrite Hprev. cbn [rbind].
  rewrite (lookup_cons_ne_0 _ _ (S (length before))) by lia. cbn [Nat.pred].
  cbn [status_offsets].
  rewrite (list_lookup_middle _ _ _ (length before))
    by (rewrite length_status_offsets; reflexivity).
  cbn [rbind]. rewrite (lookup_cons_ne_0 _ _ (S (length before))) by lia.
  cbn [Nat.pred]. rewrite fmap_app, fmap_cons.
  rewrite (list_lookup_middle _ _ _ (length before))
    by (rewrite length_fmap; reflexivity).
  cbn [rbind]. unfold block_status. rewrite Hsp. cbn [negb rbind].
  rewrite Htc. rewrite (proj2 (Z.ltb_ge _ _)) by lia. rewrite Nat2Z.id.
  replace (18 + span before - 18 + 18) with (18 + span before) by lia.
  reflexivity.
Qed.

End ReadFrame.

Lemma layout_split (boot : list byte) (before after : list second_block)
    (b : second_block) :
  layout boot (before ++ b :: after)
    = (boot ++ concat (block_bytes <$> before)) ++ concat (sb_data b)
        ++ (sb_status b ++ concat (block_bytes <$> after)).
Proof.
  unfold layout. rewrite fmap_app, fmap_cons, concat_app, concat_cons.
  unfold block_bytes at 2. rewrite <- !app_assoc. reflexivity.
Qed.

Lemma well_formed_inv (timestamp2epoch : epoch_fn) (boot : list byte)
    (before after : list second_block) (b : second_block) :
  well_formed timestamp2epoch boot (before ++ b :: after) = true ->
  Z.of_nat (length (boot ++ concat (block_bytes <$> before))) = 18 + span before /\
  forallb data_ok (sb_data b) = true.
Proof.
  unfold well_formed.
  destruct (StatusPacket timestamp2epoch boot) as [sp0|e] eqn:Hboot; [|discriminate].
  intros Hwf. apply StatusPacket_Ok_inv in Hboot as (Hl & _).
  rewrite forallb_app in Hwf. apply andb_prop in Hwf as [Hbefore Hrest].
  cbn [forallb] in Hrest. apply andb_prop in Hrest as [Hb _].
  split.
  - rewrite length_app. pose proof (blocks_length _ _ _ before Hbefore). lia.
  - unfold block_ok in Hb.
    destruct (StatusPacket timestamp2epoch (sb_status b)); [|discriminate].
    apply andb_prop in Hb as [_ Hb]. exact Hb.
Qed.

(** X17.  On a well-formed fixed-rate file of version 12 or 10, opened
    without the decimated flag, [read_frame(k+1)] returns for the block
    [k] a frame built on the status packet that closes the block, with one
    cell for each data packet of the block, in order: the cell holds the
    [nano] and [aboveThresh] that [decode_12] gives, which fit the [int32]
    columns, and the [power] rounded to binary32.  No array that existed
    before is changed. *)
Theorem read_frame_block (timestamp2epoch : epoch_fn) (boot : list byte)
    (before after : list second_block) (b : second_block) (sp : status)
    (h : heap) :
  well_formed timestamp2epoch boot (before ++ b :: after) = true ->
  StatusPacket timestamp2epoch (sb_status b) = Ok sp ->
  sp_version sp = 12 \/ sp_version sp = 10 ->
  exists rf fr h' cells,
    find_status timestamp2epoch false (layout boot (before ++ b :: after))
      = Some (Ok rf) /\
    read_frame (layout boot (before ++ b :: after)) false rf
               (Z.of_nat (length before) + 1) h = Ok (fr, h') /\
    statusPacket fr = sp /\ cells_of fr h' = Some cells /\
    Forall2 (fun d c => exists f,
               decode_12 (unpack_words d) (sp_phaseDiff sp) = Ok f /\
               c = Sample (nano f) (float32_cell (power f)) (aboveThresh f) /\
               0 <= nano f < 2 ^ 31 /\ 0 <= aboveThresh f <= 4095)
            (sb_data b) cells /\
    (forall l c, h !! l = Some c -> h' !! l = Some c).
Proof.
  intros Hwf Hsp Hv.
  destruct (find_status_layout timestamp2epoch boot _ Hwf) as (rf & Hfind & _).
  destruct (well_formed_inv _ _ _ _ _ Hwf) as [Hpre Hdata].
  pose proof (StatusPacket_in_range _ _ _ Hsp) as Hr.
  destruct Hr as (_ & _ & _ & _ & _ & _ & _ & _ & _ & _ & Hpd & _).
  destruct (cells_exist (sp_version sp) (sp_phaseDiff sp) (sb_data b) Hdata Hv Hpd)
    as (cells & Hdec & Hcells).
  destruct (alloc h cells) as [l h'] eqn:Ha.
  exists rf, (LMAFrame sp (Some l)), h', cells. split; [exact Hfind|].
  split.
  - rewrite (read_frame_reads timestamp2epoch boot before after b sp Hwf Hsp rf h Hfind).
    rewrite <- Hpre.
    rewrite (read_cells_data _ _ _ _ (sb_data b) cells _
               (sb_status b ++ concat (block_bytes <$> after)) []
               (layout_split boot before after b)); auto.
    + cbn [rbind app]. rewrite Ha. reflexivity.
    + apply Forall_forall. intros d Hd. apply data_ok_length.
      rewrite forallb_forall in Hdata. apply Hdata, list_elem_of_In, Hd.
  - apply alloc_spec in Ha as [Hfresh ->].
    split; [reflexivity|]. split; [apply lookup_insert_eq|]. split; [exact Hcells|].
    intros l0 c Hl0. rewrite lookup_insert_ne; [exact Hl0|congruence].
Qed.

(** X18.  On a well-formed file, a block closed by a status packet of
    version 11 or 13 that holds any data cannot be read: [DataPacket.decode]
    sets no field for these versions and [read_frame] ends in
    [AttributeError] at [d.nano]. *)
Theorem read_frame_odd_version (timestamp2epoch : epoch_fn) (boot : list byte)
    (before after : list second_block) (b : second_block) (sp : status)
    (h : heap) :
  well_formed timestamp2epoch boot (before ++ b :: after) = true ->
  StatusPacket timestamp2epoch (sb_status b) = Ok sp ->
  sp_version sp = 11 \/ sp_version sp = 13 ->
  sb_data b <> [] ->
  exists rf,
    find_status timestamp2epoch false (layout boot (before ++ b :: after))
      = Some (Ok rf) /\
    read_frame (layout boot (before ++ b :: after)) false rf
               (Z.of_nat (length before) + 1) h = Raise AttributeError.
Proof.
  intros Hwf Hsp Hv Hne.
  destruct (find_status_layout timestamp2epoch boot _ Hwf) as (rf & Hfind & _).
  destruct (well_formed_inv _ _ _ _ _ Hwf) as [Hpre Hdata].
  exists rf. split; [exact Hfind|].
  rewrite (read_frame_reads timestamp2epoch boot before after b sp Hwf Hsp rf h Hfind).
  destruct (sb_data b) as [|d ds] eqn:Ed; [contradiction|].
  cbn [forallb] in Hdata. apply andb_prop in Hdata as [Hd _].
  cbn [length read_cells].
  rewrite Z.geb_leb, (proj2 (Z.leb_gt _ _)) by lia.
  assert (read_at (layout boot (before ++ b :: after)) (18 + span before) 6 = d) as ->.
  { rewrite <- Hpre.
    replace (layout boot (before ++ b :: after))
      with ((boot ++ concat (block_bytes <$> before)) ++ d
              ++ (concat ds ++ sb_status b ++ concat (block_bytes <$> after)))
      by (rewrite layout_split, Ed; cbn [concat]; rewrite <- !app_assoc; reflexivity).
    pose proof (read_at_middle (boot ++ concat (block_bytes <$> before)) d
                  (concat ds ++ sb_status b ++ concat (block_bytes <$> after))) as R.
    rewrite (data_ok_length d Hd) in R. exact R. }
  rewrite decode_cell_no_fields by (auto; lia). reflexivity.
Qed.

Lemma DataPacket_fields (bs : list byte) (v pd : Z) (d : data_packet)
    (f : data_fields) :
  DataPacket bs v pd = Ok d -> dp_fields d = Some f ->
  data_ok bs = true /\ (v = 12 \/ v = 10) /\
  decode_12 (unpack_words bs) pd = Ok f.
Proof.
  unfold DataPacket, data_ok.
  destruct (struct_unpack_h 3 bs) as [ws|e] eqn:Hu; [|discriminate]. cbn [rbind].
  destruct (data_pattern_ok ws) eqn:Hp; [|discriminate]. cbn [negb].
  apply struct_unpack_h_Ok in Hu as [_ ->]. unfold data_decode.
  destruct (Z.eqb_spec v 12) as [E|E]; [|destruct (Z.eqb_spec v 10) as [E'|E']];
    cbn [orb].
  - destruct (decode_12 (unpack_words bs) pd) as [f'|e]; [|discriminate].
    cbn [rbind]. intros [= <-]. cbn [dp_fields]. intros [= ->]. auto.
  - destruct (decode_12 (unpack_words bs) pd) as [f'|e]; [|discriminate].
    cbn [rbind]. intros [= <-]. cbn [dp_fields]. intros [= ->]. auto.
  - cbn [rbind]. intros [= <-]. discriminate.
Qed.

(** X16.  The fields of a decoded data packet, for a phase difference a
    status packet can carry: the window number is below 2^14, [nano] lies
    at most 131072 ns after the start of its window, and [nano] and
    [aboveThresh] fit the [int32] cells they are stored in. *)
Theorem data_fields_fit_int32 (bs : list byte) (v pd : Z) (d : data_packet)
    (f : data_fields) :
  -32767 <= pd <= 32767 ->
  DataPacket bs v pd = Ok d -> dp_fields d = Some f ->
  0 <= window f <= 16383 /\
  0 <= nano f - window f * 80000 <= 131072 /\
  0 <= nano f < 2 ^ 31 /\
  0 <= aboveThresh f <= 4095.
Proof.
  intros Hpd Hd Hf.
  destruct (DataPacket_fields bs v pd d f Hd Hf) as (Hok & Hv & Hdec).
  destruct (decode_12_bounds (unpack_words bs) pd Hpd) as (f1 & Hf1 & Hw & Hn & _).
  destruct (decode_cell_Ok v pd bs Hok Hv Hpd) as (f2 & Hf2 & _ & Hn2 & Ha2).
  rewrite Hdec in Hf1, Hf2. injection Hf1 as <-. injection Hf2 as <-.
  split; [exact Hw|]. split; [lia|]. split; [exact Hn2|exact Ha2].
Qed.

Lemma data_fields_fit_int32_witness :
  exists d f,
    DataPacket data_bytes 12 5 = Ok d /\ dp_fields d = Some f /\
    0 <= window f <= 16383 /\
    0 <= nano f - window f * 80000 <= 131072 /\
    0 <= nano f < 2 ^ 31 /\
    0 <= aboveThresh f <= 4095.
Proof.
  destruct (DataPacket data_bytes 12 5) as [d|e] eqn:E;
    [|vm_compute in E; discriminate].
  destruct (dp_fields d) as [f|] eqn:F;
    [|vm_compute in E; injection E as <-; discriminate].
  exists d, f. split; [reflexivity|]. split; [exact F|].
  apply (data_fields_fit_int32 data_bytes 12 5 d f); [lia|exact E|exact F].
Defined.

Lemma read_frame_block_witness :
  exists rf fr h' cells,
    find_status calendar_to_epoch false (layout (status_bytes 1 0) ([] ++ plain_block :: []))
      = Some (Ok rf) /\
    read_frame (layout (status_bytes 1 0) ([] ++ plain_block :: [])) false rf
               (Z.of_nat (length ([] : list second_block)) + 1) ∅ = Ok (fr, h') /\
    statusPacket fr = set_epoch (decode_1213 12 (unpack_words (status_bytes 2 2)))
                                1592190122 /\
    cells_of fr h' = Some cells /\
    Forall2 (fun d c => exists f,
               decode_12 (unpack_words d)
                 (sp_phaseDiff (set_epoch (decode_1213 12 (unpack_words (status_bytes 2 2)))
                                          1592190122)) = Ok f /\
               c = Sample (nano f) (float32_cell (power f)) (aboveThresh f) /\
               0 <= nano f < 2 ^ 31 /\ 0 <= aboveThresh f <= 4095)
            (sb_data plain_block) cells /\
    (forall l c, (∅ : heap) !! l = Some c -> h' !! l = Some c).
Proof.
  apply (read_frame_block calendar_to_epoch (status_bytes 1 0) [] [] plain_block
           (set_epoch (decode_1213 12 (unpack_words (status_bytes 2 2))) 1592190122) ∅).
  - vm_compute. reflexivity.
  - vm_compute. reflexivity.
  - left. reflexivity.
Defined.

Lemma read_frame_odd_version_witness :
  exists rf,
    find_status calendar_to_epoch false
                (layout (status_bytes_v13 1 0) ([] ++ odd_block :: [])) = Some (Ok rf) /\
    read_frame (layout (status_bytes_v13 1 0) ([] ++ odd_block :: [])) false rf
               (Z.of_nat (length ([] : list second_block)) + 1) ∅
      = Raise AttributeError.
Proof.
  apply (read_frame_odd_version calendar_to_epoch (status_bytes_v13 1 0) [] []
           odd_block
           (set_epoch (decode_1213 13 (unpack_words (status_bytes_v13 2 1))) 1592190122)
           ∅).
  - vm_compute. reflexivity.
  - vm_compute. reflexivity.
  - right. reflexivity.
  - discriminate.
Defined.

End ReadFrameFacts.
